(** * Cohort analytics of the Aneeq dashboard: retention / LTV pivots and CAC break-even

    Shallow embedding of
    - [dashboard/src/lib/analytics/utils.ts]  (module [Utils]),
    - the pivot builders of [dashboard/src/components/dashboard/Dashboard.tsx]
      (module [Dashboard]),
    - the per-row CAC overlay of the LTV heat map (module [LtvHeatmap]),
    preceded by the JavaScript built-ins they call (module [Js]).

    Conventions of the embedding.
    - A JS [number] that the code does arithmetic on (retention ratio, LTV value,
      cohort size, spend, CAC) is an IEEE-754 binary64 value: Rocq's primitive
      [float].  [undefined] is [None].
    - A JS [number] that the code uses as a property key, loop counter or month
      count (offset [m], [maxMonth], the result of [parseInt]) is an integer in
      [Z]; [NaN] out of [parseInt] is [None].  This is exact as long as the
      numbers read and the intermediate results stay below 2^53, where
      binary64 arithmetic on integers does not round.
    - A JS string is the sequence of its UTF-16 code units.  The model holds the
      strings whose code units are all below 256, one [ascii] per code unit
      (a code unit from 128 on is written [ascii_of_nat n]; a literal with
      such a character would be read as the bytes of its UTF-8 encoding);
      every statement about strings ranges over these.  [<], [>], [>=] on
      strings compare code units lexicographically ([String.compare]), the
      truth value of a string is "non-empty".  The white space of [trim],
      [parseInt], [parseFloat] and [\s] below 256 is tab, line feed, vertical
      tab, form feed, carriage return, space and no-break space (U+00A0).
    - [Record<number, number | undefined>] is a [gmap Z float]; the insertion
      ordered [Map<string, group>] is an association list in insertion order.
    - [localeCompare] depends on the host's collation: the builders take it as
      a parameter and every statement holds for any collation. *)

From Stdlib Require Import ZArith String Ascii List Lia.
From Stdlib Require Import Floats.PrimFloat Floats.SpecFloat Floats.FloatOps.
From Stdlib Require Import Floats.FloatAxioms Sorting.Sorted Sorting.Permutation.
From stdpp Require Import gmap strings list.

#[local] Open Scope Z_scope.
#[local] Set Warnings "-inexact-float".

(* ===================================================================== *)
(** * JavaScript built-ins used by the source *)
(* ===================================================================== *)
Module Js.

(** Truth value of a string: [!!s]. *)
Definition truthy (s : string) : bool :=
  match s with EmptyString => false | String _ _ => true end.

(** [a < b], [a > b], [a >= b] on strings. *)
Definition strLt (a b : string) : bool := String.ltb a b.
Definition strGt (a b : string) : bool := String.ltb b a.
Definition strGe (a b : string) : bool := negb (String.ltb a b).

Definition codeOf (c : ascii) : Z := Z.of_N (N_of_ascii c).

(** White space and line terminators among the code units below 256. *)
Definition isWhiteSpace (c : ascii) : bool :=
  (codeOf c =? 32) || ((9 <=? codeOf c) && (codeOf c <=? 13)) || (codeOf c =? 160).

Definition isDigit (c : ascii) : bool :=
  (48 <=? codeOf c) && (codeOf c <=? 57).

Definition digitValue (c : ascii) : Z := codeOf c - 48.

Fixpoint trimStart (s : string) : string :=
  match s with
  | EmptyString => EmptyString
  | String c r => if isWhiteSpace c then trimStart r else s
  end.

Fixpoint trimEnd (s : string) : string :=
  match s with
  | EmptyString => EmptyString
  | String c r =>
      match trimEnd r with
      | EmptyString => if isWhiteSpace c then EmptyString else String c EmptyString
      | r' => String c r'
      end
  end.

(** [s.trim()] *)
Definition trim (s : string) : string := trimEnd (trimStart s).

(** [s.split(sep)] for a one-character separator: never an empty array. *)
Fixpoint split (sep : ascii) (s : string) : list string :=
  match s with
  | EmptyString => [EmptyString]
  | String c r =>
      if Ascii.eqb c sep then EmptyString :: split sep r
      else match split sep r with
           | h :: t => String c h :: t
           | [] => [String c EmptyString]
           end
  end.

(** Value of the longest prefix of decimal digits, continuing from [acc]. *)
Fixpoint parseDigits (s : string) (acc : Z) : Z :=
  match s with
  | EmptyString => acc
  | String c r => if isDigit c then parseDigits r (acc * 10 + digitValue c) else acc
  end.

(** [Number.parseInt(s, 10)]: leading white space, an optional sign, then the
    longest run of digits; [NaN] ([None]) when there is no digit. *)
Definition parseInt (s : string) : option Z :=
  let t := trimStart s in
  let '(sign, body) :=
    match t with
    | String "-" r => (-1, r)
    | String "+" r => (1, r)
    | _ => (1, t)
    end in
  match body with
  | String c _ => if isDigit c then Some (sign * parseDigits body 0) else None
  | EmptyString => None
  end.

Definition digitChar (d : Z) : ascii := ascii_of_N (Z.to_N (48 + d)).

Fixpoint digitsOf (fuel : nat) (n : Z) (acc : string) : string :=
  match fuel with
  | O => acc
  | S f =>
      let acc' := String (digitChar (n mod 10)) acc in
      if n / 10 =? 0 then acc' else digitsOf f (n / 10) acc'
  end.

(** [String(n)] / template interpolation of an integer-valued number. *)
Definition numberToString (n : Z) : string :=
  let a := Z.abs n in
  let ds := digitsOf (S (Z.to_nat (Z.log2 a))) a EmptyString in
  if n <? 0 then String "-" ds else ds.

Fixpoint repeatChar (k : nat) (c : ascii) : string :=
  match k with O => EmptyString | S k' => String c (repeatChar k' c) end.

(** [s.padStart(n, c)] for a one-character pad string. *)
Definition padStart (n : nat) (c : ascii) (s : string) : string :=
  (repeatChar (n - String.length s) c ++ s)%string.

(** [s.endsWith("%")] *)
Fixpoint endsWithPercent (s : string) : bool :=
  match s with
  | EmptyString => false
  | String c EmptyString => Ascii.eqb c "%"
  | String _ r => endsWithPercent r
  end.

(** [s.slice(0, -1)] *)
Fixpoint dropLast (s : string) : string :=
  match s with
  | EmptyString => EmptyString
  | String _ EmptyString => EmptyString
  | String c r => String c (dropLast r)
  end.

(** ** Numbers *)

(** [Number.isFinite(x)] for a number [x]. *)
Definition isFinite (x : float) : bool :=
  negb (PrimFloat.is_nan x) && negb (PrimFloat.is_infinity x).

(** The binary64 value nearest to [num / den] (ties to even), [num >= 0],
    [den > 0]: the quotient is taken with 64 significant bits and a sticky
    bit, then rounded once. *)
Definition roundRatio (num den : Z) : float :=
  if num =? 0 then PrimFloat.zero
  else
    let s := Z.max 0 (64 + Z.log2_up den - Z.log2 num) in
    let q := (num * 2 ^ s) / den in
    let r := (num * 2 ^ s) mod den in
    let m := 2 * q + (if r =? 0 then 0 else 1) in
    SF2Prim (binary_normalize prec emax m (- s - 1) false).

(** The binary64 value of [mant * 10 ^ e10], [mant >= 0]. *)
Definition decimalToFloat (mant e10 : Z) : float :=
  if 0 <=? e10 then roundRatio (mant * 10 ^ e10) 1
  else roundRatio mant (10 ^ (- e10)).

Fixpoint spanDigits (s : string) : string * string :=
  match s with
  | EmptyString => (EmptyString, EmptyString)
  | String c r =>
      if isDigit c then let '(d, rest) := spanDigits r in (String c d, rest)
      else (EmptyString, s)
  end.

(** The exponent part [e[+-]ddd] of a decimal literal; 0 when it is absent or
    incomplete. *)
Definition parseExponent (s : string) : Z :=
  match s with
  | String c r =>
      if Ascii.eqb c "e" || Ascii.eqb c "E" then
        let '(sign, body) :=
          match r with
          | String "-" r' => (-1, r')
          | String "+" r' => (1, r')
          | _ => (1, r)
          end in
        match body with
        | String d _ => if isDigit d then sign * parseDigits body 0 else 0
        | EmptyString => 0
        end
      else 0
  | EmptyString => 0
  end.

(** [Number.parseFloat(s)]: leading white space, an optional sign, then the
    longest prefix that is [Infinity] or a decimal literal; [NaN] otherwise. *)
Definition parseFloat (s : string) : float :=
  let t := trimStart s in
  let '(neg, body) :=
    match t with
    | String "-" r => (true, r)
    | String "+" r => (false, r)
    | _ => (false, t)
    end in
  let signed (x : float) : float := if neg then PrimFloat.opp x else x in
  if String.prefix "Infinity" body then signed PrimFloat.infinity
  else
    let '(ip, rest1) := spanDigits body in
    let '(fp, rest2) :=
      match rest1 with
      | String "." r => spanDigits r
      | _ => (EmptyString, rest1)
      end in
    match (ip ++ fp)%string with
    | EmptyString => PrimFloat.nan
    | ds =>
        signed (decimalToFloat (parseDigits ds 0)
                  (parseExponent rest2 - Z.of_nat (String.length fp)))
    end.

(** ** Property reads on a plain object *)

(** The names of the members that every plain object inherits from
    [Object.prototype]. *)
Definition objectPrototypeKeys : list string :=
  [ "constructor"; "__defineGetter__"; "__defineSetter__"; "hasOwnProperty";
    "__lookupGetter__"; "__lookupSetter__"; "isPrototypeOf"; "propertyIsEnumerable";
    "toString"; "valueOf"; "__proto__"; "toLocaleString" ]%string.

Definition inheritedMember (key : string) : bool :=
  existsb (String.eqb key) objectPrototypeKeys.

(** What [obj[key]] yields on a plain object whose own properties hold
    numbers: the own number, or an inherited member (a function; for
    [__proto__] the prototype object itself). *)
Inductive PropertyValue : Type :=
  | OwnNumber (x : float)
  | PrototypeMember.

(** [obj[key]]: own properties first, then [Object.prototype]; [undefined]
    ([None]) when neither has the key. *)
Definition getProperty (obj : gmap string float) (key : string) : option PropertyValue :=
  match obj !! key with
  | Some x => Some (OwnNumber x)
  | None => if inheritedMember key then Some PrototypeMember else None
  end.

(** The number that arithmetic makes of a value: a function or a plain
    object converts to [NaN]. *)
Definition toNumber (v : PropertyValue) : float :=
  match v with
  | OwnNumber x => x
  | PrototypeMember => PrimFloat.nan
  end.

End Js.

(* ===================================================================== *)
(** * lib/analytics/utils.ts *)
(* ===================================================================== *)
Module Utils.
Import Js.

(** A [Date] built by [new Date(y, monthIndex, day)], kept as its arguments;
    [new Date(NaN)] is [InvalidDate]. *)
Inductive JsDate : Type :=
  | InvalidDate
  | DateOf (year monthIndex day : Z).

Record CohortMonth : Type := { date : JsDate; key : string }.

Definition parseCohortMonthKey (raw : string) : CohortMonth :=
  let dateStr := trim (hd EmptyString (split " " raw)) in
  let parts := split "-" dateStr in
  let year := nth 0 parts EmptyString in
  let month := nth 1 parts EmptyString in
  match parseInt year, parseInt month with
  | Some y, Some m =>
      {| date := DateOf y (m - 1) 1;
         key := (numberToString y ++ "-" ++ padStart 2 "0" (numberToString m))%string |}
  | _, _ => {| date := InvalidDate; key := EmptyString |}
  end.

(** The argument of [parseRetention] has type [unknown]: a number, a string,
    or anything else ([null], [undefined], a boolean, an object). *)
Inductive JsValue : Type :=
  | JsNumber (x : float)
  | JsString (s : string)
  | JsOther.

Definition parseRetention (val : JsValue) : float :=
  match val with
  | JsNumber x => if isFinite x then x else 0%float
  | JsString s =>
      let trimmed := trim s in
      if negb (truthy trimmed) then 0%float
      else if endsWithPercent trimmed then
        let pct := parseFloat (dropLast trimmed) in
        if isFinite pct then (pct / 100)%float else 0%float
      else
        let numeric := parseFloat trimmed in
        if isFinite numeric then numeric else 0%float
  | JsOther => 0%float
  end.

(** Element [i] of an array of [parseInt] results, as destructuring reads it:
    [None] both for [NaN] and for a missing element. *)
Definition element (i : nat) (parts : list (option Z)) : option Z :=
  match nth_error parts i with
  | Some n => n
  | None => None
  end.

(** The month count is computed on integers: this is the source's binary64
    arithmetic as long as the four numbers read and the results stay within
    [Number.MAX_SAFE_INTEGER] (2^53 - 1), which holds for every key of a
    calendar year. *)
Definition monthsDiff (startKey endKey : string) : Z :=
  if negb (truthy startKey) || negb (truthy endKey) then 0
  else
    let s := List.map parseInt (split "-" startKey) in
    let e := List.map parseInt (split "-" endKey) in
    match element 0 s, element 1 s, element 0 e, element 1 e with
    | Some sy, Some sm, Some ey, Some em => Z.max 0 ((ey - sy) * 12 + (em - sm))
    | _, _, _, _ => 0
    end.

Definition AED_TO_USD : float := (1 / 3.6725)%float.

Definition aedToUsd (aedValue : float) : float := (aedValue * AED_TO_USD)%float.

Definition calculateCacUsd (spendAed : option float) (cohortSize : float) : option float :=
  match spendAed with
  | None => None
  | Some spend =>
      if PrimFloat.leb cohortSize 0%float then None
      else Some (aedToUsd spend / cohortSize)%float
  end.

(** The [for (let m = 0; m <= maxMonth; m++)] loop of [findBreakEvenMonth],
    with [iterations] rounds left and the counter at [m]. *)
Fixpoint breakEvenScan (iterations : nat) (m : Z)
    (values : gmap Z float) (cacUsd : float) : option Z :=
  match iterations with
  | O => None
  | S rest =>
      match values !! m with
      | Some ltv =>
          if PrimFloat.leb cacUsd (aedToUsd ltv) then Some m
          else breakEvenScan rest (m + 1) values cacUsd
      | None => breakEvenScan rest (m + 1) values cacUsd
      end
  end.

Definition findBreakEvenMonth (values : gmap Z float) (cacUsd : option float)
    (maxMonth : Z) : option Z :=
  match cacUsd with
  | None => None
  | Some cac => breakEvenScan (Z.to_nat (maxMonth + 1)) 0 values cac
  end.

End Utils.

(* ===================================================================== *)
(** * components/dashboard/Dashboard.tsx: the pivot builders *)
(* ===================================================================== *)
Module Dashboard.
Import Js Utils.

(** Modelled from the spec: the unions [Dimension], [Metric] and [Segment] of
    [lib/analytics/types.ts], a file that is not among the sources.  The spec
    gives dimension in {overall, category, sku}, metric in {any, same},
    segment in {all, subscribers, one-time}.  [Measure] is the union written
    out in the filter type of [buildLtvPivot]. *)
Inductive Dimension : Type := Overall | Category | Sku.
Inductive Metric : Type := Any | Same.
Inductive Segment : Type := All | Subscribers | OneTime.
Inductive Measure : Type := Revenue | Gm.

#[global] Instance Dimension_eq_dec : EqDecision Dimension.
Proof. solve_decision. Defined.
#[global] Instance Metric_eq_dec : EqDecision Metric.
Proof. solve_decision. Defined.
#[global] Instance Segment_eq_dec : EqDecision Segment.
Proof. solve_decision. Defined.
#[global] Instance Measure_eq_dec : EqDecision Measure.
Proof. solve_decision. Defined.

(** [a !== b] on strings and on the unions above. *)
Definition strNe (a b : string) : bool := negb (String.eqb a b).
Definition ne {A : Type} `{EqDecision A} (a b : A) : bool := negb (bool_decide (a = b)).

Module RetentionRow.
Record t : Type := mk {
  cohortMonth : JsDate;
  cohortMonthKey : string;
  dimension : Dimension;
  first_value : string;
  m : Z;
  metric : Metric;
  segment : Segment;
  cohort_size : float;
  retention : float
}.
End RetentionRow.

Module LtvRow.
Record t : Type := mk {
  cohort_type : string;
  cohortMonth : JsDate;
  cohortMonthKey : string;
  dimension : Dimension;
  first_value : string;
  m : Z;
  metric : Metric;
  measure : Measure;
  segment : Segment;
  cohort_size : float;
  ltv_per_user : float
}.
End LtvRow.

Module RetentionFilters.
Record t : Type := mk {
  dimension : Dimension;
  metric : Metric;
  segment : Segment;
  firstValue : string;
  startMonth : string;
  endMonth : string
}.
End RetentionFilters.

Module LtvFilters.
Record t : Type := mk {
  dimension : Dimension;
  metric : Metric;
  segment : Segment;
  firstValue : string;
  startMonth : string;
  endMonth : string;
  measure : Measure
}.
End LtvFilters.

(** A row of the heat map, and the result of a pivot builder. *)
Record HeatmapRow : Type := {
  cohortMonth : string;
  cohortSize : float;
  values : gmap Z float
}.

Record PivotResult : Type := {
  rows : list HeatmapRow;
  maxMonth : Z;
  maxValue : option float
}.

(** The value type of the [byMonth] map. *)
Record Group : Type := { size : float; groupValues : gmap Z float }.

(** ** The insertion-ordered [Map<string, Group>] *)

Definition GroupMap : Type := list (string * Group).

Definition mapHas (k : string) (mp : GroupMap) : bool :=
  existsb (fun e => String.eqb (fst e) k) mp.

Fixpoint mapGet (k : string) (mp : GroupMap) : option Group :=
  match mp with
  | [] => None
  | (k', g) :: rest => if String.eqb k' k then Some g else mapGet k rest
  end.

(** [mp.set(k, g)]: replaces the value of an existing key in place, appends a
    new key at the end. *)
Fixpoint mapSet (k : string) (g : Group) (mp : GroupMap) : GroupMap :=
  match mp with
  | [] => [(k, g)]
  | (k', g') :: rest =>
      if String.eqb k' k then (k', g) :: rest else (k', g') :: mapSet k g rest
  end.

(** [mp.get(k)!.values[m] = v]: the group object stored under [k] is mutated. *)
Definition record (k : string) (m : Z) (v : float) (mp : GroupMap) : GroupMap :=
  match mapGet k mp with
  | Some g => mapSet k {| size := size g; groupValues := <[m := v]> (groupValues g) |} mp
  | None => mp
  end.

Definition MAX_SAFE_INTEGER : Z := 9007199254740991.

(** [Math.max(0, ...xs)] *)
Definition mathMax0 (xs : list Z) : Z := foldr Z.max 0 xs.

(** ** buildRetentionPivot *)

Definition retentionFilter (filters : RetentionFilters.t) (row : RetentionRow.t) : bool :=
  if ne (RetentionRow.segment row) (RetentionFilters.segment filters) then false
  else if ne (RetentionRow.dimension row) (RetentionFilters.dimension filters) then false
  else if ne (RetentionFilters.dimension filters) Overall
          && strNe (RetentionRow.first_value row) (RetentionFilters.firstValue filters) then false
  else if ne (RetentionRow.metric row) (RetentionFilters.metric filters) then false
  else if truthy (RetentionFilters.startMonth filters)
          && strLt (RetentionRow.cohortMonthKey row) (RetentionFilters.startMonth filters) then false
  else if truthy (RetentionFilters.endMonth filters)
          && strGt (RetentionRow.cohortMonthKey row) (RetentionFilters.endMonth filters) then false
  else if bool_decide (RetentionFilters.dimension filters = Overall)
          && strNe (RetentionRow.first_value row) "ALL" then false
  else true.

(** One round of [for (const row of filtered)]. *)
Definition retentionStep (lastObservedMonth : string)
    (byMonth : GroupMap) (row : RetentionRow.t) : GroupMap :=
  let k := RetentionRow.cohortMonthKey row in
  let byMonth :=
    if negb (mapHas k byMonth)
    then mapSet k {| size := RetentionRow.cohort_size row; groupValues := ∅ |} byMonth
    else byMonth in
  let allowed :=
    if truthy lastObservedMonth then monthsDiff k lastObservedMonth
    else MAX_SAFE_INTEGER in
  if truthy lastObservedMonth && (RetentionRow.m row >? allowed) then byMonth
  else record k (RetentionRow.m row) (RetentionRow.retention row) byMonth.

(** ** buildLtvPivot *)

Definition ltvFilter (filters : LtvFilters.t) (lastObservedMonth : string)
    (row : LtvRow.t) : bool :=
  if ne (LtvRow.segment row) (LtvFilters.segment filters) then false
  else if ne (LtvRow.dimension row) (LtvFilters.dimension filters) then false
  else if ne (LtvFilters.dimension filters) Overall
          && strNe (LtvRow.first_value row) (LtvFilters.firstValue filters) then false
  else if ne (LtvRow.metric row) (LtvFilters.metric filters) then false
  else if ne (LtvRow.measure row) (LtvFilters.measure filters) then false
  else if truthy (LtvFilters.startMonth filters)
          && strLt (LtvRow.cohortMonthKey row) (LtvFilters.startMonth filters) then false
  else if truthy (LtvFilters.endMonth filters)
          && strGt (LtvRow.cohortMonthKey row) (LtvFilters.endMonth filters) then false
  else if truthy lastObservedMonth
          && strGe (LtvRow.cohortMonthKey row) lastObservedMonth then false
  else if bool_decide (LtvFilters.dimension filters = Overall)
          && strNe (LtvRow.first_value row) "ALL" then false
  else true.

(** One round of the LTV loop; the state is [byMonth] and [maxValue]. *)
Definition ltvStep (lastObservedMonth : string)
    (st : GroupMap * float) (row : LtvRow.t) : GroupMap * float :=
  let '(byMonth, maxValue) := st in
  let k := LtvRow.cohortMonthKey row in
  let byMonth :=
    if negb (mapHas k byMonth)
    then mapSet k {| size := LtvRow.cohort_size row; groupValues := ∅ |} byMonth
    else byMonth in
  let allowed :=
    if truthy lastObservedMonth then monthsDiff k lastObservedMonth
    else MAX_SAFE_INTEGER in
  if truthy lastObservedMonth && (LtvRow.m row >? allowed) then (byMonth, maxValue)
  else if PrimFloat.leb (LtvRow.ltv_per_user row) 0%float then (byMonth, maxValue)
  else
    (record k (LtvRow.m row) (LtvRow.ltv_per_user row) byMonth,
     if PrimFloat.ltb maxValue (LtvRow.ltv_per_user row)
     then LtvRow.ltv_per_user row else maxValue).

(** [Array.from(byMonth.entries()).map(...)] *)
Definition toHeatmapRow (e : string * Group) : HeatmapRow :=
  {| cohortMonth := fst e; cohortSize := size (snd e); values := groupValues (snd e) |}.

(** ** The grouping loop seen per cohort key

    Both loops do the same thing to [byMonth]: each filtered row is an [Event]
    that makes sure its cohort has a group and then, unless the row is skipped,
    records one cell.  [groupOf k evs] is the group that a run over [evs] leaves
    under key [k]. *)
Record Event : Type := { evKey : string; evSize : float; evCell : option (Z * float) }.

Definition freshGroup (sz : float) : Group := {| size := sz; groupValues := ∅ |}.

Definition ensureGroup (k : string) (sz : float) (mp : GroupMap) : GroupMap :=
  if negb (mapHas k mp) then mapSet k (freshGroup sz) mp else mp.

Definition groupStep (mp : GroupMap) (e : Event) : GroupMap :=
  let mp1 := ensureGroup (evKey e) (evSize e) mp in
  match evCell e with
  | Some (m, v) => record (evKey e) m v mp1
  | None => mp1
  end.

Definition applyCell (cell : option (Z * float)) (g : Group) : Group :=
  match cell with
  | Some (m, v) => {| size := size g; groupValues := <[m := v]> (groupValues g) |}
  | None => g
  end.

Definition groupOfStep (k : string) (og : option Group) (e : Event) : option Group :=
  if String.eqb (evKey e) k
  then Some (applyCell (evCell e)
               (match og with Some g => g | None => freshGroup (evSize e) end))
  else og.

Definition groupOf (k : string) (evs : list Event) : option Group :=
  fold_left (groupOfStep k) evs None.

Definition retentionEvent (lastObservedMonth : string) (row : RetentionRow.t) : Event :=
  {| evKey := RetentionRow.cohortMonthKey row;
     evSize := RetentionRow.cohort_size row;
     evCell :=
       if truthy lastObservedMonth
          && (RetentionRow.m row >? monthsDiff (RetentionRow.cohortMonthKey row) lastObservedMonth)
       then None
       else Some (RetentionRow.m row, RetentionRow.retention row) |}.

Definition ltvEvent (lastObservedMonth : string) (row : LtvRow.t) : Event :=
  {| evKey := LtvRow.cohortMonthKey row;
     evSize := LtvRow.cohort_size row;
     evCell :=
       if truthy lastObservedMonth
          && (LtvRow.m row >? monthsDiff (LtvRow.cohortMonthKey row) lastObservedMonth)
       then None
       else if PrimFloat.leb (LtvRow.ltv_per_user row) 0%float then None
       else Some (LtvRow.m row, LtvRow.ltv_per_user row) |}.

Section Collation.
(** [a.localeCompare(b)]: the host's collation, as the sign of its result. *)
Variable localeCompare : string -> string -> comparison.

(** [rows.sort((a, b) => a.cohortMonth.localeCompare(b.cohortMonth))]:
    a stable sort. *)
Fixpoint sortInsert (x : HeatmapRow) (l : list HeatmapRow) : list HeatmapRow :=
  match l with
  | [] => [x]
  | y :: rest =>
      match localeCompare (cohortMonth x) (cohortMonth y) with
      | Gt => y :: sortInsert x rest
      | _ => x :: l
      end
  end.

Definition sortByCohortMonth (l : list HeatmapRow) : list HeatmapRow :=
  foldr sortInsert [] l.

Definition buildRetentionPivot (rows : list RetentionRow.t)
    (filters : RetentionFilters.t) (lastObservedMonth : string) : PivotResult :=
  let filtered := List.filter (retentionFilter filters) rows in
  let byMonth := fold_left (retentionStep lastObservedMonth) filtered [] in
  let ordered := sortByCohortMonth (List.map toHeatmapRow byMonth) in
  let maxMonth :=
    match filtered with
    | [] => 0
    | _ :: _ =>
        if truthy lastObservedMonth
        then mathMax0 (List.map (fun row => monthsDiff (RetentionRow.cohortMonthKey row)
                                              lastObservedMonth) filtered)
        else mathMax0 (List.map RetentionRow.m filtered)
    end in
  {| rows := ordered; maxMonth := maxMonth; maxValue := None |}.

Definition buildLtvPivot (rows : list LtvRow.t)
    (filters : LtvFilters.t) (lastObservedMonth : string) : PivotResult :=
  let filtered := List.filter (ltvFilter filters lastObservedMonth) rows in
  let '(byMonth, maxValue) := fold_left (ltvStep lastObservedMonth) filtered ([], 0%float) in
  let ordered := sortByCohortMonth (List.map toHeatmapRow byMonth) in
  let maxMonth :=
    match filtered with
    | [] => 0
    | _ :: _ =>
        if truthy lastObservedMonth
        then mathMax0 (List.map (fun row => monthsDiff (LtvRow.cohortMonthKey row)
                                              lastObservedMonth) filtered)
        else mathMax0 (List.map LtvRow.m filtered)
    end in
  {| rows := ordered; maxMonth := maxMonth; maxValue := Some maxValue |}.
End Collation.

End Dashboard.

(* ===================================================================== *)
(** * components/tables/LtvHeatmap.tsx: the CAC overlay of one row *)
(* ===================================================================== *)
Module LtvHeatmap.
Import Js Utils Dashboard.

(** [marketingSpend?.[row.cohortMonth]]: the spend table is a plain object,
    so the read also finds the members of [Object.prototype]. *)
Definition spendOf (marketingSpend : option (gmap string float)) (row : HeatmapRow)
    : option PropertyValue :=
  match marketingSpend with
  | Some table => getProperty table (cohortMonth row)
  | None => None
  end.

(** [calculateCacUsd(spendAed, row.cohortSize)]: the value read is compared
    with [undefined] and then multiplied in [aedToUsd], where a value that is
    not a number converts to [NaN]. *)
Definition rowCacUsd (marketingSpend : option (gmap string float)) (row : HeatmapRow)
    : option float :=
  calculateCacUsd (option_map toNumber (spendOf marketingSpend row)) (cohortSize row).

Definition rowBreakEvenMonth (marketingSpend : option (gmap string float))
    (row : HeatmapRow) (maxMonth : Z) : option Z :=
  findBreakEvenMonth (values row) (rowCacUsd marketingSpend row) maxMonth.

End LtvHeatmap.

(* ===================================================================== *)
(** * Vocabulary of the statements and example inputs *)
(* ===================================================================== *)
Import Js Utils Dashboard LtvHeatmap.

Definition retentionEvents (rs : list RetentionRow.t) (filters : RetentionFilters.t)
    (lastObservedMonth : string) : list Event :=
  List.map (retentionEvent lastObservedMonth) (List.filter (retentionFilter filters) rs).

Definition ltvEvents (rs : list LtvRow.t) (filters : LtvFilters.t)
    (lastObservedMonth : string) : list Event :=
  List.map (ltvEvent lastObservedMonth) (List.filter (ltvFilter filters lastObservedMonth) rs).

(** The cumulative values [{0: 100, 1: 250, 2: 400}]. *)
Definition cumulativeExample : gmap Z float :=
  <[2 := 400%float]> (<[1 := 250%float]> (<[0 := 100%float]> ∅)).

(** The table [MARKETING_SPEND_AED] restricted to two months, and a cohort
    ("2023-05") that has no entry in it. *)
Definition spendExample : gmap string float :=
  <["2024-11" := 14765%float]> (<["2024-10" := 3034%float]> ∅).

Definition rowWithoutSpend : HeatmapRow :=
  {| cohortMonth := "2023-05"; cohortSize := 12%float; values := cumulativeExample |}.

(** The spend table has no entry for the cohort month [k]: there is no table,
    or the table does not list [k]. *)
Definition noSpendEntry (marketingSpend : option (gmap string float)) (k : string) : Prop :=
  match marketingSpend with
  | Some table => table !! k = None
  | None => True
  end.

(** A row whose cohort month is the name of an inherited member. *)
Definition rowNamedConstructor : HeatmapRow :=
  {| cohortMonth := "constructor"; cohortSize := 12%float; values := cumulativeExample |}.

(** The criteria as the specification lists them. *)
Definition matchesDimensionValue (criteriaDimension : Dimension)
    (criteriaValue rowValue : string) : Prop :=
  (criteriaDimension <> Overall -> rowValue = criteriaValue)
  /\ (criteriaDimension = Overall -> rowValue = "ALL").

Definition keyInRange (key startMonth endMonth : string) : Prop :=
  (startMonth = EmptyString \/ String.compare key startMonth <> Lt)
  /\ (endMonth = EmptyString \/ String.compare key endMonth <> Gt).

Definition retentionCriteria (filters : RetentionFilters.t) (row : RetentionRow.t) : Prop :=
  RetentionRow.segment row = RetentionFilters.segment filters
  /\ RetentionRow.dimension row = RetentionFilters.dimension filters
  /\ matchesDimensionValue (RetentionFilters.dimension filters)
       (RetentionFilters.firstValue filters) (RetentionRow.first_value row)
  /\ RetentionRow.metric row = RetentionFilters.metric filters
  /\ keyInRange (RetentionRow.cohortMonthKey row)
       (RetentionFilters.startMonth filters) (RetentionFilters.endMonth filters).

Definition ltvCriteria (filters : LtvFilters.t) (row : LtvRow.t) : Prop :=
  LtvRow.segment row = LtvFilters.segment filters
  /\ LtvRow.dimension row = LtvFilters.dimension filters
  /\ matchesDimensionValue (LtvFilters.dimension filters)
       (LtvFilters.firstValue filters) (LtvRow.first_value row)
  /\ LtvRow.metric row = LtvFilters.metric filters
  /\ LtvRow.measure row = LtvFilters.measure filters
  /\ keyInRange (LtvRow.cohortMonthKey row)
       (LtvFilters.startMonth filters) (LtvFilters.endMonth filters).

(** The observation boundary as [buildLtvPivot] applies it inside its filter. *)
Definition beforeBoundary (key lastObservedMonth : string) : Prop :=
  lastObservedMonth = EmptyString \/ String.compare key lastObservedMonth = Lt.

(** An LTV row of cohort "2025-03" and criteria that it meets. *)
Definition ltvRowAtBoundary : LtvRow.t :=
  LtvRow.mk "purchase" (DateOf 2025 2 1) "2025-03" Overall "ALL" 0 Any Revenue All
    5%float 350%float.

Definition ltvFiltersExample : LtvFilters.t :=
  LtvFilters.mk Overall Any All "ALL" EmptyString EmptyString Revenue.

(** A retention row of the same cohort, and criteria that it meets. *)
Definition retentionRowAtBoundary : RetentionRow.t :=
  RetentionRow.mk (DateOf 2025 2 1) "2025-03" Overall "ALL" 0 Any All 5%float 1%float.

Definition retentionFiltersExample : RetentionFilters.t :=
  RetentionFilters.mk Overall Any All "ALL" EmptyString EmptyString.

(** [x] is the largest element of [l]. *)
Definition largestOf (x : Z) (l : list Z) : Prop :=
  In x l /\ forall y, In y l -> y <= x.

(** The rows that the loop of a builder skips after the group was made. *)
Definition retentionSkipped (lastObservedMonth : string) (row : RetentionRow.t) : Prop :=
  lastObservedMonth <> EmptyString
  /\ RetentionRow.m row > monthsDiff (RetentionRow.cohortMonthKey row) lastObservedMonth.

Definition ltvSkipped (lastObservedMonth : string) (row : LtvRow.t) : Prop :=
  (lastObservedMonth <> EmptyString
   /\ LtvRow.m row > monthsDiff (LtvRow.cohortMonthKey row) lastObservedMonth)
  \/ PrimFloat.leb (LtvRow.ltv_per_user row) 0%float = true.

(** The scenario of the specification: cohort "2025-01", segment all,
    dimension overall, metric any, offsets 0 (ratio 1.0) and 1 (ratio 0.7),
    cohort size 10. *)
Definition scenarioRow (m : Z) (size ratio : float) : RetentionRow.t :=
  RetentionRow.mk (DateOf 2025 0 1) "2025-01" Overall "ALL" m Any All size ratio.

Definition scenarioRows : list RetentionRow.t :=
  [scenarioRow 0 10%float 1%float; scenarioRow 1 10%float 0.7%float].

Definition scenarioOutRow : HeatmapRow :=
  {| cohortMonth := "2025-01"; cohortSize := 10%float;
     values := <[1 := 0.7%float]> (<[0 := 1%float]> ∅) |}.

(** The embedded fallback LTV rows of [lib/analytics/constants.ts]. *)
Definition FALLBACK_LTV_ROWS : list LtvRow.t :=
  [ LtvRow.mk "purchase" (DateOf 2024 9 1) "2024-10" Overall "ALL" 0 Any Revenue All
      3%float 350%float;
    LtvRow.mk "purchase" (DateOf 2024 9 1) "2024-10" Overall "ALL" 1 Any Revenue All
      3%float 700%float;
    LtvRow.mk "purchase" (DateOf 2024 10 1) "2024-11" Overall "ALL" 0 Any Revenue All
      5%float 350%float ].

Definition fallbackLtvOutRow : HeatmapRow :=
  {| cohortMonth := "2024-10"; cohortSize := 3%float;
     values := <[1 := 700%float]> (<[0 := 350%float]> ∅) |}.

(** Two rows of one cohort that disagree on the cohort size, and a row that
    lies beyond the observation window. *)
Definition conflictingSizeRows : list RetentionRow.t :=
  [scenarioRow 0 10%float 1%float; scenarioRow 1 99%float 0.7%float].

Definition truncatedRows : list RetentionRow.t := [scenarioRow 5 10%float 0.2%float].

(** Two LTV rows of one cohort that disagree on the cohort size. *)
Definition conflictingSizeLtvRow (m : Z) (cohort_size ltv_per_user : float) : LtvRow.t :=
  LtvRow.mk "purchase" (DateOf 2024 9 1) "2024-10" Overall "ALL" m Any Revenue All
    cohort_size ltv_per_user.

Definition conflictingSizeLtvRows : list LtvRow.t :=
  [conflictingSizeLtvRow 0 3%float 350%float; conflictingSizeLtvRow 1 77%float 700%float].

Definition nonPositiveLtvRows : list LtvRow.t :=
  [ LtvRow.mk "purchase" (DateOf 2024 9 1) "2024-10" Overall "ALL" 0 Any Revenue All
      3%float 0%float ].

(** The first filtered row of a cohort. *)
Definition firstRetentionRow (k : string) (filtered : list RetentionRow.t)
    : option RetentionRow.t :=
  find (fun r => String.eqb (RetentionRow.cohortMonthKey r) k) filtered.

Definition firstLtvRow (k : string) (filtered : list LtvRow.t) : option LtvRow.t :=
  find (fun r => String.eqb (LtvRow.cohortMonthKey r) k) filtered.

(** What [parseFloat] computes once the sign is taken off. *)
Definition parseUnsigned (neg : bool) (body : string) : float :=
  let signed (x : float) : float := if neg then PrimFloat.opp x else x in
  if String.prefix "Infinity" body then signed PrimFloat.infinity
  else
    let '(ip, rest1) := spanDigits body in
    let '(fp, rest2) :=
      match rest1 with
      | String "." r => spanDigits r
      | _ => (EmptyString, rest1)
      end in
    match (ip ++ fp)%string with
    | EmptyString => PrimFloat.nan
    | ds =>
        signed (decimalToFloat (parseDigits ds 0)
                  (parseExponent rest2 - Z.of_nat (String.length fp)))
    end.

(** The text of a ratio cell that is read as a number: the trimmed string,
    less one final "%". *)
Definition ratioText (s : string) : string :=
  let trimmed := trim s in
  if endsWithPercent trimmed then dropLast trimmed else trimmed.

(** [body] starts with a digit, or with a point followed by a digit. *)
Definition numeralHead (body : string) : bool :=
  match body with
  | String c r =>
      isDigit c
      || (Ascii.eqb c "." && match r with String d _ => isDigit d | EmptyString => false end)
  | EmptyString => false
  end.

(** The text begins with a decimal numeral: after optional white space and an
    optional sign comes a digit, or a point followed by a digit. *)
Definition beginsWithNumeral (s : string) : bool :=
  match trimStart s with
  | String c r =>
      if Ascii.eqb c "-" || Ascii.eqb c "+" then numeralHead r
      else numeralHead (String c r)
  | EmptyString => false
  end.

(** A raw ratio that is non-numeric: a number that is [NaN] or infinite, a
    string whose text does not begin with a decimal numeral (the empty string,
    "n/a", "abc", "Infinity", ...), or a value that is neither a number nor a
    string.  A text that only begins with a numeral, such as "12abc" or "1,5",
    is not among them. *)
Definition nonNumeric (val : JsValue) : Prop :=
  match val with
  | JsNumber x => isFinite x = false
  | JsString s => beginsWithNumeral (ratioText s) = false
  | JsOther => True
  end.

(** A retention row whose ratio cell read "n/a". *)
Definition malformedRatioRow : RetentionRow.t :=
  scenarioRow 1 10%float (parseRetention (JsString "n/a")).

(** [p] holds of every character of [s]. *)
Fixpoint allChars (p : ascii -> bool) (s : string) : bool :=
  match s with
  | EmptyString => true
  | String c r => p c && allChars p r
  end.

Definition notChar (sep : ascii) (c : ascii) : bool := negb (Ascii.eqb c sep).

Definition notWhiteSpace (c : ascii) : bool := negb (isWhiteSpace c).

(** A date string built from a year and a month, [YYYY-MM-01]: the year zero
    padded to four digits, the month to two. *)
Definition isoDate (year month : Z) : string :=
  (padStart 4 "0" (numberToString year) ++ "-"
   ++ padStart 2 "0" (numberToString month) ++ "-01")%string.

(** Offset [j] holds a value whose conversion reaches [cacUsd]. *)
Definition reachesCac (values : gmap Z float) (cacUsd : float) (j : Z) : Prop :=
  exists ltv, values !! j = Some ltv /\ PrimFloat.leb cacUsd (aedToUsd ltv) = true.

(* ===================================================================== *)
(** * components/tables/LtvHeatmap.tsx: the cells of one row *)
(* ===================================================================== *)
Module LtvHeatmapCells.
Import Utils Dashboard LtvHeatmap.

(** [value !== undefined ? aedToUsd(value) : undefined] for [row.values[month]]. *)
Definition cellUsd (row : HeatmapRow) (month : Z) : option float :=
  match values row !! month with
  | Some value => Some (aedToUsd value)
  | None => None
  end.

(** [cacUsd !== undefined && ltvUsd !== undefined && ltvUsd >= cacUsd] *)
Definition isBreakEven (cacUsd ltvUsd : option float) : bool :=
  match cacUsd, ltvUsd with
  | Some cac, Some ltv => PrimFloat.leb cac ltv
  | _, _ => false
  end.

(** Whether the cell of [month] gets the break-even ring. *)
Definition cellIsBreakEven (marketingSpend : option (gmap string float))
    (row : HeatmapRow) (month : Z) : bool :=
  isBreakEven (rowCacUsd marketingSpend row) (cellUsd row month).

End LtvHeatmapCells.

Import LtvHeatmapCells.

(** A collation that never places two strings each after the other. *)
Definition consistentCollation (cmp : string -> string -> comparison) : Prop :=
  forall a b, cmp a b = Gt -> cmp b a <> Gt.

(** Row [a] is not after row [b] in the collation. *)
Definition notAfter (cmp : string -> string -> comparison) (a b : HeatmapRow) : Prop :=
  cmp (cohortMonth a) (cohortMonth b) <> Gt.

(* ===================================================================== *)
(** * lib/analytics/utils.ts: month keys and dates *)
(* ===================================================================== *)
Module UtilsDates.
Import Js Utils.

(** ** The calendar fields of a [Date]

    [new Date(year, monthIndex, day)] denotes a local calendar day; the model
    keeps the day and leaves the time of day and the time zone out, which
    [getFullYear] and [getMonth] of such a date do not depend on.  It is exact
    for the years whose every day a [Date] can hold (up to 275000 on either
    side of 0); past that range a [Date] is invalid. *)

Definition MAX_DATE_YEAR : Z := 275000.

Definition isLeapYear (y : Z) : bool :=
  (y mod 4 =? 0) && (negb (y mod 100 =? 0) || (y mod 400 =? 0)).

(** Days of the month with index [mi] in [0..11] of the year [y]. *)
Definition daysInMonth (y mi : Z) : Z :=
  if mi =? 1 then (if isLeapYear y then 29 else 28)
  else if (mi =? 3) || (mi =? 5) || (mi =? 8) || (mi =? 10) then 30
  else 31.

(** A day number outside its month carries into the neighbouring months. *)
Fixpoint settleDay (rounds : nat) (y mi d : Z) : Z * Z * Z :=
  match rounds with
  | O => (y, mi, d)
  | S rest =>
      if d <? 1 then
        let '(y', mi') := if mi =? 0 then (y - 1, 11) else (y, mi - 1) in
        settleDay rest y' mi' (d + daysInMonth y' mi')
      else if daysInMonth y mi <? d then
        let '(y', mi') := if mi =? 11 then (y + 1, 0) else (y, mi + 1) in
        settleDay rest y' mi' (d - daysInMonth y mi)
      else (y, mi, d)
  end.

(** Year, month index and day of [new Date(year, monthIndex, day)]: a year
    from 0 to 99 means 1900 + year, the month index carries into the year. *)
Definition civilFields (year monthIndex day : Z) : Z * Z * Z :=
  let yr := if (0 <=? year) && (year <=? 99) then 1900 + year else year in
  settleDay (S (Z.to_nat (Z.abs day))) (yr + monthIndex / 12) (monthIndex mod 12) day.

(** [date.getFullYear()] and [date.getMonth()]; [NaN] for an invalid date. *)
Definition getFullYear (d : JsDate) : option Z :=
  match d with
  | InvalidDate => None
  | DateOf year monthIndex day => Some (fst (fst (civilFields year monthIndex day)))
  end.

Definition getMonth (d : JsDate) : option Z :=
  match d with
  | InvalidDate => None
  | DateOf year monthIndex day => Some (snd (fst (civilFields year monthIndex day)))
  end.

(** [String(n)] of a number that may be [NaN]. *)
Definition numberOrNaNToString (n : option Z) : string :=
  match n with
  | Some z => numberToString z
  | None => "NaN"
  end.

Definition monthKeyFromDate (d : JsDate) : string :=
  (numberOrNaNToString (getFullYear d) ++ "-"
   ++ padStart 2 "0" (numberOrNaNToString (option_map (fun mi => mi + 1) (getMonth d))))%string.

Definition addMonths (d : JsDate) (months : Z) : JsDate :=
  match getFullYear d, getMonth d with
  | Some y, Some mi => DateOf y (mi + months) 1
  | _, _ => InvalidDate
  end.

End UtilsDates.

(* ===================================================================== *)
(** * components/dashboard/Dashboard.tsx: the observation boundary *)
(* ===================================================================== *)
Module DashboardBoundary.
Import Js Utils UtilsDates Dashboard.

(** [cohortZero.reduce((latest, row) =>
       row.cohortMonthKey > latest ? row.cohortMonthKey : latest, "")] *)
Definition latestKey (cohortZero : list RetentionRow.t) : string :=
  fold_left (fun latest row =>
               if strGt (RetentionRow.cohortMonthKey row) latest
               then RetentionRow.cohortMonthKey row else latest)
            cohortZero EmptyString.

Definition lastObservedRetentionMonth (retentionRows : list RetentionRow.t) : string :=
  let cohortZero := List.filter (fun row => RetentionRow.m row =? 0) retentionRows in
  match cohortZero with
  | [] => EmptyString
  | _ :: _ =>
      let lastKey := latestKey cohortZero in
      if negb (truthy lastKey) then EmptyString
      else
        let parts := List.map parseInt (split "-" lastKey) in
        match element 0 parts, element 1 parts with
        | Some year, Some month =>
            monthKeyFromDate (addMonths (DateOf year (month - 1) 1) 1)
        | _, _ => EmptyString
        end
  end.

End DashboardBoundary.

Import UtilsDates DashboardBoundary.

(** The key of the month [month] (1 = January) of the year [year], as
    [parseCohortMonthKey] and [monthKeyFromDate] write it. *)
Definition cohortKey (year month : Z) : string :=
  (numberToString year ++ "-" ++ padStart 2 "0" (numberToString month))%string.

(** The month after [month] of [year], as a (year, month) pair. *)
Definition nextMonth (year month : Z) : Z * Z :=
  if month =? 12 then (year + 1, 1) else (year, month + 1).

(** The embedded fallback retention rows of [lib/analytics/constants.ts]. *)
Definition FALLBACK_RETENTION_ROWS : list RetentionRow.t :=
  [ RetentionRow.mk (DateOf 2024 9 1) "2024-10" Overall "ALL" 0 Any All 3%float 1%float;
    RetentionRow.mk (DateOf 2024 9 1) "2024-10" Overall "ALL" 1 Any All 3%float 0.6667%float;
    RetentionRow.mk (DateOf 2024 10 1) "2024-11" Overall "ALL" 0 Any All 5%float 1%float;
    RetentionRow.mk (DateOf 2024 10 1) "2024-11" Overall "ALL" 1 Any All 5%float 0.6%float ].

(* ===================================================================== *)
(** * lib/analytics/utils.ts: text helpers *)
(* ===================================================================== *)
Module UtilsText.
Import Js Utils Dashboard.

(** [values.filter(Boolean)] on an array of [string | false | null |
    undefined]: [None] stands for [false], [null] and [undefined]; the empty
    string is falsy too. *)
Fixpoint filterBoolean (values : list (option string)) : list string :=
  match values with
  | [] => []
  | Some s :: rest => if truthy s then s :: filterBoolean rest else filterBoolean rest
  | None :: rest => filterBoolean rest
  end.

(** [parts.join(sep)] *)
Fixpoint join (sep : string) (parts : list string) : string :=
  match parts with
  | [] => EmptyString
  | [x] => x
  | x :: rest => (x ++ sep ++ join sep rest)%string
  end.

Definition classNames (values : list (option string)) : string :=
  join " " (filterBoolean values).

(** [isValidCohort(value)] for a value that is a string, or [null] /
    [undefined] ([None]); [String(value ?? "")] of other values is not
    modelled. *)
Definition isValidCohort (value : option string) : bool :=
  let cleaned := trim (match value with Some s => s | None => EmptyString end) in
  let datePart := hd EmptyString (split " " cleaned) in
  let segments := split "-" datePart in
  (2 <=? List.length segments)%nat
  && match nth_error segments 0 with
     | Some s => (String.length s =? 4)%nat
     | None => false
     end
  && match nth_error segments 1 with
     | Some s => (String.length s =? 2)%nat
     | None => false
     end.

(** [s.toLowerCase()] on the code units below 256: the letters A to Z and
    the accented capitals U+00C0 to U+00DE (the sign U+00D7 apart) move up by
    32, every other code unit stays. *)
Definition toLowerChar (c : ascii) : ascii :=
  if ((65 <=? codeOf c) && (codeOf c <=? 90))
     || ((192 <=? codeOf c) && (codeOf c <=? 222) && negb (codeOf c =? 215))
  then ascii_of_N (Z.to_N (codeOf c + 32)) else c.

Fixpoint toLowerCase (s : string) : string :=
  match s with
  | EmptyString => EmptyString
  | String c r => String (toLowerChar c) (toLowerCase r)
  end.

(** [s.replace(/\s+/g, "_")]; [inRun] tells that the previous character was
    white space, already replaced. *)
Fixpoint replaceSpaceRuns (inRun : bool) (s : string) : string :=
  match s with
  | EmptyString => EmptyString
  | String c r =>
      if isWhiteSpace c
      then (if inRun then replaceSpaceRuns true r else String "_" (replaceSpaceRuns true r))
      else String c (replaceSpaceRuns false r)
  end.

(** [normalizeMeasure(raw)] for a raw value that is a string, or [null] /
    [undefined] ([None]). *)
Definition normalizeMeasure (raw : option string) : Measure :=
  let value :=
    replaceSpaceRuns false
      (trim (toLowerCase (match raw with Some s => s | None => "revenue" end))) in
  if String.eqb value "gross_margin" || String.eqb value "gm" then Gm else Revenue.

End UtilsText.

Import UtilsText.

(* ===================================================================== *)
(** * components/dashboard/Dashboard.tsx: cell colours *)
(* ===================================================================== *)
Module DashboardColors.

Definition retentionCellColor (value : option float) : string :=
  match value with
  | None => "bg-gray-50 text-gray-400"
  | Some v =>
      if PrimFloat.leb 0.9%float v then "bg-sky-600 text-white"
      else if PrimFloat.leb 0.75%float v then "bg-sky-500 text-white"
      else if PrimFloat.leb 0.6%float v then "bg-sky-400 text-white"
      else if PrimFloat.leb 0.45%float v then "bg-sky-300"
      else if PrimFloat.leb 0.3%float v then "bg-sky-200"
      else if PrimFloat.leb 0.15%float v then "bg-sky-100"
      else "bg-sky-50"
  end.

Definition ltvCellColor (value : option float) (max : float) : string :=
  match value with
  | None => "bg-gray-50 text-gray-400"
  | Some v =>
      if PrimFloat.leb max 0%float then "bg-sky-50"
      else
        let ratio := (v / max)%float in
        if PrimFloat.leb 0.9%float ratio then "bg-sky-600 text-white"
        else if PrimFloat.leb 0.75%float ratio then "bg-sky-500 text-white"
        else if PrimFloat.leb 0.6%float ratio then "bg-sky-400 text-white"
        else if PrimFloat.leb 0.45%float ratio then "bg-sky-300"
        else if PrimFloat.leb 0.3%float ratio then "bg-sky-200"
        else if PrimFloat.leb 0.15%float ratio then "bg-sky-100"
        else "bg-sky-50"
  end.

End DashboardColors.

Import DashboardColors.

(** How dark a cell class is: 0 for the lightest blue (and for anything that
    is not a blue of the scale), 6 for the darkest. *)
Definition shadeRank (cls : string) : nat :=
  if String.eqb cls "bg-sky-600 text-white" then 6
  else if String.eqb cls "bg-sky-500 text-white" then 5
  else if String.eqb cls "bg-sky-400 text-white" then 4
  else if String.eqb cls "bg-sky-300" then 3
  else if String.eqb cls "bg-sky-200" then 2
  else if String.eqb cls "bg-sky-100" then 1
  else 0.

(** The running maximum that the loop of [buildLtvPivot] keeps, over the
    events of the rows it has seen. *)
Definition maxValueStep (mx : float) (e : Event) : float :=
  match evCell e with
  | Some (_, v) => if PrimFloat.ltb mx v then v else mx
  | None => mx
  end.

(* ===================================================================== *)
(** * components/dashboard/Dashboard.tsx: the choices offered by the filters *)
(* ===================================================================== *)
Module DashboardChoices.
Import Js Dashboard.

(** [Array.from(new Set(xs))]: the first occurrence of every value, in the
    order of the first occurrences. *)
Definition setAdd (seen : list string) (x : string) : list string :=
  if existsb (String.eqb x) seen then seen else seen ++ [x].

Definition arrayFromSet (xs : list string) : list string := fold_left setAdd xs [].

(** [xs.sort()] with the default comparison, the code-unit order of strings;
    the sort is stable. *)
Fixpoint sortedInsert (x : string) (l : list string) : list string :=
  match l with
  | [] => [x]
  | y :: rest => if strLt y x then y :: sortedInsert x rest else x :: l
  end.

Definition sortStrings (l : list string) : list string := foldr sortedInsert [] l.

Record UniqueValues : Type := {
  categories : list string;
  skus : list string;
  months : list string
}.

Definition uniqueRetention (retentionRows : list RetentionRow.t) (segment : Segment)
    : UniqueValues :=
  let segmentRows :=
    List.filter (fun row => bool_decide (RetentionRow.segment row = segment)) retentionRows in
  {| categories :=
       sortStrings
         (List.filter truthy
            (arrayFromSet
               (List.map RetentionRow.first_value
                  (List.filter (fun row => bool_decide (RetentionRow.dimension row = Category))
                     segmentRows))));
     skus :=
       sortStrings
         (List.filter truthy
            (arrayFromSet
               (List.map RetentionRow.first_value
                  (List.filter (fun row => bool_decide (RetentionRow.dimension row = Sku))
                     segmentRows))));
     months := sortStrings (arrayFromSet (List.map RetentionRow.cohortMonthKey segmentRows)) |}.

Definition uniqueLtv (ltvRows : list LtvRow.t) (ltvSegment : Segment) : UniqueValues :=
  let gmRows :=
    List.filter (fun row => bool_decide (LtvRow.measure row = Gm)
                            && bool_decide (LtvRow.segment row = ltvSegment)) ltvRows in
  {| categories :=
       sortStrings
         (List.filter truthy
            (arrayFromSet
               (List.map LtvRow.first_value
                  (List.filter (fun row => bool_decide (LtvRow.dimension row = Category))
                     gmRows))));
     skus :=
       sortStrings
         (List.filter truthy
            (arrayFromSet
               (List.map LtvRow.first_value
                  (List.filter (fun row => bool_decide (LtvRow.dimension row = Sku)) gmRows))));
     months := sortStrings (arrayFromSet (List.map LtvRow.cohortMonthKey gmRows)) |}.

End DashboardChoices.

Import DashboardChoices.

(** [a] is not after [b] in the code-unit order of strings. *)
Definition strNotAfter (a b : string) : Prop := String.compare a b <> Gt.

(** A list of choices: ascending, without repetition. *)
Definition ascendingChoices (l : list string) : Prop :=
  Sorted strNotAfter l /\ List.NoDup l.

(* ===================================================================== *)
(** * Properties *)
(* ===================================================================== *)

(** ** The insertion-ordered map *)

Lemma mapHas_false_iff k mp : mapHas k mp = false <-> mapGet k mp = None.
Proof.
  induction mp as [|[k' g] mp IH]; simpl; [tauto|].
  destruct (String.eqb k' k); simpl; [split; discriminate | exact IH].
Qed.

Lemma mapHas_true_iff k mp : mapHas k mp = true <-> exists g, mapGet k mp = Some g.
Proof.
  destruct (mapHas k mp) eqn:E.
  - split; [intros _|reflexivity].
    destruct (mapGet k mp) as [g|] eqn:G; [eauto|].
    apply mapHas_false_iff in G. congruence.
  - apply mapHas_false_iff in E. rewrite E. split; [discriminate | intros [g Hg]; discriminate].
Qed.

Lemma mapGet_mapSet k k' g mp :
  mapGet k' (mapSet k g mp) = if String.eqb k k' then Some g else mapGet k' mp.
Proof.
  induction mp as [|[k1 g1] mp IH]; simpl.
  - reflexivity.
  - destruct (String.eqb_spec k1 k) as [->|Hne]; simpl.
    + destruct (String.eqb k k'); reflexivity.
    + destruct (String.eqb_spec k1 k') as [->|Hne'].
      * destruct (String.eqb_spec k k'); [congruence | reflexivity].
      * exact IH.
Qed.

Lemma keys_mapSet k g mp :
  List.map fst (mapSet k g mp)
  = if mapHas k mp then List.map fst mp else List.map fst mp ++ [k].
Proof.
  induction mp as [|[k1 g1] mp IH]; simpl; [reflexivity|].
  destruct (String.eqb k1 k); simpl; [reflexivity|].
  rewrite IH. destruct (mapHas k mp); reflexivity.
Qed.

Lemma mapGet_In k g mp : mapGet k mp = Some g -> In (k, g) mp.
Proof.
  induction mp as [|[k1 g1] mp IH]; simpl; [discriminate|].
  destruct (String.eqb_spec k1 k) as [->|Hne].
  - intros [= ->]. now left.
  - intros H. right. now apply IH.
Qed.

Lemma In_mapGet k g mp :
  List.NoDup (List.map fst mp) -> In (k, g) mp -> mapGet k mp = Some g.
Proof.
  induction mp as [|[k1 g1] mp IH]; simpl; [tauto|].
  intros Hnd [Heq|Hin].
  - injection Heq as -> ->. now rewrite String.eqb_refl.
  - inversion Hnd as [|? ? Hnotin Hnd']; subst.
    destruct (String.eqb_spec k1 k) as [->|Hne].
    + exfalso. apply Hnotin. apply (in_map fst) in Hin. exact Hin.
    + now apply IH.
Qed.

Lemma mapHas_keys k mp : mapHas k mp = true <-> In k (List.map fst mp).
Proof.
  induction mp as [|[k1 g1] mp IH]; simpl; [split; [discriminate|tauto]|].
  destruct (String.eqb_spec k1 k) as [->|Hne]; simpl.
  - split; [now left | reflexivity].
  - rewrite IH. split; [now right | intros [H|H]; [congruence | exact H]].
Qed.

(** ** One round of the loop, per key *)

Lemma mapGet_ensureGroup k sz k' mp :
  mapGet k' (ensureGroup k sz mp)
  = match mapGet k' mp with
    | Some g => Some g
    | None => if String.eqb k k' then Some (freshGroup sz) else None
    end.
Proof.
  unfold ensureGroup. destruct (mapHas k mp) eqn:E; simpl.
  - apply mapHas_true_iff in E as [g Hg].
    destruct (mapGet k' mp) eqn:G; [reflexivity|].
    destruct (String.eqb_spec k k') as [->|]; [congruence | reflexivity].
  - rewrite mapGet_mapSet. apply mapHas_false_iff in E.
    destruct (String.eqb_spec k k') as [->|].
    + now rewrite E.
    + now destruct (mapGet k' mp).
Qed.

Lemma mapGet_record k m v k' mp :
  mapGet k' (record k m v mp)
  = if String.eqb k k' then applyCell (Some (m, v)) <$> mapGet k' mp else mapGet k' mp.
Proof.
  unfold record. destruct (mapGet k mp) as [g|] eqn:G.
  - rewrite mapGet_mapSet. destruct (String.eqb_spec k k') as [->|]; [|reflexivity].
    now rewrite G.
  - destruct (String.eqb_spec k k') as [->|]; [|reflexivity]. now rewrite G.
Qed.

Lemma mapGet_groupStep k mp e :
  mapGet k (groupStep mp e) = groupOfStep k (mapGet k mp) e.
Proof.
  unfold groupStep, groupOfStep.
  destruct (evCell e) as [[m v]|] eqn:C.
  - rewrite mapGet_record, mapGet_ensureGroup.
    destruct (String.eqb_spec (evKey e) k) as [Heq|Hne].
    + now destruct (mapGet k mp).
    + now destruct (mapGet k mp).
  - rewrite mapGet_ensureGroup.
    destruct (String.eqb_spec (evKey e) k) as [Heq|Hne].
    + now destruct (mapGet k mp).
    + now destruct (mapGet k mp).
Qed.

Lemma keys_record k m v mp : List.map fst (record k m v mp) = List.map fst mp.
Proof.
  unfold record. destruct (mapGet k mp) as [g|] eqn:G; [|reflexivity].
  rewrite keys_mapSet.
  assert (H : mapHas k mp = true) by (apply mapHas_true_iff; eauto).
  now rewrite H.
Qed.

Lemma keys_groupStep mp e :
  List.map fst (groupStep mp e)
  = if mapHas (evKey e) mp then List.map fst mp else List.map fst mp ++ [evKey e].
Proof.
  unfold groupStep.
  assert (H : List.map fst (ensureGroup (evKey e) (evSize e) mp)
              = if mapHas (evKey e) mp then List.map fst mp else List.map fst mp ++ [evKey e]).
  { unfold ensureGroup. destruct (mapHas (evKey e) mp) eqn:E; simpl; [reflexivity|].
    rewrite keys_mapSet. now rewrite E. }
  destruct (evCell e) as [[m v]|]; [rewrite keys_record|]; exact H.
Qed.

Lemma NoDup_groupStep mp e :
  List.NoDup (List.map fst mp) -> List.NoDup (List.map fst (groupStep mp e)).
Proof.
  intros Hnd. rewrite keys_groupStep.
  destruct (mapHas (evKey e) mp) eqn:E; [exact Hnd|].
  apply NoDup_ListNoDup. apply NoDup_ListNoDup in Hnd.
  apply NoDup_app. split; [exact Hnd|]. split.
  - intros x Hx Hx'. apply list_elem_of_In in Hx. apply list_elem_of_In in Hx'.
    destruct Hx' as [<-|[]].
    apply mapHas_keys in Hx. congruence.
  - apply NoDup_singleton.
Qed.

(** The loop leaves under every key the group that [groupOf] describes, and
    never two entries with one key. *)
Lemma mapGet_fold_groupStep k evs mp :
  mapGet k (fold_left groupStep evs mp) = fold_left (groupOfStep k) evs (mapGet k mp).
Proof.
  revert mp. induction evs as [|e evs IH]; intros mp; simpl; [reflexivity|].
  now rewrite IH, mapGet_groupStep.
Qed.

Lemma NoDup_fold_groupStep evs mp :
  List.NoDup (List.map fst mp) -> List.NoDup (List.map fst (fold_left groupStep evs mp)).
Proof.
  revert mp. induction evs as [|e evs IH]; intros mp H; simpl; [exact H|].
  apply IH. now apply NoDup_groupStep.
Qed.

Lemma In_groups_iff k g evs :
  In (k, g) (fold_left groupStep evs []) <-> groupOf k evs = Some g.
Proof.
  unfold groupOf. pose proof (mapGet_fold_groupStep k evs []) as H.
  simpl in H. rewrite <- H. split.
  - apply In_mapGet. apply NoDup_fold_groupStep. constructor.
  - apply mapGet_In.
Qed.

(** ** What a run leaves under one key *)

Lemma groupOf_snoc k evs e : groupOf k (evs ++ [e]) = groupOfStep k (groupOf k evs) e.
Proof. unfold groupOf. now rewrite fold_left_app. Qed.

Lemma find_snoc {A : Type} (p : A -> bool) (l : list A) (x : A) :
  find p (l ++ [x])
  = match find p l with
    | Some y => Some y
    | None => if p x then Some x else None
    end.
Proof.
  induction l as [|a l IH]; simpl; [reflexivity|].
  destruct (p a); [reflexivity | exact IH].
Qed.

(** Every recorded cell was written by an event of that key that was not
    skipped. *)
Lemma groupOf_cell k evs : forall g m v,
  groupOf k evs = Some g -> groupValues g !! m = Some v ->
  exists e, In e evs /\ evKey e = k /\ evCell e = Some (m, v).
Proof.
  induction evs as [|x evs IH] using rev_ind; intros g m v.
  - discriminate.
  - rewrite groupOf_snoc. unfold groupOfStep.
    assert (Hold : forall g0, groupOf k evs = Some g0 -> groupValues g0 !! m = Some v ->
               exists e, In e (evs ++ [x]) /\ evKey e = k /\ evCell e = Some (m, v)).
    { intros g0 H0 Hl. destruct (IH g0 m v H0 Hl) as (e & Hin & Hk & Hc).
      exists e. split; [apply in_or_app; now left | now split]. }
    assert (Hprev : forall g0,
               g0 = match groupOf k evs with Some g1 => g1 | None => freshGroup (evSize x) end ->
               groupValues g0 !! m = Some v ->
               exists e, In e (evs ++ [x]) /\ evKey e = k /\ evCell e = Some (m, v)).
    { intros g0 -> Hl. destruct (groupOf k evs) as [g1|] eqn:G.
      - now apply (Hold g1).
      - simpl in Hl. rewrite lookup_empty in Hl. discriminate. }
    destruct (String.eqb_spec (evKey x) k) as [Hk|Hne].
    + intros [= <-] Hl. destruct (evCell x) as [[m' v']|] eqn:C; simpl in Hl.
      * destruct (decide (m' = m)) as [->|Hm].
        -- rewrite lookup_insert_eq in Hl. injection Hl as ->.
           exists x. split; [apply in_or_app; right; now left | now split].
        -- rewrite lookup_insert_ne in Hl by exact Hm. now apply (Hprev _ eq_refl).
      * now apply (Hprev _ eq_refl).
    + intros H Hl. now apply (Hold g).
Qed.

(** A key has a group exactly when some event carries it, and the size of the
    group is the size carried by the first such event. *)
Lemma groupOf_first k evs :
  match groupOf k evs with
  | Some g => exists e, find (fun e => String.eqb (evKey e) k) evs = Some e /\ size g = evSize e
  | None => find (fun e => String.eqb (evKey e) k) evs = None
  end.
Proof.
  induction evs as [|x evs IH] using rev_ind; [reflexivity|].
  rewrite groupOf_snoc, find_snoc. unfold groupOfStep.
  destruct (groupOf k evs) as [g0|] eqn:G.
  - destruct IH as (e & Hf & Hs). rewrite Hf.
    destruct (String.eqb (evKey x) k).
    + exists e. split; [reflexivity|]. rewrite <- Hs. now destruct (evCell x) as [[? ?]|].
    + exists e. now split.
  - rewrite IH. destruct (String.eqb (evKey x) k); [|reflexivity].
    exists x. split; [reflexivity|]. now destruct (evCell x) as [[? ?]|].
Qed.

Lemma groupOf_size k evs g :
  groupOf k evs = Some g ->
  exists e, find (fun e => String.eqb (evKey e) k) evs = Some e /\ size g = evSize e.
Proof. intros H. pose proof (groupOf_first k evs) as F. now rewrite H in F. Qed.

Lemma groupOf_exists e evs : In e evs -> exists g, groupOf (evKey e) evs = Some g.
Proof.
  intros Hin. pose proof (groupOf_first (evKey e) evs) as F.
  destruct (groupOf (evKey e) evs) as [g|]; [eauto|].
  exfalso. apply (find_none _ _ F) in Hin. now rewrite String.eqb_refl in Hin.
Qed.

Lemma groupOf_key k evs g : groupOf k evs = Some g -> exists e, In e evs /\ evKey e = k.
Proof.
  intros H. destruct (groupOf_size _ _ _ H) as (e & Hf & _).
  apply find_some in Hf as [Hin Hk]. exists e. split; [exact Hin|].
  now apply String.eqb_eq.
Qed.

(** A key all of whose events are skipped keeps an empty mapping. *)
Lemma groupOf_all_skipped k evs g :
  groupOf k evs = Some g ->
  (forall e, In e evs -> evKey e = k -> evCell e = None) ->
  groupValues g = ∅.
Proof.
  intros H Hskip. apply map_empty. intros m.
  destruct (groupValues g !! m) as [v|] eqn:L; [|reflexivity].
  destruct (groupOf_cell _ _ _ _ _ H L) as (e & Hin & Hk & Hc).
  rewrite (Hskip e Hin Hk) in Hc. discriminate.
Qed.

(** Last write wins: a written cell stays until a later event of the same key
    writes the same offset. *)
Lemma groupOf_last_write k pre e post m v :
  evKey e = k -> evCell e = Some (m, v) ->
  (forall e' v', In e' post -> evKey e' = k -> evCell e' <> Some (m, v')) ->
  exists g, groupOf k (pre ++ e :: post) = Some g /\ groupValues g !! m = Some v.
Proof.
  intros Hk Hc. induction post as [|x post IH] using rev_ind; intros Hpost.
  - change (pre ++ [e]) with (pre ++ [e]). rewrite groupOf_snoc. unfold groupOfStep.
    rewrite Hk, String.eqb_refl, Hc. eexists. split; [reflexivity|].
    simpl. apply lookup_insert_eq.
  - destruct IH as (g & Hg & Hl).
    { intros e' v' Hin. apply Hpost. apply in_or_app. now left. }
    replace (pre ++ e :: post ++ [x]) with ((pre ++ e :: post) ++ [x])
      by (now rewrite <- app_assoc).
    rewrite groupOf_snoc, Hg. unfold groupOfStep.
    destruct (String.eqb_spec (evKey x) k) as [Hxk|Hne]; [|eauto].
    eexists. split; [reflexivity|].
    destruct (evCell x) as [[m' v']|] eqn:C; simpl; [|exact Hl].
    destruct (decide (m' = m)) as [->|Hm].
    + exfalso. apply (Hpost x v'); [apply in_or_app; right; now left | exact Hxk | exact C].
    + now rewrite lookup_insert_ne.
Qed.

(** ** The builders in terms of events *)

Lemma retentionStep_event lo mp row :
  retentionStep lo mp row = groupStep mp (retentionEvent lo row).
Proof.
  unfold retentionStep, groupStep, retentionEvent, ensureGroup, freshGroup; simpl.
  destruct (truthy lo); simpl; [|reflexivity].
  now destruct (RetentionRow.m row >? _).
Qed.

Lemma fold_retentionStep lo rs : forall mp,
  fold_left (retentionStep lo) rs mp = fold_left groupStep (List.map (retentionEvent lo) rs) mp.
Proof.
  induction rs as [|r rs IH]; intros mp; simpl; [reflexivity|].
  now rewrite IH, retentionStep_event.
Qed.

Lemma ltvStep_event lo mp mx row :
  fst (ltvStep lo (mp, mx) row) = groupStep mp (ltvEvent lo row).
Proof.
  unfold ltvStep, groupStep, ltvEvent, ensureGroup, freshGroup; simpl.
  destruct (truthy lo); simpl.
  - destruct (LtvRow.m row >? _); [reflexivity|].
    now destruct (PrimFloat.leb (LtvRow.ltv_per_user row) 0).
  - now destruct (PrimFloat.leb (LtvRow.ltv_per_user row) 0).
Qed.

Lemma fold_ltvStep lo rs : forall st,
  fst (fold_left (ltvStep lo) rs st) = fold_left groupStep (List.map (ltvEvent lo) rs) (fst st).
Proof.
  induction rs as [|r rs IH]; intros [mp mx]; simpl; [reflexivity|].
  rewrite IH. f_equal. apply ltvStep_event.
Qed.

(** ** Sorting keeps the rows *)

Lemma In_sortInsert cmp x y l : In y (sortInsert cmp x l) <-> y = x \/ In y l.
Proof.
  induction l as [|z l IH]; simpl.
  - split; [intros [H|[]]; now left | intros [H|[]]; now left].
  - destruct (cmp (cohortMonth x) (cohortMonth z)); simpl; rewrite ?IH;
      intuition congruence.
Qed.

Lemma In_sortByCohortMonth cmp y l : In y (sortByCohortMonth cmp l) <-> In y l.
Proof.
  induction l as [|x l IH]; simpl; [tauto|].
  rewrite In_sortInsert, IH. intuition congruence.
Qed.

Lemma In_heatmap_rows cmp out evs :
  In out (sortByCohortMonth cmp (List.map toHeatmapRow (fold_left groupStep evs [])))
  <-> exists g, groupOf (cohortMonth out) evs = Some g
                /\ cohortSize out = size g /\ values out = groupValues g.
Proof.
  rewrite In_sortByCohortMonth, in_map_iff. split.
  - intros ([k g] & <- & Hin). apply In_groups_iff in Hin. simpl. eauto.
  - intros (g & Hg & Hs & Hv). exists (cohortMonth out, g). split.
    + destruct out; simpl in *; subst; reflexivity.
    + now apply In_groups_iff.
Qed.

Lemma retention_rows_iff cmp rs f lo out :
  In out (rows (buildRetentionPivot cmp rs f lo))
  <-> exists g, groupOf (cohortMonth out) (retentionEvents rs f lo) = Some g
                /\ cohortSize out = size g /\ values out = groupValues g.
Proof.
  unfold buildRetentionPivot; simpl. rewrite fold_retentionStep. apply In_heatmap_rows.
Qed.

Lemma ltv_rows_iff cmp rs f lo out :
  In out (rows (buildLtvPivot cmp rs f lo))
  <-> exists g, groupOf (cohortMonth out) (ltvEvents rs f lo) = Some g
                /\ cohortSize out = size g /\ values out = groupValues g.
Proof.
  unfold buildLtvPivot.
  pose proof (fold_ltvStep lo (List.filter (ltvFilter f lo) rs) ([], 0%float)) as H.
  destruct (fold_left (ltvStep lo) (List.filter (ltvFilter f lo) rs) ([], 0%float))
    as [byMonth mx]; simpl in *.
  rewrite H. apply In_heatmap_rows.
Qed.

(* ===================================================================== *)
(** * Break-even scan and CAC *)
(* ===================================================================== *)

(** C1, as stated, fails: with [cac = 260] the scan does not return 2.  Every
    cell is converted with [aedToUsd] before it is compared, and the converted
    cells (about 27.2, 68.1 and 108.9) all stay below 260. *)
Lemma C1_unconverted_cac_not_reached :
  findBreakEvenMonth cumulativeExample (Some 260%float) 2 <> Some 2.
Proof. vm_compute. discriminate. Qed.

(** C1 (amended): on the cumulative values [{0: 100, 1: 250, 2: 400}] with
    [maxMonth = 2], [findBreakEvenMonth] returns 2 when [cac] is 260 converted
    like the cells ([aedToUsd 260]), returns undefined for [cac = 260] taken
    as it is, and returns undefined for [cac = 500]. *)
Theorem C1_break_even_on_converted_values :
  findBreakEvenMonth cumulativeExample (Some (aedToUsd 260%float)) 2 = Some 2
  /\ findBreakEvenMonth cumulativeExample (Some 260%float) 2 = None
  /\ findBreakEvenMonth cumulativeExample (Some 500%float) 2 = None.
Proof. repeat split; vm_compute; reflexivity. Qed.

(* ===================================================================== *)
(** * The filter predicate *)
(* ===================================================================== *)

Lemma ne_true_iff {A : Type} `{EqDecision A} (a b : A) : ne a b = true <-> a <> b.
Proof. unfold ne. rewrite negb_true_iff, bool_decide_eq_false. tauto. Qed.

Lemma ne_false_iff {A : Type} `{EqDecision A} (a b : A) : ne a b = false <-> a = b.
Proof. unfold ne. rewrite negb_false_iff, bool_decide_eq_true. tauto. Qed.

Lemma strNe_true_iff a b : strNe a b = true <-> a <> b.
Proof. unfold strNe. rewrite negb_true_iff. apply String.eqb_neq. Qed.

Lemma strNe_false_iff a b : strNe a b = false <-> a = b.
Proof. unfold strNe. rewrite negb_false_iff. apply String.eqb_eq. Qed.

Lemma truthy_false_iff s : truthy s = false <-> s = EmptyString.
Proof. destruct s; simpl; split; congruence. Qed.

Lemma truthy_true_iff s : truthy s = true <-> s <> EmptyString.
Proof. destruct s; simpl; split; congruence. Qed.

Lemma strLt_true_iff a b : strLt a b = true <-> String.compare a b = Lt.
Proof. unfold strLt, String.ltb. destruct (String.compare a b); split; congruence. Qed.

Lemma strLt_false_iff a b : strLt a b = false <-> String.compare a b <> Lt.
Proof. unfold strLt, String.ltb. destruct (String.compare a b); split; congruence. Qed.

Lemma strGt_true_iff a b : strGt a b = true <-> String.compare a b = Gt.
Proof.
  unfold strGt, String.ltb. rewrite (String.compare_antisym a b).
  destruct (String.compare b a); simpl; split; congruence.
Qed.

Lemma strGt_false_iff a b : strGt a b = false <-> String.compare a b <> Gt.
Proof.
  unfold strGt, String.ltb. rewrite (String.compare_antisym a b).
  destruct (String.compare b a); simpl; split; congruence.
Qed.

Lemma strGe_true_iff a b : strGe a b = true <-> String.compare a b <> Lt.
Proof. unfold strGe. rewrite negb_true_iff. apply strLt_false_iff. Qed.

Lemma strGe_false_iff a b : strGe a b = false <-> String.compare a b = Lt.
Proof. unfold strGe. rewrite negb_false_iff. apply strLt_true_iff. Qed.

Lemma if_false_else (c x : bool) : (if c then false else x) = (negb c && x)%bool.
Proof. now destruct c. Qed.

Lemma guard_value_iff d rv cv :
  (ne d Overall && strNe rv cv)%bool = false <-> (d <> Overall -> rv = cv).
Proof.
  rewrite andb_false_iff, ne_false_iff, strNe_false_iff.
  destruct (decide (d = Overall)); tauto.
Qed.

Lemma guard_all_iff d rv :
  (bool_decide (d = Overall) && strNe rv "ALL")%bool = false <-> (d = Overall -> rv = "ALL").
Proof.
  rewrite andb_false_iff, bool_decide_eq_false, strNe_false_iff.
  destruct (decide (d = Overall)); tauto.
Qed.

Lemma guard_start_iff k s :
  (truthy s && strLt k s)%bool = false <-> (s = EmptyString \/ String.compare k s <> Lt).
Proof. now rewrite andb_false_iff, truthy_false_iff, strLt_false_iff. Qed.

Lemma guard_end_iff k e :
  (truthy e && strGt k e)%bool = false <-> (e = EmptyString \/ String.compare k e <> Gt).
Proof. now rewrite andb_false_iff, truthy_false_iff, strGt_false_iff. Qed.

Lemma guard_boundary_iff k lo :
  (truthy lo && strGe k lo)%bool = false <-> beforeBoundary k lo.
Proof. unfold beforeBoundary. now rewrite andb_false_iff, truthy_false_iff, strGe_false_iff. Qed.

Lemma retentionFilter_iff f row :
  retentionFilter f row = true <-> retentionCriteria f row.
Proof.
  unfold retentionFilter, retentionCriteria, matchesDimensionValue, keyInRange.
  rewrite !if_false_else, !andb_true_iff, !negb_true_iff, !ne_false_iff,
    guard_value_iff, guard_all_iff, guard_start_iff, guard_end_iff.
  tauto.
Qed.

Lemma ltvFilter_iff f lo row :
  ltvFilter f lo row = true
  <-> ltvCriteria f row /\ beforeBoundary (LtvRow.cohortMonthKey row) lo.
Proof.
  unfold ltvFilter, ltvCriteria, matchesDimensionValue, keyInRange.
  rewrite !if_false_else, !andb_true_iff, !negb_true_iff, !ne_false_iff,
    guard_value_iff, guard_all_iff, guard_start_iff, guard_end_iff, guard_boundary_iff.
  tauto.
Qed.

(** C4, as stated, fails for the LTV builder: a row that meets every listed
    criterion is still left out of the filtered set when its cohort month is
    not before the observation boundary. *)
Lemma C4_ltv_row_meets_criteria_but_is_filtered_out :
  ~ (forall rs f lo row, In row rs ->
       (In row (List.filter (ltvFilter f lo) rs) <-> ltvCriteria f row)).
Proof.
  intros H.
  specialize (H [ltvRowAtBoundary] ltvFiltersExample "2025-03" ltvRowAtBoundary
                (or_introl eq_refl)).
  assert (Hc : ltvCriteria ltvFiltersExample ltvRowAtBoundary).
  { unfold ltvCriteria, matchesDimensionValue, keyInRange; simpl.
    repeat split; try reflexivity; try (now left); congruence. }
  apply H in Hc. vm_compute in Hc. exact Hc.
Qed.

(** C4 (amended): a retention row enters the filtered set exactly when it
    meets the listed criteria (segment, dimension, dimension value or "ALL"
    for overall, metric, start and end month); an LTV row enters it exactly
    when it meets them, its measure equals the selected measure, and moreover
    the observation boundary is empty or the row's cohort month is strictly
    before it. *)
Theorem C4_filtered_set_membership :
  (forall rs f row, In row rs ->
     (In row (List.filter (retentionFilter f) rs) <-> retentionCriteria f row))
  /\ (forall rs f lo row, In row rs ->
        (In row (List.filter (ltvFilter f lo) rs)
         <-> ltvCriteria f row /\ beforeBoundary (LtvRow.cohortMonthKey row) lo)).
Proof.
  split.
  - intros rs f row Hin. rewrite filter_In, retentionFilter_iff. tauto.
  - intros rs f lo row Hin. rewrite filter_In, ltvFilter_iff. tauto.
Qed.

(** C4 on one retention row and one LTV row before the boundary. *)
Lemma C4_witness :
  (In retentionRowAtBoundary
      (List.filter (retentionFilter retentionFiltersExample) [retentionRowAtBoundary])
   <-> retentionCriteria retentionFiltersExample retentionRowAtBoundary)
  /\ (In ltvRowAtBoundary
        (List.filter (ltvFilter ltvFiltersExample "2025-04") [ltvRowAtBoundary])
      <-> ltvCriteria ltvFiltersExample ltvRowAtBoundary
          /\ beforeBoundary (LtvRow.cohortMonthKey ltvRowAtBoundary) "2025-04").
Proof.
  split.
  - apply (proj1 C4_filtered_set_membership). simpl. left. reflexivity.
  - apply (proj2 C4_filtered_set_membership). simpl. left. reflexivity.
Defined.

(* ===================================================================== *)
(** * The pivots *)
(* ===================================================================== *)

Lemma monthsDiff_nonneg a b : 0 <= monthsDiff a b.
Proof.
  unfold monthsDiff.
  destruct (negb (truthy a) || negb (truthy b))%bool; [lia|].
  repeat match goal with |- context [match ?x with Some _ => _ | None => _ end] =>
    destruct x end; lia.
Qed.

Lemma monthsDiff_same k : monthsDiff k k = 0.
Proof.
  unfold monthsDiff.
  destruct (negb (truthy k) || negb (truthy k))%bool; [reflexivity|].
  destruct (element 0 _); [|reflexivity].
  destruct (element 1 _); [|reflexivity]. lia.
Qed.

(** A row that wrote a cell was inside the window, and for LTV had a positive
    value. *)
Lemma retentionEvent_cell lo r m v :
  evCell (retentionEvent lo r) = Some (m, v) ->
  m = RetentionRow.m r /\ v = RetentionRow.retention r
  /\ (lo <> EmptyString -> m <= monthsDiff (RetentionRow.cohortMonthKey r) lo).
Proof.
  unfold retentionEvent; simpl.
  destruct (truthy lo) eqn:T; simpl.
  - destruct (RetentionRow.m r >? _) eqn:G; [discriminate|].
    intros [= <- <-]. repeat split. intros _. lia.
  - intros [= <- <-]. repeat split. apply truthy_false_iff in T. congruence.
Qed.

Lemma ltvEvent_cell lo r m v :
  evCell (ltvEvent lo r) = Some (m, v) ->
  m = LtvRow.m r /\ v = LtvRow.ltv_per_user r
  /\ PrimFloat.leb v 0%float = false
  /\ (lo <> EmptyString -> m <= monthsDiff (LtvRow.cohortMonthKey r) lo).
Proof.
  unfold ltvEvent; simpl.
  destruct (truthy lo) eqn:T; simpl.
  - destruct (LtvRow.m r >? _) eqn:G; [discriminate|].
    destruct (PrimFloat.leb (LtvRow.ltv_per_user r) 0) eqn:P; [discriminate|].
    intros [= <- <-]. repeat split; [exact P|]. intros _. lia.
  - destruct (PrimFloat.leb (LtvRow.ltv_per_user r) 0) eqn:P; [discriminate|].
    intros [= <- <-]. repeat split; [exact P|]. apply truthy_false_iff in T. congruence.
Qed.

Lemma retentionEvent_skipped lo r : retentionSkipped lo r -> evCell (retentionEvent lo r) = None.
Proof.
  intros [Hlo Hm]. unfold retentionEvent; simpl.
  apply truthy_true_iff in Hlo. rewrite Hlo; simpl.
  destruct (RetentionRow.m r >? _) eqn:G; [reflexivity | lia].
Qed.

Lemma ltvEvent_skipped lo r : ltvSkipped lo r -> evCell (ltvEvent lo r) = None.
Proof.
  intros [[Hlo Hm]|Hv]; unfold ltvEvent; simpl.
  - apply truthy_true_iff in Hlo. rewrite Hlo; simpl.
    destruct (LtvRow.m r >? _) eqn:G; [reflexivity | lia].
  - rewrite Hv. now destruct (truthy lo && _)%bool.
Qed.

(** The source row behind a recorded cell. *)
Lemma retention_cell_source cmp rs f lo out m v :
  In out (rows (buildRetentionPivot cmp rs f lo)) -> values out !! m = Some v ->
  exists r, In r (List.filter (retentionFilter f) rs)
            /\ RetentionRow.cohortMonthKey r = cohortMonth out
            /\ RetentionRow.m r = m /\ RetentionRow.retention r = v
            /\ (lo <> EmptyString -> m <= monthsDiff (cohortMonth out) lo).
Proof.
  intros Hin Hl. apply retention_rows_iff in Hin as (g & Hg & _ & Hv).
  rewrite Hv in Hl. destruct (groupOf_cell _ _ _ _ _ Hg Hl) as (e & He & Hk & Hc).
  apply in_map_iff in He as (r & <- & Hr).
  apply retentionEvent_cell in Hc as (-> & -> & Hb). simpl in Hk.
  exists r. rewrite <- Hk. now repeat split.
Qed.

Lemma ltv_cell_source cmp rs f lo out m v :
  In out (rows (buildLtvPivot cmp rs f lo)) -> values out !! m = Some v ->
  exists r, In r (List.filter (ltvFilter f lo) rs)
            /\ LtvRow.cohortMonthKey r = cohortMonth out
            /\ LtvRow.m r = m /\ LtvRow.ltv_per_user r = v
            /\ PrimFloat.leb v 0%float = false
            /\ (lo <> EmptyString -> m <= monthsDiff (cohortMonth out) lo).
Proof.
  intros Hin Hl. apply ltv_rows_iff in Hin as (g & Hg & _ & Hv).
  rewrite Hv in Hl. destruct (groupOf_cell _ _ _ _ _ Hg Hl) as (e & He & Hk & Hc).
  apply in_map_iff in He as (r & <- & Hr).
  apply ltvEvent_cell in Hc as (-> & -> & Hp & Hb). simpl in Hk.
  exists r. rewrite <- Hk. now repeat split.
Qed.

(** C3: with a non-empty [lastObservedMonth], every offset [m] recorded in a
    row of the retention pivot or of the LTV pivot is at most
    [monthsDiff(cohortMonth, lastObservedMonth)]; each recorded cell is the
    cell of a filtered row of that cohort whose offset is within that bound,
    so a row beyond the bound is never recorded. *)
Theorem C3_recorded_offsets_within_window :
  forall cmp lo, lo <> EmptyString ->
    (forall rs f out m v,
        In out (rows (buildRetentionPivot cmp rs f lo)) -> values out !! m = Some v ->
        m <= monthsDiff (cohortMonth out) lo
        /\ exists r, In r (List.filter (retentionFilter f) rs)
                     /\ RetentionRow.cohortMonthKey r = cohortMonth out
                     /\ RetentionRow.m r = m /\ RetentionRow.retention r = v
                     /\ RetentionRow.m r <= monthsDiff (RetentionRow.cohortMonthKey r) lo)
    /\ (forall rs f out m v,
           In out (rows (buildLtvPivot cmp rs f lo)) -> values out !! m = Some v ->
           m <= monthsDiff (cohortMonth out) lo
           /\ exists r, In r (List.filter (ltvFilter f lo) rs)
                        /\ LtvRow.cohortMonthKey r = cohortMonth out
                        /\ LtvRow.m r = m /\ LtvRow.ltv_per_user r = v
                        /\ LtvRow.m r <= monthsDiff (LtvRow.cohortMonthKey r) lo).
Proof.
  intros cmp lo Hlo. split.
  - intros rs f out m v Hin Hl.
    destruct (retention_cell_source _ _ _ _ _ _ _ Hin Hl) as (r & Hr & Hk & Hm & Hv & Hb).
    split; [now apply Hb|]. exists r. rewrite Hk, Hm. repeat split; auto.
  - intros rs f out m v Hin Hl.
    destruct (ltv_cell_source _ _ _ _ _ _ _ Hin Hl) as (r & Hr & Hk & Hm & Hv & _ & Hb).
    split; [now apply Hb|]. exists r. rewrite Hk, Hm. repeat split; auto.
Qed.

(** C3 on the scenario rows (boundary "2025-03") and on the fallback LTV rows
    (boundary "2024-12"). *)
Lemma C3_witness :
  (1 <= monthsDiff (cohortMonth scenarioOutRow) "2025-03"
   /\ exists r, In r (List.filter (retentionFilter retentionFiltersExample) scenarioRows)
                /\ RetentionRow.cohortMonthKey r = cohortMonth scenarioOutRow
                /\ RetentionRow.m r = 1 /\ RetentionRow.retention r = 0.7%float
                /\ RetentionRow.m r <= monthsDiff (RetentionRow.cohortMonthKey r) "2025-03")
  /\ (1 <= monthsDiff (cohortMonth fallbackLtvOutRow) "2024-12"
      /\ exists r, In r (List.filter (ltvFilter ltvFiltersExample "2024-12") FALLBACK_LTV_ROWS)
                   /\ LtvRow.cohortMonthKey r = cohortMonth fallbackLtvOutRow
                   /\ LtvRow.m r = 1 /\ LtvRow.ltv_per_user r = 700%float
                   /\ LtvRow.m r <= monthsDiff (LtvRow.cohortMonthKey r) "2024-12").
Proof.
  split.
  - apply (proj1 (C3_recorded_offsets_within_window String.compare "2025-03"
                    ltac:(discriminate)) scenarioRows retentionFiltersExample).
    + vm_compute. left. reflexivity.
    + vm_compute. reflexivity.
  - apply (proj2 (C3_recorded_offsets_within_window String.compare "2024-12"
                    ltac:(discriminate)) FALLBACK_LTV_ROWS ltvFiltersExample).
    + vm_compute. left. reflexivity.
    + vm_compute. reflexivity.
Defined.

Lemma find_map {A B : Type} (p : B -> bool) (f : A -> B) (l : list A) :
  find p (List.map f l) = option_map f (find (fun a => p (f a)) l).
Proof.
  induction l as [|a l IH]; simpl; [reflexivity|].
  destruct (p (f a)); [reflexivity | exact IH].
Qed.

Lemma retention_row_size cmp rs f lo out :
  In out (rows (buildRetentionPivot cmp rs f lo)) ->
  exists r, firstRetentionRow (cohortMonth out) (List.filter (retentionFilter f) rs) = Some r
            /\ cohortSize out = RetentionRow.cohort_size r.
Proof.
  intros Hin. apply retention_rows_iff in Hin as (g & Hg & Hs & _).
  destruct (groupOf_size _ _ _ Hg) as (e & Hf & Hsz).
  unfold retentionEvents in Hf. rewrite find_map in Hf.
  unfold firstRetentionRow. simpl in Hf.
  destruct (find _ _) as [r|]; [|discriminate].
  injection Hf as <-. exists r. split; [reflexivity|]. now rewrite Hs, Hsz.
Qed.

Lemma ltv_row_size cmp rs f lo out :
  In out (rows (buildLtvPivot cmp rs f lo)) ->
  exists r, firstLtvRow (cohortMonth out) (List.filter (ltvFilter f lo) rs) = Some r
            /\ cohortSize out = LtvRow.cohort_size r.
Proof.
  intros Hin. apply ltv_rows_iff in Hin as (g & Hg & Hs & _).
  destruct (groupOf_size _ _ _ Hg) as (e & Hf & Hsz).
  unfold ltvEvents in Hf. rewrite find_map in Hf.
  unfold firstLtvRow. simpl in Hf.
  destruct (find _ _) as [r|]; [|discriminate].
  injection Hf as <-. exists r. split; [reflexivity|]. now rewrite Hs, Hsz.
Qed.

(** Every cohort with a filtered row has an output row. *)
Lemma retention_row_exists cmp rs f lo r :
  In r (List.filter (retentionFilter f) rs) ->
  exists out, In out (rows (buildRetentionPivot cmp rs f lo))
              /\ cohortMonth out = RetentionRow.cohortMonthKey r.
Proof.
  intros Hr.
  assert (He : In (retentionEvent lo r) (retentionEvents rs f lo))
    by (now apply in_map).
  destruct (groupOf_exists _ _ He) as (g & Hg). simpl in Hg.
  exists {| cohortMonth := RetentionRow.cohortMonthKey r; cohortSize := size g;
            values := groupValues g |}.
  split; [|reflexivity]. apply retention_rows_iff. simpl. eauto.
Qed.

Lemma ltv_row_exists cmp rs f lo r :
  In r (List.filter (ltvFilter f lo) rs) ->
  exists out, In out (rows (buildLtvPivot cmp rs f lo))
              /\ cohortMonth out = LtvRow.cohortMonthKey r.
Proof.
  intros Hr.
  assert (He : In (ltvEvent lo r) (ltvEvents rs f lo)) by (now apply in_map).
  destruct (groupOf_exists _ _ He) as (g & Hg). simpl in Hg.
  exists {| cohortMonth := LtvRow.cohortMonthKey r; cohortSize := size g;
            values := groupValues g |}.
  split; [|reflexivity]. apply ltv_rows_iff. simpl. eauto.
Qed.

(** C9: in both builders every cohort month that has a filtered row gets an
    output row, and the [cohortSize] of an output row is the [cohort_size] of
    the first filtered row, in input order, that carries the row's cohort
    month; the sizes of the later rows of that cohort play no part (shown for
    each builder on two rows of one cohort with different sizes). *)
Theorem C9_cohort_size_of_first_row :
  (forall cmp rs f lo out,
      In out (rows (buildRetentionPivot cmp rs f lo)) ->
      exists r, firstRetentionRow (cohortMonth out) (List.filter (retentionFilter f) rs) = Some r
                /\ cohortSize out = RetentionRow.cohort_size r)
  /\ (forall cmp rs f lo out,
         In out (rows (buildLtvPivot cmp rs f lo)) ->
         exists r, firstLtvRow (cohortMonth out) (List.filter (ltvFilter f lo) rs) = Some r
                   /\ cohortSize out = LtvRow.cohort_size r)
  /\ (forall cmp rs f lo r,
         In r (List.filter (retentionFilter f) rs) ->
         exists out r1,
           In out (rows (buildRetentionPivot cmp rs f lo))
           /\ cohortMonth out = RetentionRow.cohortMonthKey r
           /\ firstRetentionRow (RetentionRow.cohortMonthKey r)
                (List.filter (retentionFilter f) rs) = Some r1
           /\ cohortSize out = RetentionRow.cohort_size r1)
  /\ (forall cmp rs f lo r,
         In r (List.filter (ltvFilter f lo) rs) ->
         exists out r1,
           In out (rows (buildLtvPivot cmp rs f lo))
           /\ cohortMonth out = LtvRow.cohortMonthKey r
           /\ firstLtvRow (LtvRow.cohortMonthKey r)
                (List.filter (ltvFilter f lo) rs) = Some r1
           /\ cohortSize out = LtvRow.cohort_size r1)
  /\ (forall cmp,
         List.map cohortSize
           (rows (buildRetentionPivot cmp conflictingSizeRows retentionFiltersExample "2025-03"))
         = [10%float])
  /\ (forall cmp,
         List.map cohortSize
           (rows (buildLtvPivot cmp conflictingSizeLtvRows ltvFiltersExample "2024-12"))
         = [3%float]).
Proof.
  split; [|split; [|split; [|split; [|split]]]].
  - intros. now apply retention_row_size with (cmp := cmp) (lo := lo).
  - intros. now apply ltv_row_size with (cmp := cmp).
  - intros cmp rs f lo r Hr.
    destruct (retention_row_exists cmp rs f lo r Hr) as (out & Hout & Hk).
    destruct (retention_row_size cmp rs f lo out Hout) as (r1 & Hfirst & Hsize).
    exists out, r1. rewrite <- Hk. auto.
  - intros cmp rs f lo r Hr.
    destruct (ltv_row_exists cmp rs f lo r Hr) as (out & Hout & Hk).
    destruct (ltv_row_size cmp rs f lo out Hout) as (r1 & Hfirst & Hsize).
    exists out, r1. rewrite <- Hk. auto.
  - intros cmp. vm_compute. reflexivity.
  - intros cmp. vm_compute. reflexivity.
Qed.

(** C9 on the two retention rows with sizes 10 and 99 and on the two LTV rows
    with sizes 3 and 77: the output rows carry 10 and 3. *)
Lemma C9_witness :
  (exists out r1,
      In out (rows (buildRetentionPivot String.compare conflictingSizeRows
                      retentionFiltersExample "2025-03"))
      /\ cohortMonth out = "2025-01"
      /\ firstRetentionRow "2025-01"
           (List.filter (retentionFilter retentionFiltersExample) conflictingSizeRows)
         = Some r1
      /\ cohortSize out = 10%float)
  /\ (exists out r1,
         In out (rows (buildLtvPivot String.compare conflictingSizeLtvRows
                         ltvFiltersExample "2024-12"))
         /\ cohortMonth out = "2024-10"
         /\ firstLtvRow "2024-10"
              (List.filter (ltvFilter ltvFiltersExample "2024-12") conflictingSizeLtvRows)
            = Some r1
         /\ cohortSize out = 3%float).
Proof.
  pose proof C9_cohort_size_of_first_row as (_ & _ & Hret & Hltv & _).
  split.
  - destruct (Hret String.compare conflictingSizeRows retentionFiltersExample "2025-03"
                (scenarioRow 1 99%float 0.7%float))
      as (out & r1 & Hin & Hk & Hfirst & Hsize).
    { vm_compute. right. left. reflexivity. }
    exists out, r1. split; [exact Hin|]. split; [exact Hk|]. split; [exact Hfirst|].
    rewrite Hsize. vm_compute in Hfirst. injection Hfirst as <-. reflexivity.
  - destruct (Hltv String.compare conflictingSizeLtvRows ltvFiltersExample "2024-12"
                (conflictingSizeLtvRow 1 77%float 700%float))
      as (out & r1 & Hin & Hk & Hfirst & Hsize).
    { vm_compute. right. left. reflexivity. }
    exists out, r1. split; [exact Hin|]. split; [exact Hk|]. split; [exact Hfirst|].
    rewrite Hsize. vm_compute in Hfirst. injection Hfirst as <-. reflexivity.
Defined.

(** No two output rows carry the same cohort month. *)
Lemma heatmap_row_unique cmp evs out1 out2 :
  In out1 (sortByCohortMonth cmp (List.map toHeatmapRow (fold_left groupStep evs []))) ->
  In out2 (sortByCohortMonth cmp (List.map toHeatmapRow (fold_left groupStep evs []))) ->
  cohortMonth out1 = cohortMonth out2 -> out1 = out2.
Proof.
  intros H1 H2 Hk.
  apply In_heatmap_rows in H1 as (g1 & Hg1 & Hs1 & Hv1).
  apply In_heatmap_rows in H2 as (g2 & Hg2 & Hs2 & Hv2).
  rewrite Hk in Hg1. rewrite Hg1 in Hg2. injection Hg2 as ->.
  destruct out1, out2; simpl in *; congruence.
Qed.

(** C10: both builders create the group of a cohort at its first filtered
    row, before the truncation skip and (for LTV) the non-positive-value skip:
    every cohort that has a filtered row has an output row, with the cohort
    size of its first filtered row, and when every filtered row of the cohort
    is skipped that output row has an empty [values] mapping. *)
Theorem C10_skipped_cohort_keeps_empty_row :
  (forall cmp rs f lo r,
      In r (List.filter (retentionFilter f) rs) ->
      exists out, In out (rows (buildRetentionPivot cmp rs f lo))
                  /\ cohortMonth out = RetentionRow.cohortMonthKey r
                  /\ (exists r1, firstRetentionRow (RetentionRow.cohortMonthKey r)
                                   (List.filter (retentionFilter f) rs) = Some r1
                                 /\ cohortSize out = RetentionRow.cohort_size r1)
                  /\ ((forall r', In r' (List.filter (retentionFilter f) rs) ->
                         RetentionRow.cohortMonthKey r' = RetentionRow.cohortMonthKey r ->
                         retentionSkipped lo r') ->
                      values out = ∅))
  /\ (forall cmp rs f lo r,
         In r (List.filter (ltvFilter f lo) rs) ->
         exists out, In out (rows (buildLtvPivot cmp rs f lo))
                     /\ cohortMonth out = LtvRow.cohortMonthKey r
                     /\ (exists r1, firstLtvRow (LtvRow.cohortMonthKey r)
                                      (List.filter (ltvFilter f lo) rs) = Some r1
                                    /\ cohortSize out = LtvRow.cohort_size r1)
                     /\ ((forall r', In r' (List.filter (ltvFilter f lo) rs) ->
                            LtvRow.cohortMonthKey r' = LtvRow.cohortMonthKey r ->
                            ltvSkipped lo r') ->
                         values out = ∅)).
Proof.
  split.
  - intros cmp rs f lo r Hr.
    destruct (retention_row_exists cmp rs f lo r Hr) as (out & Hout & Hk).
    exists out. split; [exact Hout|]. split; [exact Hk|]. split.
    + rewrite <- Hk. now apply retention_row_size with (cmp := cmp) (lo := lo).
    + intros Hskip. apply retention_rows_iff in Hout as (g & Hg & _ & Hv).
      rewrite Hv. apply (groupOf_all_skipped _ _ _ Hg).
      intros e He Hek. apply in_map_iff in He as (r' & <- & Hr').
      apply retentionEvent_skipped. apply Hskip; [exact Hr'|].
      simpl in Hek. congruence.
  - intros cmp rs f lo r Hr.
    destruct (ltv_row_exists cmp rs f lo r Hr) as (out & Hout & Hk).
    exists out. split; [exact Hout|]. split; [exact Hk|]. split.
    + rewrite <- Hk. now apply ltv_row_size with (cmp := cmp).
    + intros Hskip. apply ltv_rows_iff in Hout as (g & Hg & _ & Hv).
      rewrite Hv. apply (groupOf_all_skipped _ _ _ Hg).
      intros e He Hek. apply in_map_iff in He as (r' & <- & Hr').
      apply ltvEvent_skipped. apply Hskip; [exact Hr'|].
      simpl in Hek. congruence.
Qed.

(** C10 on a cohort whose only row lies beyond the window, and on an LTV
    cohort whose only value is 0. *)
Lemma C10_witness :
  (exists out, In out (rows (buildRetentionPivot String.compare truncatedRows
                               retentionFiltersExample "2025-03"))
               /\ cohortMonth out = "2025-01" /\ values out = ∅)
  /\ (exists out, In out (rows (buildLtvPivot String.compare nonPositiveLtvRows
                                  ltvFiltersExample "2024-12"))
                  /\ cohortMonth out = "2024-10" /\ values out = ∅).
Proof.
  split.
  - destruct (proj1 C10_skipped_cohort_keeps_empty_row String.compare truncatedRows
                retentionFiltersExample "2025-03" (scenarioRow 5 10%float 0.2%float))
      as (out & Hin & Hk & _ & Hempty).
    + vm_compute. left. reflexivity.
    + exists out. split; [exact Hin|]. split; [exact Hk|].
      apply Hempty. intros r' Hr' _. vm_compute in Hr'. destruct Hr' as [<-|[]].
      split; [discriminate | vm_compute; reflexivity].
  - destruct (proj2 C10_skipped_cohort_keeps_empty_row String.compare nonPositiveLtvRows
                ltvFiltersExample "2024-12"
                (LtvRow.mk "purchase" (DateOf 2024 9 1) "2024-10" Overall "ALL" 0 Any
                   Revenue All 3%float 0%float))
      as (out & Hin & Hk & _ & Hempty).
    + vm_compute. left. reflexivity.
    + exists out. split; [exact Hin|]. split; [exact Hk|].
      apply Hempty. intros r' Hr' _. vm_compute in Hr'. destruct Hr' as [<-|[]].
      right. vm_compute. reflexivity.
Defined.

(** ** The column count *)

Lemma mathMax0_nonneg l : 0 <= mathMax0 l.
Proof. induction l as [|a l IH]; simpl; lia. Qed.

Lemma mathMax0_upper l y : In y l -> y <= mathMax0 l.
Proof.
  induction l as [|a l IH]; simpl; [tauto|].
  intros [->|H]; [lia|]. apply IH in H. fold (mathMax0 l). lia.
Qed.

Lemma mathMax0_In l : l <> [] -> (forall y, In y l -> 0 <= y) -> In (mathMax0 l) l.
Proof.
  induction l as [|a l IH]; [congruence|]. intros _ Hpos. simpl.
  fold (mathMax0 l).
  destruct l as [|b l].
  - left. simpl. specialize (Hpos a (or_introl eq_refl)). lia.
  - destruct (Z.max_spec a (mathMax0 (b :: l))) as [[_ ->]|[_ ->]].
    + right. apply IH; [discriminate|]. intros y Hy. apply Hpos. now right.
    + now left.
Qed.

Lemma mathMax0_largest l :
  l <> [] -> (forall y, In y l -> 0 <= y) -> largestOf (mathMax0 l) l.
Proof. intros Hne Hpos. split; [now apply mathMax0_In | apply mathMax0_upper]. Qed.

(** C6: [maxMonth] is 0 when no row passes the filter; with an empty
    [lastObservedMonth] it is the largest offset [m] of the filtered rows
    (offsets being non-negative, as the data model has them); with a non-empty
    [lastObservedMonth] it is the largest
    [monthsDiff(cohortMonthKey, lastObservedMonth)] over the filtered rows,
    which can exceed every recorded offset: cohort "2025-01" with offsets 0
    and 1 and boundary "2025-03" gives one row with values [{0: 1.0, 1: 0.7}]
    and [maxMonth = 2]. *)
Theorem C6_maxMonth :
  (forall cmp rs f lo,
      let filtered := List.filter (retentionFilter f) rs in
      let pivot := buildRetentionPivot cmp rs f lo in
      (filtered = [] -> maxMonth pivot = 0)
      /\ (filtered <> [] -> lo = EmptyString ->
          (forall r, In r filtered -> 0 <= RetentionRow.m r) ->
          largestOf (maxMonth pivot) (List.map RetentionRow.m filtered))
      /\ (filtered <> [] -> lo <> EmptyString ->
          largestOf (maxMonth pivot)
            (List.map (fun r => monthsDiff (RetentionRow.cohortMonthKey r) lo) filtered)))
  /\ (forall cmp rs f lo,
         let filtered := List.filter (ltvFilter f lo) rs in
         let pivot := buildLtvPivot cmp rs f lo in
         (filtered = [] -> maxMonth pivot = 0)
         /\ (filtered <> [] -> lo = EmptyString ->
             (forall r, In r filtered -> 0 <= LtvRow.m r) ->
             largestOf (maxMonth pivot) (List.map LtvRow.m filtered))
         /\ (filtered <> [] -> lo <> EmptyString ->
             largestOf (maxMonth pivot)
               (List.map (fun r => monthsDiff (LtvRow.cohortMonthKey r) lo) filtered)))
  /\ (forall cmp,
         let pivot := buildRetentionPivot cmp scenarioRows retentionFiltersExample "2025-03" in
         rows pivot = [scenarioOutRow] /\ maxMonth pivot = 2
         /\ monthsDiff "2025-01" "2025-03" = 2
         /\ values scenarioOutRow !! 2 = None).
Proof.
  split; [|split].
  - intros cmp rs f lo filtered pivot. subst pivot. unfold buildRetentionPivot; simpl.
    fold filtered. split; [|split].
    + intros ->. reflexivity.
    + intros Hne -> Hpos. destruct filtered as [|r0 rest] eqn:E; [congruence|].
      cbn [truthy]. apply mathMax0_largest; [discriminate|].
      intros y Hy. apply in_map_iff in Hy as (r & <- & Hr). now apply Hpos.
    + intros Hne Hlo. destruct filtered as [|r0 rest] eqn:E; [congruence|].
      apply truthy_true_iff in Hlo. rewrite Hlo.
      apply mathMax0_largest; [discriminate|].
      intros y Hy. apply in_map_iff in Hy as (r & <- & Hr). apply monthsDiff_nonneg.
  - intros cmp rs f lo filtered pivot. subst pivot. unfold buildLtvPivot.
    fold filtered.
    destruct (fold_left (ltvStep lo) filtered ([], 0%float)) as [byMonth mx]; simpl.
    split; [|split].
    + intros ->. reflexivity.
    + intros Hne -> Hpos. destruct filtered as [|r0 rest] eqn:E; [congruence|].
      cbn [truthy]. apply mathMax0_largest; [discriminate|].
      intros y Hy. apply in_map_iff in Hy as (r & <- & Hr). now apply Hpos.
    + intros Hne Hlo. destruct filtered as [|r0 rest] eqn:E; [congruence|].
      apply truthy_true_iff in Hlo. rewrite Hlo.
      apply mathMax0_largest; [discriminate|].
      intros y Hy. apply in_map_iff in Hy as (r & <- & Hr). apply monthsDiff_nonneg.
  - intros cmp pivot. subst pivot. repeat split; vm_compute; reflexivity.
Qed.

(** C6 on an empty input, on the scenario rows without and with a boundary,
    and on the fallback LTV rows. *)
Lemma C6_witness :
  maxMonth (buildRetentionPivot String.compare [] retentionFiltersExample "2025-03") = 0
  /\ largestOf (maxMonth (buildRetentionPivot String.compare scenarioRows
                            retentionFiltersExample EmptyString))
       (List.map RetentionRow.m
          (List.filter (retentionFilter retentionFiltersExample) scenarioRows))
  /\ largestOf (maxMonth (buildRetentionPivot String.compare scenarioRows
                            retentionFiltersExample "2025-03"))
       (List.map (fun r => monthsDiff (RetentionRow.cohortMonthKey r) "2025-03")
          (List.filter (retentionFilter retentionFiltersExample) scenarioRows))
  /\ largestOf (maxMonth (buildLtvPivot String.compare FALLBACK_LTV_ROWS
                            ltvFiltersExample "2024-12"))
       (List.map (fun r => monthsDiff (LtvRow.cohortMonthKey r) "2024-12")
          (List.filter (ltvFilter ltvFiltersExample "2024-12") FALLBACK_LTV_ROWS)).
Proof.
  split; [|split; [|split]].
  - apply (proj1 C6_maxMonth String.compare [] retentionFiltersExample "2025-03").
    reflexivity.
  - apply (proj1 C6_maxMonth String.compare scenarioRows retentionFiltersExample EmptyString).
    + vm_compute. discriminate.
    + reflexivity.
    + intros r Hr. vm_compute in Hr. destruct Hr as [<-|[<-|[]]]; vm_compute; discriminate.
  - apply (proj1 C6_maxMonth String.compare scenarioRows retentionFiltersExample "2025-03").
    + vm_compute. discriminate.
    + discriminate.
  - apply (proj1 (proj2 C6_maxMonth) String.compare FALLBACK_LTV_ROWS ltvFiltersExample
             "2024-12").
    + vm_compute. discriminate.
    + discriminate.
Defined.

(** ** The observation boundary of the LTV pivot *)

Lemma filter_filter_implied {A : Type} (p q : A -> bool) (l : list A) :
  (forall a, p a = true -> q a = true) ->
  List.filter p (List.filter q l) = List.filter p l.
Proof.
  intros Himp. induction l as [|a l IH]; simpl; [reflexivity|].
  destruct (q a) eqn:Q; simpl.
  - now rewrite IH.
  - destruct (p a) eqn:P; [|exact IH]. apply Himp in P. congruence.
Qed.

Lemma ltvFilter_before_boundary f lo r :
  lo <> EmptyString -> ltvFilter f lo r = true ->
  String.compare (LtvRow.cohortMonthKey r) lo = Lt.
Proof.
  intros Hlo H. apply ltvFilter_iff in H as [_ [H|H]]; [congruence | exact H].
Qed.

(** C2: with a non-empty [lastObservedMonth], an LTV row whose cohort month is
    not before the boundary ([cohortMonthKey >= lastObservedMonth]) never
    enters the filtered set; the LTV pivot is the pivot of the rows that are
    strictly before the boundary, and none of its output rows has a cohort
    month at or after the boundary.  A retention row that passes the filter
    and whose cohort month equals the boundary still has an output row in the
    retention pivot, whose recorded offsets are truncated to
    [monthsDiff(cohort, cohort) = 0]. *)
Theorem C2_ltv_excludes_boundary_cohorts :
  forall cmp lo, lo <> EmptyString ->
    (forall rs f r,
        String.compare (LtvRow.cohortMonthKey r) lo <> Lt ->
        ~ In r (List.filter (ltvFilter f lo) rs))
    /\ (forall rs f,
           buildLtvPivot cmp rs f lo
           = buildLtvPivot cmp
               (List.filter (fun r => strLt (LtvRow.cohortMonthKey r) lo) rs) f lo)
    /\ (forall rs f out,
           In out (rows (buildLtvPivot cmp rs f lo)) ->
           String.compare (cohortMonth out) lo = Lt)
    /\ (forall rs f r,
           In r rs -> retentionFilter f r = true -> RetentionRow.cohortMonthKey r = lo ->
           exists out, In out (rows (buildRetentionPivot cmp rs f lo))
                       /\ cohortMonth out = lo
                       /\ monthsDiff (cohortMonth out) lo = 0
                       /\ forall m v, values out !! m = Some v -> m <= 0).
Proof.
  intros cmp lo Hlo. split; [|split; [|split]].
  - intros rs f r Hge Hin. apply filter_In in Hin as [_ Hf].
    apply (ltvFilter_before_boundary _ _ _ Hlo) in Hf. contradiction.
  - intros rs f. unfold buildLtvPivot.
    rewrite (filter_filter_implied (ltvFilter f lo)); [reflexivity|].
    intros r Hf. apply strLt_true_iff. now apply (ltvFilter_before_boundary f).
  - intros rs f out Hin. apply ltv_rows_iff in Hin as (g & Hg & _).
    apply groupOf_key in Hg as (e & He & Hk).
    apply in_map_iff in He as (r & <- & Hr). simpl in Hk. rewrite <- Hk.
    apply filter_In in Hr as [_ Hf]. now apply (ltvFilter_before_boundary f).
  - intros rs f r Hin Hf Hk.
    destruct (retention_row_exists cmp rs f lo r) as (out & Hout & Hko).
    { apply filter_In. now split. }
    exists out. rewrite Hko, Hk. split; [exact Hout|]. split; [reflexivity|].
    split; [apply monthsDiff_same|].
    intros m v Hl.
    destruct (retention_cell_source _ _ _ _ _ _ _ Hout Hl) as (_ & _ & _ & _ & _ & Hb).
    specialize (Hb Hlo). rewrite Hko, Hk, monthsDiff_same in Hb. exact Hb.
Qed.

(** C2 on the cohort "2025-03" with the boundary "2025-03". *)
Lemma C2_witness :
  ~ In ltvRowAtBoundary (List.filter (ltvFilter ltvFiltersExample "2025-03") [ltvRowAtBoundary])
  /\ rows (buildLtvPivot String.compare [ltvRowAtBoundary] ltvFiltersExample "2025-03") = []
  /\ exists out, In out (rows (buildRetentionPivot String.compare [retentionRowAtBoundary]
                                 retentionFiltersExample "2025-03"))
                 /\ cohortMonth out = "2025-03"
                 /\ monthsDiff (cohortMonth out) "2025-03" = 0
                 /\ forall m v, values out !! m = Some v -> m <= 0.
Proof.
  pose proof (C2_ltv_excludes_boundary_cohorts String.compare "2025-03" ltac:(discriminate))
    as (Hout & Heq & _ & Hret).
  split; [|split].
  - apply (Hout [ltvRowAtBoundary] ltvFiltersExample ltvRowAtBoundary).
    vm_compute. discriminate.
  - rewrite Heq. vm_compute. reflexivity.
  - apply (Hret [retentionRowAtBoundary] retentionFiltersExample retentionRowAtBoundary).
    + left. reflexivity.
    + vm_compute. reflexivity.
    + reflexivity.
Defined.

(* ===================================================================== *)
(** * Cohort keys *)
(* ===================================================================== *)

(** ** Characters and digit strings *)

Lemma string_app_cons c (s t : string) : (String c s ++ t)%string = String c (s ++ t).
Proof. reflexivity. Qed.

Lemma string_app_nil_l (t : string) : (EmptyString ++ t)%string = t.
Proof. reflexivity. Qed.

Ltac simpl_app := rewrite ?string_app_cons, ?string_app_nil_l; simpl.

Lemma allChars_app p s1 s2 :
  allChars p (s1 ++ s2) = (allChars p s1 && allChars p s2)%bool.
Proof.
  induction s1 as [|c r IH]; simpl_app; [reflexivity|].
  now rewrite IH, andb_assoc.
Qed.

Lemma allChars_impl (p q : ascii -> bool) s :
  (forall c, p c = true -> q c = true) -> allChars p s = true -> allChars q s = true.
Proof.
  intros Himp. induction s as [|c r IH]; simpl; [reflexivity|].
  rewrite !andb_true_iff. intros [Hc Hr]. split; [now apply Himp | now apply IH].
Qed.

Lemma string_app_assoc (a b c : string) : ((a ++ b) ++ c = a ++ (b ++ c))%string.
Proof. induction a as [|x a IH]; simpl_app; [reflexivity | now rewrite IH]. Qed.

Lemma string_app_nil_r (a : string) : (a ++ EmptyString)%string = a.
Proof. induction a as [|x a IH]; simpl_app; [reflexivity | now rewrite IH]. Qed.

Lemma string_length_app (a b : string) :
  String.length (a ++ b) = (String.length a + String.length b)%nat.
Proof. induction a as [|x a IH]; simpl_app; [reflexivity | now rewrite IH]. Qed.

Lemma isDigit_range c : isDigit c = true <-> 48 <= codeOf c <= 57.
Proof. unfold isDigit. rewrite andb_true_iff, !Z.leb_le. tauto. Qed.

Lemma isDigit_notWhiteSpace c : isDigit c = true -> notWhiteSpace c = true.
Proof.
  intros H. apply isDigit_range in H. unfold notWhiteSpace, isWhiteSpace.
  destruct (codeOf c =? 32) eqn:E1; [apply Z.eqb_eq in E1; lia|].
  destruct (codeOf c =? 160) eqn:E4; [apply Z.eqb_eq in E4; lia|].
  destruct (9 <=? codeOf c) eqn:E2; [|reflexivity].
  destruct (codeOf c <=? 13) eqn:E3; [apply Z.leb_le in E3; lia | reflexivity].
Qed.

Lemma isDigit_notChar sep c : codeOf sep < 48 -> isDigit c = true -> notChar sep c = true.
Proof.
  intros Hsep H. apply isDigit_range in H. unfold notChar.
  destruct (Ascii.eqb_spec c sep) as [->|]; [lia | reflexivity].
Qed.

Lemma digitChar_spec d :
  0 <= d <= 9 -> isDigit (digitChar d) = true /\ digitValue (digitChar d) = d.
Proof.
  intros H.
  assert (Hd : d = 0 \/ d = 1 \/ d = 2 \/ d = 3 \/ d = 4 \/ d = 5 \/ d = 6 \/ d = 7
               \/ d = 8 \/ d = 9) by lia.
  repeat destruct Hd as [->|Hd]; try subst d; split; reflexivity.
Qed.

Lemma parseDigits_app s1 s2 a :
  allChars isDigit s1 = true ->
  parseDigits (s1 ++ s2) a = parseDigits s2 (parseDigits s1 a).
Proof.
  revert a. induction s1 as [|c r IH]; intros a; simpl_app; [reflexivity|].
  rewrite andb_true_iff. intros [Hc Hr]. rewrite Hc. now apply IH.
Qed.

Lemma repeatChar_zero k :
  allChars isDigit (repeatChar k "0") = true /\ parseDigits (repeatChar k "0") 0 = 0.
Proof. induction k as [|k [IH1 IH2]]; simpl; [split; reflexivity|]. now split. Qed.

Lemma digitsOf_step f n acc :
  digitsOf (S f) n acc
  = if n / 10 =? 0 then String (digitChar (n mod 10)) acc
    else digitsOf f (n / 10) (String (digitChar (n mod 10)) acc).
Proof. reflexivity. Qed.

(** What the digit loop produces when it is given enough rounds. *)
Lemma digitsOf_spec f : forall n acc,
  0 <= n < 2 ^ Z.of_nat (S f) ->
  exists ds, digitsOf (S f) n acc = (ds ++ acc)%string
             /\ allChars isDigit ds = true
             /\ ds <> EmptyString
             /\ parseDigits ds 0 = n
             /\ forall k : nat, 10 ^ Z.of_nat k <= n -> (k + 1 <= String.length ds)%nat.
Proof.
  induction f as [|f IH]; intros n acc Hn.
  - assert (Hn' : n = 0 \/ n = 1) by (change (2 ^ Z.of_nat 1) with 2 in Hn; lia).
    exists (String (digitChar n) EmptyString).
    destruct Hn' as [-> | ->]; simpl; repeat split; try discriminate.
    + intros k Hk. assert (0 < 10 ^ Z.of_nat k) by (apply Z.pow_pos_nonneg; lia). lia.
    + intros k Hk. destruct k as [|k]; [simpl; lia|].
      rewrite Nat2Z.inj_succ, Z.pow_succ_r in Hk by lia.
      assert (0 < 10 ^ Z.of_nat k) by (apply Z.pow_pos_nonneg; lia). lia.
  - rewrite digitsOf_step.
    assert (Hmod : 0 <= n mod 10 <= 9) by (pose proof (Z.mod_pos_bound n 10); lia).
    destruct (digitChar_spec _ Hmod) as [Hd Hv].
    assert (Hdiv : n = 10 * (n / 10) + n mod 10) by (apply Z.div_mod; lia).
    destruct (n / 10 =? 0) eqn:E.
    + apply Z.eqb_eq in E. exists (String (digitChar (n mod 10)) EmptyString).
      simpl. rewrite Hd, Hv. repeat split; try discriminate; [lia|].
      intros k Hk. destruct k as [|k]; [simpl; lia|].
      rewrite Nat2Z.inj_succ, Z.pow_succ_r in Hk by lia.
      assert (0 < 10 ^ Z.of_nat k) by (apply Z.pow_pos_nonneg; lia). lia.
    + apply Z.eqb_neq in E.
      assert (Hq : 0 <= n / 10 < 2 ^ Z.of_nat (S f)).
      { split; [apply Z.div_pos; lia|].
        apply Z.div_lt_upper_bound; [lia|].
        rewrite (Nat2Z.inj_succ (S f)), Z.pow_succ_r in Hn by lia. lia. }
      destruct (IH (n / 10) (String (digitChar (n mod 10)) acc) Hq)
        as (ds & Heq & Hall & Hne & Hval & Hlen).
      exists (ds ++ String (digitChar (n mod 10)) EmptyString)%string.
      split; [rewrite Heq, string_app_assoc; reflexivity|].
      split; [rewrite allChars_app, Hall; simpl; now rewrite Hd|].
      split; [destruct ds; [congruence | discriminate]|].
      split.
      * rewrite parseDigits_app by exact Hall. simpl. rewrite Hd, Hval, Hv. lia.
      * intros k Hk. rewrite string_length_app. simpl.
        destruct k as [|k]; [lia|].
        assert (10 ^ Z.of_nat k <= n / 10).
        { rewrite Nat2Z.inj_succ, Z.pow_succ_r in Hk by lia.
          apply Z.div_le_lower_bound; lia. }
        specialize (Hlen k H). lia.
Qed.

Lemma numberToString_spec n :
  0 <= n ->
  allChars isDigit (numberToString n) = true
  /\ numberToString n <> EmptyString
  /\ parseDigits (numberToString n) 0 = n
  /\ forall k : nat, 10 ^ Z.of_nat k <= n -> (k + 1 <= String.length (numberToString n))%nat.
Proof.
  intros Hn. unfold numberToString.
  assert (Hlt : (n <? 0) = false) by (apply Z.ltb_ge; lia). rewrite Hlt.
  rewrite Z.abs_eq by exact Hn.
  assert (Hfuel : 0 <= n < 2 ^ Z.of_nat (S (Z.to_nat (Z.log2 n)))).
  { split; [exact Hn|]. rewrite Nat2Z.inj_succ, Z2Nat.id by apply Z.log2_nonneg.
    destruct (Z.eq_dec n 0) as [->|Hnz]; [reflexivity|].
    apply Z.log2_spec. lia. }
  destruct (digitsOf_spec _ n EmptyString Hfuel) as (ds & Heq & Hall & Hne & Hval & Hlen).
  rewrite Heq, string_app_nil_r. auto.
Qed.

Lemma padStart_digits k s :
  allChars isDigit s = true ->
  allChars isDigit (padStart k "0" s) = true
  /\ parseDigits (padStart k "0" s) 0 = parseDigits s 0.
Proof.
  intros Hs. unfold padStart.
  destruct (repeatChar_zero (k - String.length s)) as [Hz Hv].
  split.
  - now rewrite allChars_app, Hz, Hs.
  - now rewrite parseDigits_app, Hv.
Qed.

Lemma padStart_not_empty k c s : s <> EmptyString -> padStart k c s <> EmptyString.
Proof.
  unfold padStart. intros Hs H.
  destruct (repeatChar (k - String.length s) c);
    rewrite ?string_app_cons, ?string_app_nil_l in H; [congruence | discriminate].
Qed.

Lemma padStart_long k c s : (k <= String.length s)%nat -> padStart k c s = s.
Proof.
  intros H. unfold padStart.
  replace (k - String.length s)%nat with 0%nat by lia. reflexivity.
Qed.

Lemma parseInt_digits s :
  s <> EmptyString -> allChars isDigit s = true -> parseInt s = Some (parseDigits s 0).
Proof.
  destruct s as [|c r]; [congruence|]. intros _ Hall.
  simpl in Hall. apply andb_true_iff in Hall as [Hc Hr].
  pose proof (isDigit_notWhiteSpace _ Hc) as Hws.
  unfold notWhiteSpace in Hws. apply negb_true_iff in Hws.
  assert (H : parseInt (String c r)
              = if isDigit c then Some (1 * parseDigits (String c r) 0) else None).
  { unfold parseInt. cbn [trimStart]. rewrite Hws.
    destruct c as [[] [] [] [] [] [] [] []]; try discriminate Hc; reflexivity. }
  rewrite H, Hc, Z.mul_1_l. reflexivity.
Qed.

(** ** Splitting and trimming *)

Lemma split_app_sep sep d rest :
  allChars (notChar sep) d = true ->
  split sep (d ++ String sep rest) = d :: split sep rest.
Proof.
  induction d as [|c d IH]; simpl_app.
  - intros _. now rewrite Ascii.eqb_refl.
  - rewrite andb_true_iff. intros [Hc Hd]. unfold notChar in Hc.
    apply negb_true_iff in Hc. rewrite Hc, (IH Hd). reflexivity.
Qed.

Lemma split_no_sep sep d : allChars (notChar sep) d = true -> split sep d = [d].
Proof.
  induction d as [|c d IH]; simpl; [reflexivity|].
  rewrite andb_true_iff. intros [Hc Hd]. unfold notChar in Hc.
  apply negb_true_iff in Hc. rewrite Hc, (IH Hd). reflexivity.
Qed.

Lemma trimEnd_id s : allChars notWhiteSpace s = true -> trimEnd s = s.
Proof.
  induction s as [|c r IH]; simpl; [reflexivity|].
  rewrite andb_true_iff. intros [Hc Hr]. rewrite (IH Hr).
  unfold notWhiteSpace in Hc. apply negb_true_iff in Hc.
  destruct r; [now rewrite Hc | reflexivity].
Qed.

Lemma trim_id s : allChars notWhiteSpace s = true -> trim s = s.
Proof.
  intros H. unfold trim.
  assert (Hs : trimStart s = s).
  { destruct s as [|c r]; [reflexivity|]. simpl in *.
    apply andb_true_iff in H as [Hc _]. unfold notWhiteSpace in Hc.
    apply negb_true_iff in Hc. now rewrite Hc. }
  rewrite Hs. now apply trimEnd_id.
Qed.

(** ** parseCohortMonthKey on a built date string *)

Lemma digits_allChars (p : ascii -> bool) s :
  (forall c, isDigit c = true -> p c = true) ->
  allChars isDigit s = true -> allChars p s = true.
Proof. apply allChars_impl. Qed.

Lemma isoDate_shape year month :
  isoDate year month
  = (padStart 4 "0" (numberToString year)
     ++ String "-" (padStart 2 "0" (numberToString month) ++ String "-" "01"))%string.
Proof. reflexivity. Qed.

Lemma isoDate_allChars (p : ascii -> bool) year month :
  0 <= year -> 0 <= month ->
  (forall c, isDigit c = true -> p c = true) -> p "-"%char = true ->
  allChars p (isoDate year month) = true.
Proof.
  intros Hy Hm Hp Hdash.
  destruct (numberToString_spec year Hy) as (HYd & _).
  destruct (numberToString_spec month Hm) as (HMd & _).
  destruct (padStart_digits 4 _ HYd) as [HPY _].
  destruct (padStart_digits 2 _ HMd) as [HPM _].
  rewrite isoDate_shape, allChars_app. cbn [allChars].
  rewrite allChars_app. cbn [allChars].
  rewrite (digits_allChars p _ Hp HPY), (digits_allChars p _ Hp HPM), Hdash.
  rewrite !Hp by reflexivity. reflexivity.
Qed.

Lemma parseInt_padded k n :
  0 <= n -> parseInt (padStart k "0" (numberToString n)) = Some n.
Proof.
  intros Hn. destruct (numberToString_spec n Hn) as (Hd & Hne & Hv & _).
  destruct (padStart_digits k _ Hd) as [HPd HPv].
  rewrite parseInt_digits; [now rewrite HPv, Hv | now apply padStart_not_empty | exact HPd].
Qed.

Lemma isoDate_split year month :
  0 <= year -> 0 <= month ->
  split "-" (isoDate year month)
  = [padStart 4 "0" (numberToString year); padStart 2 "0" (numberToString month); "01"%string].
Proof.
  intros Hy Hm.
  destruct (numberToString_spec year Hy) as (HYd & _).
  destruct (numberToString_spec month Hm) as (HMd & _).
  destruct (padStart_digits 4 _ HYd) as [HPY _].
  destruct (padStart_digits 2 _ HMd) as [HPM _].
  assert (Hsep : forall c, isDigit c = true -> notChar "-" c = true)
    by (intros c; apply isDigit_notChar; vm_compute; reflexivity).
  rewrite isoDate_shape.
  rewrite split_app_sep by (now apply (digits_allChars _ _ Hsep)).
  rewrite split_app_sep by (now apply (digits_allChars _ _ Hsep)).
  reflexivity.
Qed.

Lemma key_of_isoDate year month suffix :
  0 <= year -> 0 <= month ->
  (suffix = EmptyString \/ exists rest, suffix = String " " rest) ->
  key (parseCohortMonthKey (isoDate year month ++ suffix))
  = (numberToString year ++ "-" ++ padStart 2 "0" (numberToString month))%string.
Proof.
  intros Hy Hm Hsuf.
  assert (Hsp : forall c, isDigit c = true -> notChar " " c = true)
    by (intros c; apply isDigit_notChar; vm_compute; reflexivity).
  assert (E1 : hd EmptyString (split " " (isoDate year month ++ suffix)) = isoDate year month).
  { destruct Hsuf as [->|[rest ->]].
    - rewrite string_app_nil_r, split_no_sep; [reflexivity|].
      now apply isoDate_allChars.
    - rewrite split_app_sep; [reflexivity|]. now apply isoDate_allChars. }
  assert (E2 : trim (isoDate year month) = isoDate year month).
  { apply trim_id. apply isoDate_allChars; auto using isDigit_notWhiteSpace. }
  unfold parseCohortMonthKey. rewrite E1, E2, isoDate_split by assumption.
  cbn [nth]. rewrite !parseInt_padded by assumption. reflexivity.
Qed.

(** C7, as stated, fails: for the year 987 and the month 3 the key is
    "987-03", whose first part is not the zero-padded year "0987". *)
Lemma C7_year_below_1000_not_padded :
  1 <= 3 <= 12
  /\ split "-" (key (parseCohortMonthKey (isoDate 987 3)))
     <> [padStart 4 "0" (numberToString 987); padStart 2 "0" (numberToString 3)].
Proof. split; [lia|]. vm_compute. discriminate. Qed.

(** C7 (amended): for a year from 0 up to the largest exact integer and a
    month from 1 to 12, [parseCohortMonthKey] applied to the date string
    [YYYY-MM-01] built from the pair (with or without a time part after a
    space) yields the key made of the year in plain decimal, "-", and the
    month zero padded to two digits; split on "-" the key gives back that
    plain year and the zero-padded month.  The year part is the zero-padded
    four-digit year whenever the year is at least 1000; the builder never
    pads the year. *)
Theorem C7_cohort_key_round_trip :
  forall year month suffix,
    0 <= year <= MAX_SAFE_INTEGER -> 1 <= month <= 12 ->
    (suffix = EmptyString \/ exists rest, suffix = String " " rest) ->
    let k := key (parseCohortMonthKey (isoDate year month ++ suffix)) in
    k = (numberToString year ++ "-" ++ padStart 2 "0" (numberToString month))%string
    /\ split "-" k = [numberToString year; padStart 2 "0" (numberToString month)]
    /\ (1000 <= year ->
        split "-" k = [padStart 4 "0" (numberToString year);
                       padStart 2 "0" (numberToString month)]).
Proof.
  intros year month suffix [Hy _] [Hm1 _] Hsuf k.
  assert (Hm : 0 <= month) by lia.
  assert (Hk : k = (numberToString year ++ "-" ++ padStart 2 "0" (numberToString month))%string)
    by (now apply key_of_isoDate).
  destruct (numberToString_spec year Hy) as (HYd & _ & _ & HYlen).
  destruct (numberToString_spec month Hm) as (HMd & _).
  destruct (padStart_digits 2 _ HMd) as [HPM _].
  assert (Hsep : forall c, isDigit c = true -> notChar "-" c = true)
    by (intros c; apply isDigit_notChar; vm_compute; reflexivity).
  assert (Hsplit : split "-" k
                   = [numberToString year; padStart 2 "0" (numberToString month)]).
  { rewrite Hk. rewrite string_app_cons, string_app_nil_l.
    rewrite split_app_sep by (now apply (digits_allChars _ _ Hsep)).
    rewrite split_no_sep by (now apply (digits_allChars _ _ Hsep)). reflexivity. }
  split; [exact Hk|]. split; [exact Hsplit|].
  intros H1000. rewrite Hsplit, (padStart_long 4 "0" (numberToString year)); [reflexivity|].
  specialize (HYlen 3%nat). change (10 ^ Z.of_nat 3) with 1000 in HYlen.
  specialize (HYlen H1000). lia.
Qed.

(** C7 on March 2025 with a time part. *)
Lemma C7_witness :
  let k := key (parseCohortMonthKey (isoDate 2025 3 ++ " 00:00:00")) in
  k = "2025-03"%string /\ split "-" k = ["2025"%string; "03"%string].
Proof.
  pose proof (C7_cohort_key_round_trip 2025 3 " 00:00:00") as H.
  destruct H as (Hk & Hs & _).
  - vm_compute. split; discriminate.
  - lia.
  - right. eexists. reflexivity.
  - split; [exact Hk | exact Hs].
Defined.

(* ===================================================================== *)
(** * Further facts: the scan is a first-match search, the built-ins on
      sample inputs *)
(* ===================================================================== *)

Lemma breakEvenScan_spec n : forall start values cac m,
  breakEvenScan n start values cac = Some m
  <-> start <= m < start + Z.of_nat n
      /\ reachesCac values cac m
      /\ forall j, start <= j < m -> ~ reachesCac values cac j.
Proof.
  induction n as [|n IH]; intros start values cac m.
  - simpl. split; [discriminate | lia].
  - cbn [breakEvenScan]. rewrite Nat2Z.inj_succ.
    destruct (values !! start) as [ltv|] eqn:L;
      [destruct (PrimFloat.leb cac (aedToUsd ltv)) eqn:P|].
    + split.
      * intros [= <-]. split; [lia|]. split; [exists ltv; now split | intros j Hj; lia].
      * intros (Hm & _ & Hmin). destruct (Z.eq_dec m start) as [->|Hne]; [reflexivity|].
        exfalso. apply (Hmin start); [lia|]. exists ltv. now split.
    + rewrite IH. split.
      * intros (Hm & Hr & Hmin). split; [lia|]. split; [exact Hr|].
        intros j Hj. destruct (Z.eq_dec j start) as [->|Hne]; [|apply Hmin; lia].
        intros (ltv' & L' & P'). congruence.
      * intros (Hm & Hr & Hmin). split; [|split; [exact Hr | intros j Hj; apply Hmin; lia]].
        destruct (Z.eq_dec m start) as [->|Hne]; [|lia].
        destruct Hr as (ltv' & L' & P'). congruence.
    + rewrite IH. split.
      * intros (Hm & Hr & Hmin). split; [lia|]. split; [exact Hr|].
        intros j Hj. destruct (Z.eq_dec j start) as [->|Hne]; [|apply Hmin; lia].
        intros (ltv' & L' & P'). congruence.
      * intros (Hm & Hr & Hmin). split; [|split; [exact Hr | intros j Hj; apply Hmin; lia]].
        destruct (Z.eq_dec m start) as [->|Hne]; [|lia].
        destruct Hr as (ltv' & L' & P'). congruence.
Qed.

(** [findBreakEvenMonth] returns the first offset of [0..maxMonth] whose
    converted value reaches the CAC; absent cells are passed over. *)
Lemma findBreakEvenMonth_first values cac maxMonth m :
  findBreakEvenMonth values (Some cac) maxMonth = Some m
  <-> 0 <= m <= maxMonth
      /\ reachesCac values cac m
      /\ forall j, 0 <= j < m -> ~ reachesCac values cac j.
Proof.
  unfold findBreakEvenMonth. rewrite breakEvenScan_spec.
  destruct (Z.le_gt_cases 0 (maxMonth + 1)) as [H|H].
  - rewrite Z2Nat.id by exact H. split; intros (Hm & Hr); (split; [lia | exact Hr]).
  - replace (Z.to_nat (maxMonth + 1)) with 0%nat by lia. split; intros (Hm & Hr); lia.
Qed.

Example parseFloat_samples :
  parseFloat "66.7" = 66.7%float /\ parseFloat "  -1.5e3 AED" = (-1500)%float
  /\ parseFloat ".5" = 0.5%float /\ parseFloat "n/a" = PrimFloat.nan
  /\ parseFloat "1e400" = PrimFloat.infinity.
Proof. repeat split; vm_compute; reflexivity. Qed.

Example parseRetention_percent :
  parseRetention (JsString "50%") = 0.5%float
  /\ parseRetention (JsNumber 0.5%float) = 0.5%float
  /\ parseRetention (JsString "0.5") = 0.5%float
  /\ parseRetention (JsString " 66.7% ") = (66.7 / 100)%float.
Proof. repeat split; vm_compute; reflexivity. Qed.

Example parseCohortMonthKey_samples :
  key (parseCohortMonthKey "2024-10-01 00:00:00") = "2024-10"%string
  /\ key (parseCohortMonthKey "2024-7") = "2024-07"%string
  /\ key (parseCohortMonthKey "garbage") = EmptyString.
Proof. repeat split; vm_compute; reflexivity. Qed.

Example monthsDiff_samples :
  monthsDiff "2024-10" "2025-03" = 5 /\ monthsDiff "2025-03" "2024-10" = 0
  /\ monthsDiff "2025" "2025-03" = 0 /\ monthsDiff EmptyString "2025-03" = 0.
Proof. repeat split; vm_compute; reflexivity. Qed.

(* ===================================================================== *)
(** * Further properties of the pivots *)
(* ===================================================================== *)

Lemma sortInsert_perm cmp x l : Permutation (sortInsert cmp x l) (x :: l).
Proof.
  induction l as [|y l IH]; simpl; [reflexivity|].
  destruct (cmp (cohortMonth x) (cohortMonth y)); try reflexivity.
  rewrite IH. apply perm_swap.
Qed.

Lemma sortByCohortMonth_perm cmp l : Permutation (sortByCohortMonth cmp l) l.
Proof.
  induction l as [|x l IH]; simpl; [reflexivity|].
  rewrite sortInsert_perm. now constructor.
Qed.

Lemma sortInsert_sorted cmp x l :
  consistentCollation cmp ->
  Sorted (notAfter cmp) l -> Sorted (notAfter cmp) (sortInsert cmp x l).
Proof.
  intros Hc. induction l as [|y l IH]; intros Hs; simpl.
  - repeat constructor.
  - inversion Hs as [|? ? Hs' Hhd]; subst.
    destruct (cmp (cohortMonth x) (cohortMonth y)) eqn:E.
    + constructor; [exact Hs|]. constructor. unfold notAfter. congruence.
    + constructor; [exact Hs|]. constructor. unfold notAfter. congruence.
    + constructor; [now apply IH|].
      destruct l as [|z l]; simpl.
      * constructor. now apply Hc.
      * destruct (cmp (cohortMonth x) (cohortMonth z)); constructor;
          try (now apply Hc); now inversion Hhd.
Qed.

Lemma sortByCohortMonth_sorted cmp l :
  consistentCollation cmp -> Sorted (notAfter cmp) (sortByCohortMonth cmp l).
Proof.
  intros Hc. induction l as [|x l IH]; simpl; [constructor|].
  now apply sortInsert_sorted.
Qed.

Lemma heatmap_keys mp : List.map cohortMonth (List.map toHeatmapRow mp) = List.map fst mp.
Proof. rewrite List.map_map. reflexivity. Qed.

Lemma heatmap_rows_nodup cmp evs :
  List.NoDup (List.map cohortMonth
                (sortByCohortMonth cmp (List.map toHeatmapRow (fold_left groupStep evs [])))).
Proof.
  apply (Permutation_NoDup (l := List.map fst (fold_left groupStep evs []))).
  - rewrite <- heatmap_keys. apply Permutation_map. symmetry. apply sortByCohortMonth_perm.
  - apply NoDup_fold_groupStep. constructor.
Qed.

Lemma retention_rows_as_events cmp rs f lo :
  rows (buildRetentionPivot cmp rs f lo)
  = sortByCohortMonth cmp
      (List.map toHeatmapRow (fold_left groupStep (retentionEvents rs f lo) [])).
Proof. unfold buildRetentionPivot; simpl. now rewrite fold_retentionStep. Qed.

Lemma ltv_rows_as_events cmp rs f lo :
  rows (buildLtvPivot cmp rs f lo)
  = sortByCohortMonth cmp
      (List.map toHeatmapRow (fold_left groupStep (ltvEvents rs f lo) [])).
Proof.
  unfold buildLtvPivot.
  pose proof (fold_ltvStep lo (List.filter (ltvFilter f lo) rs) ([], 0%float)) as H.
  destruct (fold_left (ltvStep lo) (List.filter (ltvFilter f lo) rs) ([], 0%float))
    as [byMonth mx]; simpl in *.
  now rewrite H.
Qed.

Lemma string_compare_consistent : consistentCollation String.compare.
Proof.
  intros a b H. rewrite String.compare_antisym, H. discriminate.
Qed.

(** X1: under a collation that never places two keys each after the other,
    the rows of both pivots come out in ascending order of [cohortMonth]:
    no row is followed by a row that the collation places before it. *)
Theorem X1_pivot_rows_sorted :
  forall cmp, consistentCollation cmp ->
    (forall rs f lo, Sorted (notAfter cmp) (rows (buildRetentionPivot cmp rs f lo)))
    /\ (forall rs f lo, Sorted (notAfter cmp) (rows (buildLtvPivot cmp rs f lo))).
Proof.
  intros cmp Hc. split; intros rs f lo.
  - rewrite retention_rows_as_events. now apply sortByCohortMonth_sorted.
  - rewrite ltv_rows_as_events. now apply sortByCohortMonth_sorted.
Qed.

(** X1 with the code-unit order of strings, on the fallback LTV rows. *)
Lemma X1_witness :
  Sorted (notAfter String.compare)
    (rows (buildLtvPivot String.compare FALLBACK_LTV_ROWS ltvFiltersExample "2024-12")).
Proof.
  apply (proj2 (X1_pivot_rows_sorted String.compare string_compare_consistent)).
Defined.

(** X2: each pivot has exactly one row per cohort month that has a filtered
    row: the cohort months of the output rows are pairwise different, and a
    month is among them if and only if some filtered row carries it. *)
Theorem X2_one_row_per_filtered_cohort :
  (forall cmp rs f lo,
      List.NoDup (List.map cohortMonth (rows (buildRetentionPivot cmp rs f lo)))
      /\ forall k, In k (List.map cohortMonth (rows (buildRetentionPivot cmp rs f lo)))
                   <-> exists r, In r (List.filter (retentionFilter f) rs)
                                 /\ RetentionRow.cohortMonthKey r = k)
  /\ (forall cmp rs f lo,
         List.NoDup (List.map cohortMonth (rows (buildLtvPivot cmp rs f lo)))
         /\ forall k, In k (List.map cohortMonth (rows (buildLtvPivot cmp rs f lo)))
                      <-> exists r, In r (List.filter (ltvFilter f lo) rs)
                                    /\ LtvRow.cohortMonthKey r = k).
Proof.
  split; intros cmp rs f lo; split.
  - rewrite retention_rows_as_events. apply heatmap_rows_nodup.
  - intros k. rewrite in_map_iff. split.
    + intros (out & <- & Hin). apply retention_rows_iff in Hin as (g & Hg & _).
      apply groupOf_key in Hg as (e & He & Hk).
      apply in_map_iff in He as (r & <- & Hr). now exists r.
    + intros (r & Hr & <-).
      destruct (retention_row_exists cmp rs f lo r Hr) as (out & Hout & Hk). now exists out.
  - rewrite ltv_rows_as_events. apply heatmap_rows_nodup.
  - intros k. rewrite in_map_iff. split.
    + intros (out & <- & Hin). apply ltv_rows_iff in Hin as (g & Hg & _).
      apply groupOf_key in Hg as (e & He & Hk).
      apply in_map_iff in He as (r & <- & Hr). now exists r.
    + intros (r & Hr & <-).
      destruct (ltv_row_exists cmp rs f lo r Hr) as (out & Hout & Hk). now exists out.
Qed.

Lemma retentionEvent_written lo r :
  lo = EmptyString \/ RetentionRow.m r <= monthsDiff (RetentionRow.cohortMonthKey r) lo ->
  evCell (retentionEvent lo r) = Some (RetentionRow.m r, RetentionRow.retention r).
Proof.
  intros Hwin. unfold retentionEvent; simpl. destruct Hwin as [->|Hle]; [reflexivity|].
  destruct (truthy lo); [|reflexivity]. simpl.
  destruct (RetentionRow.m r >? _) eqn:G; [lia | reflexivity].
Qed.

Lemma ltvEvent_written lo r :
  lo = EmptyString \/ LtvRow.m r <= monthsDiff (LtvRow.cohortMonthKey r) lo ->
  PrimFloat.leb (LtvRow.ltv_per_user r) 0%float = false ->
  evCell (ltvEvent lo r) = Some (LtvRow.m r, LtvRow.ltv_per_user r).
Proof.
  intros Hwin Hpos. unfold ltvEvent; simpl. rewrite Hpos.
  destruct Hwin as [->|Hle]; [reflexivity|].
  destruct (truthy lo); [|reflexivity]. simpl.
  destruct (LtvRow.m r >? _) eqn:G; [lia | reflexivity].
Qed.

(** X3: last write wins.  A filtered row inside the observation window (for
    LTV: with a value that is not [<= 0]) that is not followed by another
    filtered row of the same cohort and offset has its value in the pivot: the
    row of its cohort holds that value at its offset, whatever earlier rows
    wrote there. *)
Theorem X3_last_write_wins :
  (forall cmp pre r post f lo,
      retentionFilter f r = true ->
      (lo = EmptyString
       \/ RetentionRow.m r <= monthsDiff (RetentionRow.cohortMonthKey r) lo) ->
      (forall r', In r' post -> retentionFilter f r' = true ->
                  RetentionRow.cohortMonthKey r' = RetentionRow.cohortMonthKey r ->
                  RetentionRow.m r' <> RetentionRow.m r) ->
      exists out, In out (rows (buildRetentionPivot cmp (pre ++ r :: post) f lo))
                  /\ cohortMonth out = RetentionRow.cohortMonthKey r
                  /\ values out !! RetentionRow.m r = Some (RetentionRow.retention r))
  /\ (forall cmp pre r post f lo,
         ltvFilter f lo r = true ->
         (lo = EmptyString \/ LtvRow.m r <= monthsDiff (LtvRow.cohortMonthKey r) lo) ->
         PrimFloat.leb (LtvRow.ltv_per_user r) 0%float = false ->
         (forall r', In r' post -> ltvFilter f lo r' = true ->
                     LtvRow.cohortMonthKey r' = LtvRow.cohortMonthKey r ->
                     LtvRow.m r' <> LtvRow.m r) ->
         exists out, In out (rows (buildLtvPivot cmp (pre ++ r :: post) f lo))
                     /\ cohortMonth out = LtvRow.cohortMonthKey r
                     /\ values out !! LtvRow.m r = Some (LtvRow.ltv_per_user r)).
Proof.
  split.
  - intros cmp pre r post f lo Hf Hwin Hlast.
    destruct (groupOf_last_write (RetentionRow.cohortMonthKey r)
                (List.map (retentionEvent lo) (List.filter (retentionFilter f) pre))
                (retentionEvent lo r)
                (List.map (retentionEvent lo) (List.filter (retentionFilter f) post))
                (RetentionRow.m r) (RetentionRow.retention r) eq_refl
                (retentionEvent_written lo r Hwin))
      as (g & Hg & Hl).
    { intros e' v' He' Hk Hc'. apply in_map_iff in He' as (r' & <- & Hr').
      apply filter_In in Hr' as [Hin' Hf'].
      apply retentionEvent_cell in Hc' as (Hm & _).
      apply (Hlast r' Hin' Hf' Hk). congruence. }
    exists {| cohortMonth := RetentionRow.cohortMonthKey r; cohortSize := size g;
              values := groupValues g |}.
    split; [|split; [reflexivity | exact Hl]].
    apply retention_rows_iff. exists g. simpl. split; [|now split].
    unfold retentionEvents. rewrite List.filter_app. simpl. rewrite Hf.
    rewrite map_app. exact Hg.
  - intros cmp pre r post f lo Hf Hwin Hpos Hlast.
    destruct (groupOf_last_write (LtvRow.cohortMonthKey r)
                (List.map (ltvEvent lo) (List.filter (ltvFilter f lo) pre))
                (ltvEvent lo r)
                (List.map (ltvEvent lo) (List.filter (ltvFilter f lo) post))
                (LtvRow.m r) (LtvRow.ltv_per_user r) eq_refl
                (ltvEvent_written lo r Hwin Hpos))
      as (g & Hg & Hl).
    { intros e' v' He' Hk Hc'. apply in_map_iff in He' as (r' & <- & Hr').
      apply filter_In in Hr' as [Hin' Hf'].
      apply ltvEvent_cell in Hc' as (Hm & _).
      apply (Hlast r' Hin' Hf' Hk). congruence. }
    exists {| cohortMonth := LtvRow.cohortMonthKey r; cohortSize := size g;
              values := groupValues g |}.
    split; [|split; [reflexivity | exact Hl]].
    apply ltv_rows_iff. exists g. simpl. split; [|now split].
    unfold ltvEvents. rewrite List.filter_app. simpl. rewrite Hf.
    rewrite map_app. exact Hg.
Qed.

(** X3 on two rows of one cohort and offset: the later ratio 0.7 replaces the
    earlier 1.0; and on the fallback LTV rows. *)
Lemma X3_witness :
  (exists out,
      In out (rows (buildRetentionPivot String.compare
                      ([scenarioRow 1 10%float 1%float]
                         ++ scenarioRow 1 10%float 0.7%float :: [])
                      retentionFiltersExample "2025-03"))
      /\ cohortMonth out = "2025-01"
      /\ values out !! 1 = Some 0.7%float)
  /\ (exists out,
         In out (rows (buildLtvPivot String.compare
                         ([] ++ ltvRowAtBoundary :: []) ltvFiltersExample "2025-04"))
         /\ cohortMonth out = "2025-03"
         /\ values out !! 0 = Some 350%float).
Proof.
  split.
  - apply (proj1 X3_last_write_wins String.compare [scenarioRow 1 10%float 1%float]
             (scenarioRow 1 10%float 0.7%float) [] retentionFiltersExample "2025-03").
    + vm_compute. reflexivity.
    + right. vm_compute. discriminate.
    + intros r' [].
  - apply (proj2 X3_last_write_wins String.compare [] ltvRowAtBoundary []
             ltvFiltersExample "2025-04").
    + vm_compute. reflexivity.
    + right. vm_compute. discriminate.
    + vm_compute. reflexivity.
    + intros r' [].
Defined.

Lemma maxMonth_retention_unfold cmp rs f lo r0 rest :
  List.filter (retentionFilter f) rs = r0 :: rest ->
  maxMonth (buildRetentionPivot cmp rs f lo)
  = if truthy lo
    then mathMax0 (List.map (fun r => monthsDiff (RetentionRow.cohortMonthKey r) lo)
                     (r0 :: rest))
    else mathMax0 (List.map RetentionRow.m (r0 :: rest)).
Proof. intros E. unfold buildRetentionPivot; simpl. now rewrite E. Qed.

Lemma maxMonth_ltv_unfold cmp rs f lo r0 rest :
  List.filter (ltvFilter f lo) rs = r0 :: rest ->
  maxMonth (buildLtvPivot cmp rs f lo)
  = if truthy lo
    then mathMax0 (List.map (fun r => monthsDiff (LtvRow.cohortMonthKey r) lo) (r0 :: rest))
    else mathMax0 (List.map LtvRow.m (r0 :: rest)).
Proof.
  intros E. unfold buildLtvPivot.
  destruct (fold_left (ltvStep lo) (List.filter (ltvFilter f lo) rs) ([], 0%float))
    as [byMonth mx]; simpl.
  now rewrite E.
Qed.

Lemma retention_cell_column cmp rs f lo out m v :
  In out (rows (buildRetentionPivot cmp rs f lo)) -> values out !! m = Some v ->
  m <= maxMonth (buildRetentionPivot cmp rs f lo).
Proof.
  intros Hin Hl.
  destruct (retention_cell_source _ _ _ _ _ _ _ Hin Hl) as (r & Hr & Hk & Hm & _ & Hb).
  destruct (List.filter (retentionFilter f) rs) as [|r0 rest] eqn:E; [destruct Hr|].
  rewrite (maxMonth_retention_unfold _ _ _ _ _ _ E).
  destruct (truthy lo) eqn:T.
  - apply truthy_true_iff in T. specialize (Hb T).
    assert (monthsDiff (cohortMonth out) lo
            <= mathMax0 (List.map (fun r => monthsDiff (RetentionRow.cohortMonthKey r) lo)
                           (r0 :: rest))).
    { apply mathMax0_upper. apply in_map_iff. exists r. now rewrite Hk. }
    lia.
  - apply mathMax0_upper. apply in_map_iff. now exists r.
Qed.

Lemma ltv_cell_column cmp rs f lo out m v :
  In out (rows (buildLtvPivot cmp rs f lo)) -> values out !! m = Some v ->
  m <= maxMonth (buildLtvPivot cmp rs f lo).
Proof.
  intros Hin Hl.
  destruct (ltv_cell_source _ _ _ _ _ _ _ Hin Hl) as (r & Hr & Hk & Hm & _ & _ & Hb).
  destruct (List.filter (ltvFilter f lo) rs) as [|r0 rest] eqn:E; [destruct Hr|].
  rewrite (maxMonth_ltv_unfold _ _ _ _ _ _ E).
  destruct (truthy lo) eqn:T.
  - apply truthy_true_iff in T. specialize (Hb T).
    assert (monthsDiff (cohortMonth out) lo
            <= mathMax0 (List.map (fun r => monthsDiff (LtvRow.cohortMonthKey r) lo)
                           (r0 :: rest))).
    { apply mathMax0_upper. apply in_map_iff. exists r. now rewrite Hk. }
    lia.
  - apply mathMax0_upper. apply in_map_iff. now exists r.
Qed.

(** X4: no recorded cell lies beyond the last column: in both pivots every
    offset recorded in a row is at most [maxMonth], and [maxMonth] is never
    negative. *)
Theorem X4_cells_within_columns :
  (forall cmp rs f lo,
      0 <= maxMonth (buildRetentionPivot cmp rs f lo)
      /\ forall out m v,
           In out (rows (buildRetentionPivot cmp rs f lo)) -> values out !! m = Some v ->
           m <= maxMonth (buildRetentionPivot cmp rs f lo))
  /\ (forall cmp rs f lo,
         0 <= maxMonth (buildLtvPivot cmp rs f lo)
         /\ forall out m v,
              In out (rows (buildLtvPivot cmp rs f lo)) -> values out !! m = Some v ->
              m <= maxMonth (buildLtvPivot cmp rs f lo)).
Proof.
  split; intros cmp rs f lo; split.
  - destruct (List.filter (retentionFilter f) rs) as [|r0 rest] eqn:E.
    + unfold buildRetentionPivot; simpl. rewrite E. reflexivity.
    + rewrite (maxMonth_retention_unfold _ _ _ _ _ _ E).
      destruct (truthy lo); apply mathMax0_nonneg.
  - intros out m v. apply retention_cell_column.
  - destruct (List.filter (ltvFilter f lo) rs) as [|r0 rest] eqn:E.
    + unfold buildLtvPivot.
      destruct (fold_left (ltvStep lo) (List.filter (ltvFilter f lo) rs) ([], 0%float))
        as [byMonth mx]; simpl.
      rewrite E. reflexivity.
    + rewrite (maxMonth_ltv_unfold _ _ _ _ _ _ E).
      destruct (truthy lo); apply mathMax0_nonneg.
  - intros out m v. apply ltv_cell_column.
Qed.

(** X4 on the scenario rows and on the fallback LTV rows. *)
Lemma X4_witness :
  1 <= maxMonth (buildRetentionPivot String.compare scenarioRows
                   retentionFiltersExample "2025-03")
  /\ 1 <= maxMonth (buildLtvPivot String.compare FALLBACK_LTV_ROWS
                      ltvFiltersExample "2024-12").
Proof.
  split.
  - apply (proj2 (proj1 X4_cells_within_columns String.compare scenarioRows
                    retentionFiltersExample "2025-03") scenarioOutRow 1 0.7%float).
    + vm_compute. left. reflexivity.
    + vm_compute. reflexivity.
  - apply (proj2 (proj2 X4_cells_within_columns String.compare FALLBACK_LTV_ROWS
                    ltvFiltersExample "2024-12") fallbackLtvOutRow 1 700%float).
    + vm_compute. left. reflexivity.
    + vm_compute. reflexivity.
Defined.

(* ===================================================================== *)
(** * Further properties of the break-even overlay *)
(* ===================================================================== *)

Lemma cellIsBreakEven_reaches spend row cac j :
  rowCacUsd spend row = Some cac ->
  (cellIsBreakEven spend row j = true <-> reachesCac (values row) cac j).
Proof.
  intros Hc. unfold cellIsBreakEven, isBreakEven, cellUsd, reachesCac. rewrite Hc.
  destruct (values row !! j) as [v|]; split.
  - intros H. now exists v.
  - intros (v' & [= <-] & H). exact H.
  - discriminate.
  - intros (v' & H & _). discriminate.
Qed.

(** X5: in a heat-map row the break-even badge shows month [m] exactly when
    [m] is the first column of [0..maxMonth] whose cell gets the break-even
    ring: the cell of [m] is ringed and no cell of an earlier column is. *)
Theorem X5_badge_is_first_ringed_cell :
  forall spend row maxMonth m,
    rowBreakEvenMonth spend row maxMonth = Some m
    <-> 0 <= m <= maxMonth
        /\ cellIsBreakEven spend row m = true
        /\ forall j, 0 <= j < m -> cellIsBreakEven spend row j = false.
Proof.
  intros spend row mx m. unfold rowBreakEvenMonth.
  destruct (rowCacUsd spend row) as [cac|] eqn:Hc.
  - rewrite findBreakEvenMonth_first. rewrite (cellIsBreakEven_reaches _ _ _ m Hc).
    split; intros (Hm & Hr & Hmin); (split; [exact Hm|]; split; [exact Hr|]); intros j Hj.
    + apply not_true_is_false. rewrite (cellIsBreakEven_reaches _ _ _ j Hc).
      now apply Hmin.
    + rewrite <- (cellIsBreakEven_reaches _ _ _ j Hc). rewrite (Hmin j Hj). discriminate.
  - simpl. split; [discriminate|]. intros (_ & H & _).
    unfold cellIsBreakEven, isBreakEven in H. rewrite Hc in H. discriminate.
Qed.

Lemma breakEvenScan_none n : forall start values0 cac,
  breakEvenScan n start values0 cac = None
  <-> forall j, start <= j < start + Z.of_nat n -> ~ reachesCac values0 cac j.
Proof.
  induction n as [|n IH]; intros start vs cac.
  - simpl. split; [intros _ j Hj; lia | reflexivity].
  - cbn [breakEvenScan]. rewrite Nat2Z.inj_succ.
    assert (Hstep : breakEvenScan n (start + 1) vs cac = None
                    <-> forall j, start + 1 <= j < start + Z.succ (Z.of_nat n) ->
                                  ~ reachesCac vs cac j).
    { rewrite IH. split; intros H j Hj; apply H; lia. }
    destruct (vs !! start) as [ltv|] eqn:L;
      [destruct (PrimFloat.leb cac (aedToUsd ltv)) eqn:P|].
    + split; [discriminate|]. intros H. exfalso. apply (H start); [lia|].
      exists ltv. now split.
    + rewrite Hstep. split; intros H j Hj.
      * destruct (Z.eq_dec j start) as [->|Hne]; [|apply H; lia].
        intros (ltv' & L' & P'). congruence.
      * apply H. lia.
    + rewrite Hstep. split; intros H j Hj.
      * destruct (Z.eq_dec j start) as [->|Hne]; [|apply H; lia].
        intros (ltv' & L' & P'). congruence.
      * apply H. lia.
Qed.

(** X6: with a defined CAC [findBreakEvenMonth] answers undefined exactly when
    no offset of [0..maxMonth] holds a value whose conversion reaches the CAC;
    an answer never changes when more columns are scanned, and a negative
    [maxMonth] always gives undefined. *)
Theorem X6_break_even_absent_and_stable :
  forall values0 cac maxMonth,
    (findBreakEvenMonth values0 (Some cac) maxMonth = None
     <-> forall j, 0 <= j <= maxMonth -> ~ reachesCac values0 cac j)
    /\ (forall m maxMonth',
           maxMonth <= maxMonth' ->
           findBreakEvenMonth values0 (Some cac) maxMonth = Some m ->
           findBreakEvenMonth values0 (Some cac) maxMonth' = Some m)
    /\ (maxMonth < 0 -> findBreakEvenMonth values0 (Some cac) maxMonth = None).
Proof.
  intros vs cac mx.
  assert (Hnone : findBreakEvenMonth vs (Some cac) mx = None
                  <-> forall j, 0 <= j <= mx -> ~ reachesCac vs cac j).
  { unfold findBreakEvenMonth. rewrite breakEvenScan_none.
    split; intros H j Hj; apply H; lia. }
  split; [exact Hnone|]. split.
  - intros m mx' Hle H. apply findBreakEvenMonth_first in H as (Hm & Hr & Hmin).
    apply findBreakEvenMonth_first. repeat split; try lia; assumption.
  - intros Hneg. apply Hnone. intros j Hj. lia.
Qed.

(** X6 on the cumulative example: found at 2 within three columns, hence also
    within six. *)
Lemma X6_witness :
  findBreakEvenMonth cumulativeExample (Some (aedToUsd 260%float)) 5 = Some 2.
Proof.
  apply (proj1 (proj2 (X6_break_even_absent_and_stable cumulativeExample
                         (aedToUsd 260%float) 2)) 2 5).
  - lia.
  - vm_compute. reflexivity.
Defined.

(** X7: the break-even month of a row of the LTV pivot, scanned over the
    pivot's own columns, is an offset that the row records, with a value that
    is not [<= 0]; with a non-empty observation boundary it lies inside the
    row's window. *)
Theorem X7_break_even_of_pivot_row_is_recorded :
  forall cmp rs f lo spend out m,
    In out (rows (buildLtvPivot cmp rs f lo)) ->
    rowBreakEvenMonth spend out (maxMonth (buildLtvPivot cmp rs f lo)) = Some m ->
    exists v, values out !! m = Some v
              /\ PrimFloat.leb v 0%float = false
              /\ 0 <= m <= maxMonth (buildLtvPivot cmp rs f lo)
              /\ (lo <> EmptyString -> m <= monthsDiff (cohortMonth out) lo).
Proof.
  intros cmp rs f lo spend out m Hin Hbe.
  unfold rowBreakEvenMonth in Hbe.
  destruct (rowCacUsd spend out) as [cac|]; [|discriminate].
  apply findBreakEvenMonth_first in Hbe as (Hm & (v & Hl & _) & _).
  exists v. split; [exact Hl|].
  destruct (ltv_cell_source _ _ _ _ _ _ _ Hin Hl) as (_ & _ & _ & _ & _ & Hp & Hb).
  repeat split; try lia; assumption.
Qed.

(** X7 on the first fallback LTV cohort with the spend of October 2024. *)
Lemma X7_witness :
  exists v, values fallbackLtvOutRow !! 0 = Some v
            /\ PrimFloat.leb v 0%float = false
            /\ 0 <= 0 <= maxMonth (buildLtvPivot String.compare FALLBACK_LTV_ROWS
                                     ltvFiltersExample "2024-12")
            /\ ("2024-12"%string <> EmptyString ->
                0 <= monthsDiff (cohortMonth fallbackLtvOutRow) "2024-12").
Proof.
  apply (X7_break_even_of_pivot_row_is_recorded String.compare FALLBACK_LTV_ROWS
           ltvFiltersExample "2024-12" (Some (<["2024-10" := 300%float]> ∅))).
  - vm_compute. left. reflexivity.
  - vm_compute. reflexivity.
Defined.

(* ===================================================================== *)
(** * Month keys, month differences and dates *)
(* ===================================================================== *)

Lemma dash_not_digit : forall c, isDigit c = true -> notChar "-" c = true.
Proof. intros c. apply isDigit_notChar. vm_compute. reflexivity. Qed.

Lemma parseInt_numberToString n : 0 <= n -> parseInt (numberToString n) = Some n.
Proof.
  intros Hn. destruct (numberToString_spec n Hn) as (Hd & Hne & Hv & _).
  rewrite parseInt_digits by assumption. now rewrite Hv.
Qed.

Lemma cohortKey_split y m :
  0 <= y -> 0 <= m ->
  split "-" (cohortKey y m) = [numberToString y; padStart 2 "0" (numberToString m)].
Proof.
  intros Hy Hm. unfold cohortKey.
  destruct (numberToString_spec y Hy) as (HYd & _).
  destruct (numberToString_spec m Hm) as (HMd & _).
  destruct (padStart_digits 2 _ HMd) as [HPM _].
  rewrite string_app_cons, string_app_nil_l.
  rewrite split_app_sep by (now apply (digits_allChars _ _ dash_not_digit)).
  rewrite split_no_sep by (now apply (digits_allChars _ _ dash_not_digit)). reflexivity.
Qed.

Lemma cohortKey_truthy y m : 0 <= y -> truthy (cohortKey y m) = true.
Proof.
  intros Hy. destruct (numberToString_spec y Hy) as (_ & Hne & _).
  unfold cohortKey. destruct (numberToString y); [congruence | reflexivity].
Qed.

Lemma cohortKey_parts y m :
  0 <= y -> 0 <= m ->
  List.map parseInt (split "-" (cohortKey y m)) = [Some y; Some m].
Proof.
  intros Hy Hm. rewrite cohortKey_split by assumption. simpl.
  now rewrite parseInt_numberToString, parseInt_padded.
Qed.

Lemma monthsDiff_cohortKey y1 m1 y2 m2 :
  0 <= y1 -> 0 <= m1 -> 0 <= y2 -> 0 <= m2 ->
  monthsDiff (cohortKey y1 m1) (cohortKey y2 m2) = Z.max 0 ((y2 - y1) * 12 + (m2 - m1)).
Proof.
  intros H1 H2 H3 H4. unfold monthsDiff.
  rewrite !cohortKey_truthy, !cohortKey_parts by assumption. reflexivity.
Qed.

(** X8: on two keys of the form that the parser and [monthKeyFromDate] write
    (year, "-", two-digit month), with month counts [year * 12 + month] within
    [Number.MAX_SAFE_INTEGER] so that the source's arithmetic does not round,
    [monthsDiff] is the number of months from the first to the second, and 0
    when the second is not later; going through an intermediate month adds
    up. *)
Theorem X8_monthsDiff_counts_months :
  forall y1 m1 y2 m2,
    0 <= y1 -> 0 <= m1 -> 0 <= y2 -> 0 <= m2 ->
    y1 * 12 + m1 <= MAX_SAFE_INTEGER -> y2 * 12 + m2 <= MAX_SAFE_INTEGER ->
    monthsDiff (cohortKey y1 m1) (cohortKey y2 m2) = Z.max 0 ((y2 - y1) * 12 + (m2 - m1))
    /\ forall y3 m3,
         0 <= y3 -> 0 <= m3 -> y3 * 12 + m3 <= MAX_SAFE_INTEGER ->
         y1 * 12 + m1 <= y2 * 12 + m2 <= y3 * 12 + m3 ->
         monthsDiff (cohortKey y1 m1) (cohortKey y3 m3)
         = monthsDiff (cohortKey y1 m1) (cohortKey y2 m2)
           + monthsDiff (cohortKey y2 m2) (cohortKey y3 m3).
Proof.
  intros y1 m1 y2 m2 H1 H2 H3 H4 _ _. split; [now apply monthsDiff_cohortKey|].
  intros y3 m3 H5 H6 _ Hord. rewrite !monthsDiff_cohortKey by assumption. lia.
Qed.

(** X8 from October 2024 over January 2025 to March 2025. *)
Lemma X8_witness :
  monthsDiff "2024-10" "2025-01" = 3
  /\ monthsDiff "2024-10" "2025-03"
     = monthsDiff "2024-10" "2025-01" + monthsDiff "2025-01" "2025-03".
Proof.
  destruct (X8_monthsDiff_counts_months 2024 10 2025 1) as [Hval Hadd];
    try (unfold MAX_SAFE_INTEGER; lia).
  split.
  - exact Hval.
  - apply (Hadd 2025 3); unfold MAX_SAFE_INTEGER; lia.
Defined.

Lemma monthsDiff_no_dash_l a b : allChars (notChar "-") a = true -> monthsDiff a b = 0.
Proof.
  intros Ha. unfold monthsDiff.
  destruct (negb (truthy a) || negb (truthy b))%bool; [reflexivity|].
  rewrite (split_no_sep _ _ Ha). simpl.
  now destruct (parseInt a).
Qed.

Lemma monthsDiff_no_dash_r a b : allChars (notChar "-") b = true -> monthsDiff a b = 0.
Proof.
  intros Hb. unfold monthsDiff.
  destruct (negb (truthy a) || negb (truthy b))%bool; [reflexivity|].
  rewrite (split_no_sep _ _ Hb). simpl.
  destruct (element 0 _); [|reflexivity].
  destruct (element 1 _); [|reflexivity].
  now destruct (parseInt b).
Qed.

(** X9: [monthsDiff] is never negative, is 0 from a key to itself, and is 0 as
    soon as one of the two keys has no "-" in it (the empty key included):
    a month difference is only ever counted between two keys that both have a
    year part and a month part. *)
Theorem X9_monthsDiff_clamped :
  (forall a b, 0 <= monthsDiff a b)
  /\ (forall a, monthsDiff a a = 0)
  /\ (forall a b, allChars (notChar "-") a = true ->
                  monthsDiff a b = 0 /\ monthsDiff b a = 0).
Proof.
  split; [exact monthsDiff_nonneg|]. split; [exact monthsDiff_same|].
  intros a b Ha. split; [now apply monthsDiff_no_dash_l | now apply monthsDiff_no_dash_r].
Qed.

(** X9 on a key that is only a year. *)
Lemma X9_witness : monthsDiff "2025" "2025-03" = 0 /\ monthsDiff "2025-03" "2025" = 0.
Proof.
  apply (proj2 (proj2 X9_monthsDiff_clamped) "2025"%string "2025-03"%string).
  vm_compute. reflexivity.
Defined.

Lemma daysInMonth_ge y mi : 28 <= daysInMonth y mi.
Proof.
  unfold daysInMonth. destruct (mi =? 1); [destruct (isLeapYear y); lia|].
  destruct ((mi =? 3) || (mi =? 5) || (mi =? 8) || (mi =? 10))%bool; lia.
Qed.

(** The first day of a month needs no carrying. *)
Lemma civilFields_first year monthIndex :
  civilFields year monthIndex 1
  = ((if (0 <=? year) && (year <=? 99) then 1900 + year else year) + monthIndex / 12,
     monthIndex mod 12, 1).
Proof.
  unfold civilFields. cbn [settleDay].
  change (1 <? 1) with false. cbv iota.
  pose proof (daysInMonth_ge
                ((if (0 <=? year) && (year <=? 99) then 1900 + year else year)
                 + monthIndex / 12) (monthIndex mod 12)) as H.
  destruct (daysInMonth _ _ <? 1) eqn:E; [apply Z.ltb_lt in E; lia | reflexivity].
Qed.

Lemma fields_of_first_day y mi :
  100 <= y ->
  getFullYear (DateOf y mi 1) = Some (y + mi / 12)
  /\ getMonth (DateOf y mi 1) = Some (mi mod 12).
Proof.
  intros Hy. unfold getFullYear, getMonth. rewrite civilFields_first.
  assert (E : ((0 <=? y) && (y <=? 99))%bool = false).
  { apply andb_false_iff. right. apply Z.leb_gt. lia. }
  rewrite E. split; reflexivity.
Qed.

Lemma monthKeyFromDate_first_day y mi :
  100 <= y ->
  monthKeyFromDate (DateOf y mi 1) = cohortKey (y + mi / 12) (mi mod 12 + 1).
Proof.
  intros Hy. destruct (fields_of_first_day y mi Hy) as [HY HM].
  unfold monthKeyFromDate. rewrite HY, HM. reflexivity.
Qed.

Lemma addMonths_first_day y mi n :
  100 <= y -> 0 <= mi <= 11 -> addMonths (DateOf y mi 1) n = DateOf y (mi + n) 1.
Proof.
  intros Hy Hmi. destruct (fields_of_first_day y mi Hy) as [HY HM].
  unfold addMonths. rewrite HY, HM.
  rewrite Z.div_small, Z.mod_small by lia. now rewrite Z.add_0_r.
Qed.

(** X10: for the first day of a month (a year from 100 on, inside the range
    of [Date]), [monthKeyFromDate] writes the key of that month, and
    [addMonths] moves the key by exactly the given number of months across
    year ends: [monthsDiff] from the key of the date to the key of the moved
    date is that number when it is forward, and 0 when it is backward. *)
Theorem X10_addMonths_moves_the_key :
  forall y mi n,
    100 <= y <= MAX_DATE_YEAR -> 0 <= mi <= 11 ->
    100 <= y + (mi + n) / 12 <= MAX_DATE_YEAR ->
    monthKeyFromDate (DateOf y mi 1) = cohortKey y (mi + 1)
    /\ monthKeyFromDate (addMonths (DateOf y mi 1) n)
       = cohortKey (y + (mi + n) / 12) ((mi + n) mod 12 + 1)
    /\ monthsDiff (monthKeyFromDate (DateOf y mi 1))
         (monthKeyFromDate (addMonths (DateOf y mi 1) n))
       = Z.max 0 n.
Proof.
  intros y mi n [Hy _] Hmi [Hy' _].
  assert (H1 : monthKeyFromDate (DateOf y mi 1) = cohortKey y (mi + 1)).
  { rewrite monthKeyFromDate_first_day by exact Hy.
    rewrite Z.div_small, Z.mod_small by lia. now rewrite Z.add_0_r. }
  assert (H2 : monthKeyFromDate (addMonths (DateOf y mi 1) n)
               = cohortKey (y + (mi + n) / 12) ((mi + n) mod 12 + 1)).
  { rewrite addMonths_first_day by assumption. now apply monthKeyFromDate_first_day. }
  split; [exact H1|]. split; [exact H2|].
  rewrite H1, H2.
  pose proof (Z.mod_pos_bound (mi + n) 12 ltac:(lia)) as Hmod.
  pose proof (Z.div_mod (mi + n) 12 ltac:(lia)) as Hdm.
  rewrite monthsDiff_cohortKey by lia. f_equal. lia.
Qed.

(** X10 from November 2024 four months on: March 2025. *)
Lemma X10_witness :
  monthKeyFromDate (addMonths (DateOf 2024 10 1) 4) = "2025-03"%string
  /\ monthsDiff (monthKeyFromDate (DateOf 2024 10 1))
       (monthKeyFromDate (addMonths (DateOf 2024 10 1) 4)) = 4.
Proof.
  destruct (X10_addMonths_moves_the_key 2024 10 4) as (_ & Hk & Hd).
  - vm_compute. split; discriminate.
  - lia.
  - vm_compute. split; discriminate.
  - split; [exact Hk | exact Hd].
Defined.

Lemma parseCohortMonthKey_isoDate year month suffix :
  0 <= year -> 0 <= month ->
  (suffix = EmptyString \/ exists rest, suffix = String " " rest) ->
  parseCohortMonthKey (isoDate year month ++ suffix)
  = {| date := DateOf year (month - 1) 1; key := cohortKey year month |}.
Proof.
  intros Hy Hm Hsuf.
  assert (Hsp : forall c, isDigit c = true -> notChar " " c = true)
    by (intros c; apply isDigit_notChar; vm_compute; reflexivity).
  assert (E1 : hd EmptyString (split " " (isoDate year month ++ suffix)) = isoDate year month).
  { destruct Hsuf as [->|[rest ->]].
    - rewrite string_app_nil_r, split_no_sep; [reflexivity|].
      now apply isoDate_allChars.
    - rewrite split_app_sep; [reflexivity|]. now apply isoDate_allChars. }
  assert (E2 : trim (isoDate year month) = isoDate year month).
  { apply trim_id. apply isoDate_allChars; auto using isDigit_notWhiteSpace. }
  unfold parseCohortMonthKey. rewrite E1, E2, isoDate_split by assumption.
  cbn [nth]. rewrite !parseInt_padded by assumption. reflexivity.
Qed.

(** X11: for a date string [YYYY-MM-01] of a year from 100 on and a month from
    1 to 12 (with or without a time part) the two results of
    [parseCohortMonthKey] denote the same month: the key of the returned date
    is the returned key.  For a year from 0 to 99 they do not: the date lies
    in the year 1900 + year while the key keeps the year as written. *)
Theorem X11_parsed_date_and_key_agree :
  forall year month suffix,
    1 <= month <= 12 ->
    (suffix = EmptyString \/ exists rest, suffix = String " " rest) ->
    let parsed := parseCohortMonthKey (isoDate year month ++ suffix) in
    (100 <= year <= MAX_DATE_YEAR ->
     monthKeyFromDate (date parsed) = key parsed
     /\ getFullYear (date parsed) = Some year
     /\ getMonth (date parsed) = Some (month - 1))
    /\ (0 <= year <= 99 ->
        getFullYear (date parsed) = Some (1900 + year)
        /\ key parsed = cohortKey year month).
Proof.
  intros year month suffix Hm Hsuf parsed. subst parsed. split.
  - intros [Hy _]. rewrite parseCohortMonthKey_isoDate by (assumption || lia).
    cbn [date key].
    destruct (fields_of_first_day year (month - 1) ltac:(lia)) as [HY HM].
    rewrite monthKeyFromDate_first_day by lia.
    rewrite HY, HM, Z.div_small, Z.mod_small by lia.
    rewrite Z.add_0_r. repeat split. f_equal. lia.
  - intros Hy. rewrite parseCohortMonthKey_isoDate by (assumption || lia).
    cbn [date key]. split; [|reflexivity].
    unfold getFullYear. rewrite civilFields_first.
    assert (E : ((0 <=? year) && (year <=? 99))%bool = true).
    { apply andb_true_iff. split; apply Z.leb_le; lia. }
    rewrite E, Z.div_small by lia. cbn [fst]. f_equal. lia.
Qed.

(** X11 on October 2024 with a time part, and on the year 50. *)
Lemma X11_witness :
  monthKeyFromDate (date (parseCohortMonthKey (isoDate 2024 10 ++ " 00:00:00")))
  = key (parseCohortMonthKey (isoDate 2024 10 ++ " 00:00:00"))
  /\ getFullYear (date (parseCohortMonthKey (isoDate 50 3 ++ EmptyString))) = Some 1950.
Proof.
  split.
  - apply (proj1 (X11_parsed_date_and_key_agree 2024 10 " 00:00:00"
                    ltac:(lia) ltac:(right; eexists; reflexivity))).
    vm_compute. split; discriminate.
  - apply (proj2 (X11_parsed_date_and_key_agree 50 3 EmptyString
                    ltac:(lia) ltac:(left; reflexivity))).
    lia.
Defined.

(** ** The observation boundary *)

Lemma compare_not_Gt_leb a b : String.compare a b <> Gt <-> String.leb a b = true.
Proof. unfold String.leb. destruct (String.compare a b); split; congruence. Qed.

Lemma string_le_trans a b c :
  String.compare a b <> Gt -> String.compare b c <> Gt -> String.compare a c <> Gt.
Proof.
  rewrite !compare_not_Gt_leb. intros H1 H2.
  assert (T : String.le a c).
  { transitivity b; unfold String.le; [rewrite H1 | rewrite H2]; exact I. }
  unfold String.le in T. destruct (String.leb a c); [reflexivity | destruct T].
Qed.

Lemma string_le_refl a : String.compare a a <> Gt.
Proof.
  pose proof (String.compare_antisym a a) as H.
  destruct (String.compare a a); simpl in H; congruence.
Qed.

Lemma latestKey_fold rows : forall acc,
  let result := fold_left (fun latest row =>
                             if strGt (RetentionRow.cohortMonthKey row) latest
                             then RetentionRow.cohortMonthKey row else latest) rows acc in
  String.compare acc result <> Gt
  /\ (forall row, In row rows ->
                  String.compare (RetentionRow.cohortMonthKey row) result <> Gt)
  /\ (result = acc \/ exists row, In row rows /\ RetentionRow.cohortMonthKey row = result).
Proof.
  induction rows as [|r rows IH]; intros acc; simpl.
  - split; [apply string_le_refl|]. split; [tauto | now left].
  - set (acc' := if strGt (RetentionRow.cohortMonthKey r) acc
                 then RetentionRow.cohortMonthKey r else acc).
    destruct (IH acc') as (Hacc & Hall & Hin).
    assert (Hstep : String.compare acc acc' <> Gt
                    /\ String.compare (RetentionRow.cohortMonthKey r) acc' <> Gt).
    { subst acc'. destruct (strGt (RetentionRow.cohortMonthKey r) acc) eqn:G.
      - apply strGt_true_iff in G. split; [|apply string_le_refl].
        rewrite String.compare_antisym, G. discriminate.
      - apply strGt_false_iff in G. split; [apply string_le_refl | exact G]. }
    destruct Hstep as [H1 H2]. split; [now apply (string_le_trans _ acc')|].
    split.
    + intros row [<-|Hrow]; [now apply (string_le_trans _ acc') | now apply Hall].
    + destruct Hin as [Heq|(row & Hrow & Hk)].
      * rewrite Heq. subst acc'.
        destruct (strGt (RetentionRow.cohortMonthKey r) acc); [|now left].
        right. exists r. split; [now left | reflexivity].
      * right. exists row. split; [now right | exact Hk].
Qed.

Lemma lastObserved_of_cohortKey rs y m :
  100 <= y -> 1 <= m <= 12 ->
  latestKey (List.filter (fun row => RetentionRow.m row =? 0) rs) = cohortKey y m ->
  lastObservedRetentionMonth rs
  = cohortKey (fst (nextMonth y m)) (snd (nextMonth y m)).
Proof.
  intros Hy Hm Hk. unfold lastObservedRetentionMonth.
  destruct (List.filter (fun row => RetentionRow.m row =? 0) rs) as [|r0 rest] eqn:E.
  - exfalso. cbn in Hk. pose proof (cohortKey_truthy y m ltac:(lia)) as T.
    rewrite <- Hk in T. discriminate.
  - rewrite Hk, cohortKey_truthy by lia. cbn [negb].
    rewrite cohortKey_parts by lia. cbn [element nth_error].
    rewrite addMonths_first_day by lia.
    rewrite monthKeyFromDate_first_day by lia.
    replace (m - 1 + 1) with m by lia.
    unfold nextMonth. destruct (m =? 12) eqn:E12.
    + apply Z.eqb_eq in E12. subst m. reflexivity.
    + apply Z.eqb_neq in E12. rewrite Z.div_small, Z.mod_small by lia.
      cbn [fst snd]. now rewrite Z.add_0_r.
Qed.

(** X12: the observation boundary that the dashboard derives from the
    retention rows is empty when no row has offset 0; otherwise it is taken
    from the greatest cohort key, in string order, among the offset-0 rows,
    and when that key is the key of month [m] of year [y] (from year 100 on)
    the boundary is the key of the following month, one month after it by
    [monthsDiff]. *)
Theorem X12_boundary_is_month_after_latest_cohort :
  forall rs,
    let cohortZero := List.filter (fun row => RetentionRow.m row =? 0) rs in
    (cohortZero = [] -> lastObservedRetentionMonth rs = EmptyString)
    /\ (forall row, In row rs -> RetentionRow.m row = 0 ->
                    String.compare (RetentionRow.cohortMonthKey row) (latestKey cohortZero)
                    <> Gt)
    /\ (latestKey cohortZero = EmptyString
        \/ exists row, In row rs /\ RetentionRow.m row = 0
                       /\ RetentionRow.cohortMonthKey row = latestKey cohortZero)
    /\ (forall y m,
           100 <= y < MAX_DATE_YEAR -> 1 <= m <= 12 ->
           latestKey cohortZero = cohortKey y m ->
           lastObservedRetentionMonth rs
           = cohortKey (fst (nextMonth y m)) (snd (nextMonth y m))
           /\ monthsDiff (latestKey cohortZero) (lastObservedRetentionMonth rs) = 1).
Proof.
  intros rs cohortZero.
  destruct (latestKey_fold cohortZero EmptyString) as (_ & Hall & Hin).
  fold (latestKey cohortZero) in Hall, Hin.
  split; [|split; [|split]].
  - intros E. unfold lastObservedRetentionMonth. fold cohortZero. now rewrite E.
  - intros row Hrow Hm0. apply Hall. apply filter_In. split; [exact Hrow|].
    now apply Z.eqb_eq.
  - destruct Hin as [Heq|(row & Hrow & Hk)]; [now left|]. right.
    apply filter_In in Hrow as [Hrow Hm0]. exists row. split; [exact Hrow|].
    split; [now apply Z.eqb_eq | exact Hk].
  - intros y m [Hy _] Hm Hk.
    pose proof (lastObserved_of_cohortKey rs y m Hy Hm Hk) as Hlo.
    split; [exact Hlo|]. rewrite Hlo, Hk.
    unfold nextMonth. destruct (m =? 12) eqn:E12; cbn [fst snd].
    + apply Z.eqb_eq in E12. subst m. rewrite monthsDiff_cohortKey by lia. lia.
    + rewrite monthsDiff_cohortKey by lia. lia.
Qed.

(** X12 on the fallback retention rows: the latest offset-0 cohort is
    "2024-11", the boundary "2024-12". *)
Lemma X12_witness :
  lastObservedRetentionMonth FALLBACK_RETENTION_ROWS = "2024-12"%string
  /\ monthsDiff (latestKey (List.filter (fun row => RetentionRow.m row =? 0)
                              FALLBACK_RETENTION_ROWS))
       (lastObservedRetentionMonth FALLBACK_RETENTION_ROWS) = 1.
Proof.
  apply (proj2 (proj2 (proj2 (X12_boundary_is_month_after_latest_cohort
                                FALLBACK_RETENTION_ROWS))) 2024 11).
  - vm_compute. split; [discriminate | reflexivity].
  - lia.
  - vm_compute. reflexivity.
Defined.

(** ** String order of keys *)

Lemma ascii_compare_refl c : Ascii.compare c c = Eq.
Proof. unfold Ascii.compare. apply N.compare_refl. Qed.

Lemma compare_same_prefix p a b :
  String.compare (p ++ a) (p ++ b) = String.compare a b.
Proof.
  induction p as [|c p IH]; simpl_app; [reflexivity|].
  now rewrite ascii_compare_refl.
Qed.

Lemma parseDigits_acc s : forall acc,
  allChars isDigit s = true ->
  parseDigits s acc = acc * 10 ^ Z.of_nat (String.length s) + parseDigits s 0
  /\ 0 <= parseDigits s 0 < 10 ^ Z.of_nat (String.length s).
Proof.
  induction s as [|c r IH]; intros acc; cbn [allChars parseDigits String.length].
  - intros _. change (10 ^ Z.of_nat 0) with 1. lia.
  - rewrite andb_true_iff. intros [Hc Hr]. rewrite Hc.
    destruct (IH (acc * 10 + digitValue c) Hr) as [E1 _].
    destruct (IH (digitValue c) Hr) as [E2 Hb].
    change (0 * 10 + digitValue c) with (digitValue c).
    apply isDigit_range in Hc. unfold digitValue in *.
    rewrite Nat2Z.inj_succ, Z.pow_succ_r by lia.
    set (p := 10 ^ Z.of_nat (String.length r)) in *.
    assert (0 < p) by (apply Z.pow_pos_nonneg; lia).
    split; [rewrite E1, E2; ring | rewrite E2; nia].
Qed.

(** Of two digit strings of equal length the one with the smaller value comes
    first, whatever follows them. *)
Lemma digits_compare_lt a : forall b s t,
  allChars isDigit a = true -> allChars isDigit b = true ->
  String.length a = String.length b ->
  parseDigits a 0 < parseDigits b 0 ->
  String.compare (a ++ s) (b ++ t) = Lt.
Proof.
  induction a as [|c a IH]; intros [|d b] s t Ha Hb Hlen Hlt; simpl in Hlen;
    try discriminate.
  - simpl in Ha, Hb. apply andb_true_iff in Ha as [Hc Ha]. apply andb_true_iff in Hb as [Hd Hb].
    injection Hlen as Hlen.
    simpl in Hlt. rewrite Hc, Hd in Hlt.
    change (0 * 10 + digitValue c) with (digitValue c) in Hlt.
    change (0 * 10 + digitValue d) with (digitValue d) in Hlt.
    destruct (parseDigits_acc a (digitValue c) Ha) as [Ea Hba].
    destruct (parseDigits_acc b (digitValue d) Hb) as [Eb Hbb].
    rewrite Ea, Eb, Hlen in Hlt. rewrite Hlen in Hba.
    set (p := 10 ^ Z.of_nat (String.length b)) in *.
    simpl_app. unfold Ascii.compare.
    unfold digitValue, codeOf in *.
    destruct (N.compare_spec (N_of_ascii c) (N_of_ascii d)) as [E|L|G].
    + apply IH; try assumption. rewrite E in Hlt. lia.
    + reflexivity.
    + exfalso. nia.
Qed.

Lemma digitsOf_length_le f : forall n acc k,
  0 <= n < 10 ^ Z.of_nat (S k) ->
  (String.length (digitsOf (S f) n acc) <= S k + String.length acc)%nat.
Proof.
  induction f as [|f IH]; intros n acc k Hn; rewrite digitsOf_step.
  - destruct (n / 10 =? 0); cbn [digitsOf String.length]; lia.
  - destruct (n / 10 =? 0) eqn:E; [cbn [String.length]; lia|].
    apply Z.eqb_neq in E.
    destruct k as [|k].
    + exfalso. change (10 ^ Z.of_nat 1) with 10 in Hn.
      apply E. apply Z.div_small. lia.
    + assert (Hq : 0 <= n / 10 < 10 ^ Z.of_nat (S k)).
      { split; [apply Z.div_pos; lia|]. apply Z.div_lt_upper_bound; [lia|].
        rewrite (Nat2Z.inj_succ (S k)), Z.pow_succ_r in Hn by lia. lia. }
      specialize (IH (n / 10) (String (digitChar (n mod 10)) acc) k Hq).
      cbn [String.length] in IH. lia.
Qed.

Lemma numberToString_length_le n k :
  0 <= n < 10 ^ Z.of_nat (S k) -> (String.length (numberToString n) <= S k)%nat.
Proof.
  intros Hn. unfold numberToString.
  assert (Hlt : (n <? 0) = false) by (apply Z.ltb_ge; lia). rewrite Hlt.
  rewrite Z.abs_eq by lia.
  pose proof (digitsOf_length_le (Z.to_nat (Z.log2 n)) n EmptyString k Hn) as H.
  cbn [String.length] in H. lia.
Qed.

Lemma four_digit_year y :
  1000 <= y <= 9999 -> String.length (numberToString y) = 4%nat.
Proof.
  intros Hy. destruct (numberToString_spec y ltac:(lia)) as (_ & _ & _ & Hlen).
  specialize (Hlen 3%nat). change (10 ^ Z.of_nat 3) with 1000 in Hlen.
  pose proof (numberToString_length_le y 3) as Hle.
  change (10 ^ Z.of_nat 4) with 10000 in Hle. specialize (Hlen ltac:(lia)).
  specialize (Hle ltac:(lia)). lia.
Qed.

Lemma cohortKey_next_is_later y m :
  1000 <= y <= 9998 -> 1 <= m <= 12 ->
  String.compare (cohortKey y m) (cohortKey (fst (nextMonth y m)) (snd (nextMonth y m))) = Lt.
Proof.
  intros Hy Hm. unfold nextMonth. destruct (m =? 12) eqn:E12; cbn [fst snd].
  - unfold cohortKey. apply digits_compare_lt.
    + now destruct (numberToString_spec y ltac:(lia)).
    + now destruct (numberToString_spec (y + 1) ltac:(lia)).
    + rewrite !four_digit_year by lia. reflexivity.
    + destruct (numberToString_spec y ltac:(lia)) as (_ & _ & -> & _).
      destruct (numberToString_spec (y + 1) ltac:(lia)) as (_ & _ & -> & _). lia.
  - apply Z.eqb_neq in E12. unfold cohortKey. rewrite compare_same_prefix.
    assert (Hc : m = 1 \/ m = 2 \/ m = 3 \/ m = 4 \/ m = 5 \/ m = 6 \/ m = 7 \/ m = 8
                 \/ m = 9 \/ m = 10 \/ m = 11) by lia.
    repeat destruct Hc as [->|Hc]; try subst m; vm_compute; reflexivity.
Qed.

Lemma string_le_lt_trans a b c :
  String.compare a b <> Gt -> String.compare b c = Lt -> String.compare a c = Lt.
Proof.
  intros H1 H2.
  assert (H3 : String.compare a c <> Gt)
    by (apply (string_le_trans a b c); [exact H1 | congruence]).
  destruct (String.compare a c) eqn:E; [|reflexivity | congruence].
  apply String.compare_eq_iff in E. subst c.
  exfalso. apply H1. rewrite String.compare_antisym, H2. reflexivity.
Qed.

(** X13: the boundary that the dashboard derives never cuts off a cohort it
    was derived from.  When the latest offset-0 retention cohort is a month of
    a four-digit year (1000 to 9998), every LTV row whose cohort key is not
    after that cohort passes the boundary guard of [buildLtvPivot], so it
    enters the filtered set exactly when it meets the criteria. *)
Theorem X13_derived_boundary_keeps_observed_cohorts :
  forall rs y m f row,
    1000 <= y <= 9998 -> 1 <= m <= 12 ->
    latestKey (List.filter (fun r => RetentionRow.m r =? 0) rs) = cohortKey y m ->
    String.compare (LtvRow.cohortMonthKey row) (cohortKey y m) <> Gt ->
    String.compare (LtvRow.cohortMonthKey row) (lastObservedRetentionMonth rs) = Lt
    /\ (ltvFilter f (lastObservedRetentionMonth rs) row = true <-> ltvCriteria f row).
Proof.
  intros rs y m f row Hy Hm Hk Hle.
  rewrite (lastObserved_of_cohortKey rs y m) by (lia || assumption).
  assert (Hlt : String.compare (LtvRow.cohortMonthKey row)
                  (cohortKey (fst (nextMonth y m)) (snd (nextMonth y m))) = Lt).
  { apply (string_le_lt_trans _ (cohortKey y m)); [exact Hle|].
    now apply cohortKey_next_is_later. }
  split; [exact Hlt|]. rewrite ltvFilter_iff. unfold beforeBoundary. tauto.
Qed.

(** X13 on the fallback rows: the LTV rows of "2024-11" stay in. *)
Lemma X13_witness :
  String.compare "2024-11" (lastObservedRetentionMonth FALLBACK_RETENTION_ROWS) = Lt.
Proof.
  apply (X13_derived_boundary_keeps_observed_cohorts FALLBACK_RETENTION_ROWS 2024 11
           ltvFiltersExample
           (LtvRow.mk "purchase" (DateOf 2024 10 1) "2024-11" Overall "ALL" 0 Any Revenue
              All 5%float 350%float)).
  - lia.
  - lia.
  - vm_compute. reflexivity.
  - vm_compute. discriminate.
Defined.

(* ===================================================================== *)
(** * Text helpers *)
(* ===================================================================== *)

Lemma trimEnd_after_word d rest :
  allChars notWhiteSpace d = true ->
  exists suffix', trimEnd (d ++ String " " rest) = (d ++ suffix')%string
                  /\ (suffix' = EmptyString \/ exists rest', suffix' = String " " rest').
Proof.
  induction d as [|c d IH]; simpl_app.
  - intros _. destruct (trimEnd rest) as [|c r].
    + exists EmptyString. split; [reflexivity | now left].
    + exists (String " " (String c r)). split; [reflexivity | right; eauto].
  - rewrite andb_true_iff. intros [Hc Hd].
    destruct (IH Hd) as (s' & E & Hs'). rewrite E.
    exists s'. split; [|exact Hs'].
    unfold notWhiteSpace in Hc. apply negb_true_iff in Hc. rewrite Hc.
    rewrite string_app_cons. now destruct (d ++ s')%string.
Qed.

Lemma trimStart_word s :
  s <> EmptyString -> allChars notWhiteSpace s = true ->
  forall t, trimStart (s ++ t) = (s ++ t)%string.
Proof.
  destruct s as [|c r]; [congruence|]. intros _ H t. simpl in H.
  apply andb_true_iff in H as [Hc _]. unfold notWhiteSpace in Hc.
  apply negb_true_iff in Hc. rewrite string_app_cons. simpl. now rewrite Hc.
Qed.

Lemma repeatChar_length k c : String.length (repeatChar k c) = k.
Proof. induction k as [|k IH]; simpl; [reflexivity | now rewrite IH]. Qed.

Lemma padStart_length k c s :
  (String.length s <= k)%nat -> String.length (padStart k c s) = k.
Proof.
  intros H. unfold padStart. rewrite string_length_app, repeatChar_length. lia.
Qed.

Lemma isoDate_not_empty year month : isoDate year month <> EmptyString.
Proof.
  rewrite isoDate_shape. destruct (padStart 4 "0" (numberToString year)); discriminate.
Qed.

Lemma cohortKey_allChars (p : ascii -> bool) year month :
  0 <= year -> 0 <= month ->
  (forall c, isDigit c = true -> p c = true) -> p "-"%char = true ->
  allChars p (cohortKey year month) = true.
Proof.
  intros Hy Hm Hp Hdash.
  destruct (numberToString_spec year Hy) as (HYd & _).
  destruct (numberToString_spec month Hm) as (HMd & _).
  destruct (padStart_digits 2 _ HMd) as [HPM _].
  unfold cohortKey. rewrite string_app_cons, string_app_nil_l, allChars_app.
  cbn [allChars].
  now rewrite (digits_allChars p _ Hp HYd), (digits_allChars p _ Hp HPM), Hdash.
Qed.

Lemma space_not_digit : forall c, isDigit c = true -> notChar " " c = true.
Proof. intros c. apply isDigit_notChar. vm_compute. reflexivity. Qed.

Lemma isValidCohort_isoDate year month suffix :
  0 <= year <= 9999 -> 0 <= month <= 99 ->
  (suffix = EmptyString \/ exists rest, suffix = String " " rest) ->
  isValidCohort (Some (isoDate year month ++ suffix)%string) = true.
Proof.
  intros Hy Hm Hsuf.
  assert (Hws : allChars notWhiteSpace (isoDate year month) = true)
    by (apply isoDate_allChars; auto using isDigit_notWhiteSpace; lia).
  assert (Hsp : allChars (notChar " ") (isoDate year month) = true)
    by (apply isoDate_allChars; auto using space_not_digit; lia).
  assert (Hhd : hd EmptyString
                  (split " " (trim (isoDate year month ++ suffix))) = isoDate year month).
  { unfold trim. rewrite trimStart_word by (auto using isoDate_not_empty).
    destruct Hsuf as [->|[rest ->]].
    - rewrite string_app_nil_r, trimEnd_id, split_no_sep by assumption. reflexivity.
    - destruct (trimEnd_after_word _ rest Hws) as (s' & -> & [->|[rest' ->]]).
      + rewrite string_app_nil_r, split_no_sep by assumption. reflexivity.
      + rewrite split_app_sep by assumption. reflexivity. }
  unfold isValidCohort. rewrite Hhd, isoDate_split by lia.
  cbn [List.length nth_error].
  rewrite !padStart_length.
  - reflexivity.
  - apply (numberToString_length_le month 1). change (10 ^ Z.of_nat 2) with 100. lia.
  - apply (numberToString_length_le year 3). change (10 ^ Z.of_nat 4) with 10000. lia.
Qed.

Lemma isValidCohort_cohortKey year month :
  0 <= year <= 9999 -> 0 <= month <= 99 ->
  isValidCohort (Some (cohortKey year month))
  = (String.length (numberToString year) =? 4)%nat.
Proof.
  intros Hy Hm.
  assert (Hws : allChars notWhiteSpace (cohortKey year month) = true)
    by (apply cohortKey_allChars; auto using isDigit_notWhiteSpace; lia).
  assert (Hsp : allChars (notChar " ") (cohortKey year month) = true)
    by (apply cohortKey_allChars; auto using space_not_digit; lia).
  unfold isValidCohort. cbv beta iota. rewrite trim_id by assumption.
  rewrite (split_no_sep " " _ Hsp).
  cbn [hd]. rewrite cohortKey_split by lia. cbn [List.length nth_error].
  rewrite padStart_length.
  - cbn. now rewrite andb_true_r.
  - apply (numberToString_length_le month 1). change (10 ^ Z.of_nat 2) with 100. lia.
Qed.

(** X14: [isValidCohort] accepts every date string [YYYY-MM-01] built from a
    year from 0 to 9999 and a month from 1 to 12, with or without a time part
    after a space.  The key that [parseCohortMonthKey] makes of such a string
    is itself accepted exactly when the year is at least 1000: the key of an
    earlier year has a year part shorter than four characters. *)
Theorem X14_isValidCohort_on_built_dates :
  forall year month suffix,
    0 <= year <= 9999 -> 1 <= month <= 12 ->
    (suffix = EmptyString \/ exists rest, suffix = String " " rest) ->
    isValidCohort (Some (isoDate year month ++ suffix)%string) = true
    /\ (isValidCohort (Some (key (parseCohortMonthKey (isoDate year month ++ suffix))))
        = true <-> 1000 <= year).
Proof.
  intros year month suffix Hy Hm Hsuf.
  split; [apply isValidCohort_isoDate; (assumption || lia)|].
  rewrite key_of_isoDate by (assumption || lia).
  fold (cohortKey year month). rewrite isValidCohort_cohortKey by lia.
  rewrite Nat.eqb_eq. split.
  - intros Hlen. destruct (Z.lt_ge_cases year 1000) as [Hlt|Hge]; [|exact Hge].
    pose proof (numberToString_length_le year 2) as Hle.
    change (10 ^ Z.of_nat 3) with 1000 in Hle. specialize (Hle ltac:(lia)). lia.
  - intros Hge. apply four_digit_year. lia.
Qed.

(** X14 on October 2024 with a time part. *)
Lemma X14_witness :
  isValidCohort (Some (isoDate 2024 10 ++ " 00:00:00")%string) = true
  /\ (isValidCohort (Some (key (parseCohortMonthKey (isoDate 2024 10 ++ " 00:00:00"))))
      = true <-> 1000 <= 2024).
Proof.
  apply (X14_isValidCohort_on_built_dates 2024 10 " 00:00:00").
  - lia.
  - lia.
  - right. eexists. reflexivity.
Defined.

(** ** classNames *)

Lemma filterBoolean_truthy values s : In s (filterBoolean values) -> s <> EmptyString.
Proof.
  induction values as [|[x|] values IH]; simpl; [tauto| |exact IH].
  destruct (truthy x) eqn:T; [|exact IH].
  intros [<-|H]; [now apply truthy_true_iff | now apply IH].
Qed.

Lemma split_join parts :
  parts <> [] ->
  (forall s, In s parts -> allChars (notChar " ") s = true) ->
  split " " (join " " parts) = parts.
Proof.
  induction parts as [|x parts IH]; [congruence|]. intros _ Hall.
  destruct parts as [|y parts].
  - simpl. apply split_no_sep. apply Hall. now left.
  - change (join " " (x :: y :: parts)) with (x ++ " " ++ join " " (y :: parts))%string.
    rewrite string_app_cons, string_app_nil_l.
    rewrite split_app_sep by (apply Hall; now left).
    rewrite IH; [reflexivity | discriminate |].
    intros s Hs. apply Hall. now right.
Qed.

(** X15: [classNames] drops every falsy entry ([false], [null], [undefined]
    and the empty string) and joins the rest with single spaces: when nothing
    is left the result is the empty string, and when the kept names hold no
    space, splitting the result on " " gives back exactly the kept names, in
    order, none of them empty. *)
Theorem X15_classNames_round_trip :
  forall values,
    (forall s, In s (filterBoolean values) -> s <> EmptyString)
    /\ (filterBoolean values = [] -> classNames values = EmptyString)
    /\ (filterBoolean values <> [] ->
        (forall s, In s (filterBoolean values) -> allChars (notChar " ") s = true) ->
        split " " (classNames values) = filterBoolean values).
Proof.
  intros values. split; [apply filterBoolean_truthy|]. split.
  - unfold classNames. now intros ->.
  - intros Hne Hall. unfold classNames. now apply split_join.
Qed.

(** X15 on a tab button: the active class is present, the falsy ones are not. *)
Lemma X15_witness :
  split " " (classNames [Some "px-4"%string; None; Some EmptyString; Some "bg-blue-600"%string])
  = ["px-4"%string; "bg-blue-600"%string].
Proof.
  apply (proj2 (proj2 (X15_classNames_round_trip
                         [Some "px-4"%string; None; Some EmptyString;
                          Some "bg-blue-600"%string]))).
  - vm_compute. discriminate.
  - intros s Hs. vm_compute in Hs. destruct Hs as [<-|[<-|[]]]; vm_compute; reflexivity.
Defined.

(** ** normalizeMeasure *)

Lemma toLowerChar_ws c : isWhiteSpace c = true -> toLowerChar c = c.
Proof.
  destruct c as [[] [] [] [] [] [] [] []]; vm_compute; intros H;
    first [reflexivity | discriminate H].
Qed.

Lemma toLowerCase_app a b : toLowerCase (a ++ b) = (toLowerCase a ++ toLowerCase b)%string.
Proof. induction a as [|c a IH]; simpl_app; [reflexivity | now rewrite IH]. Qed.

Lemma toLowerCase_ws ws : allChars isWhiteSpace ws = true -> toLowerCase ws = ws.
Proof.
  induction ws as [|c ws IH]; simpl; [reflexivity|].
  rewrite andb_true_iff. intros [Hc Hws]. now rewrite toLowerChar_ws, IH.
Qed.

Lemma trimStart_ws_app ws s :
  allChars isWhiteSpace ws = true -> trimStart (ws ++ s) = trimStart s.
Proof.
  induction ws as [|c ws IH]; simpl_app; [reflexivity|].
  rewrite andb_true_iff. intros [Hc Hws]. rewrite Hc. now apply IH.
Qed.

Lemma trimEnd_ws ws : allChars isWhiteSpace ws = true -> trimEnd ws = EmptyString.
Proof.
  induction ws as [|c ws IH]; simpl; [reflexivity|].
  rewrite andb_true_iff. intros [Hc Hws]. now rewrite IH, Hc.
Qed.

Lemma trimEnd_app_ws s ws :
  allChars isWhiteSpace ws = true -> trimEnd (s ++ ws) = trimEnd s.
Proof.
  intros Hws. induction s as [|c s IH]; simpl_app; [now apply trimEnd_ws|].
  now rewrite IH.
Qed.

Lemma trimEnd_app_keep p q :
  trimEnd q <> EmptyString -> trimEnd (p ++ q) = (p ++ trimEnd q)%string.
Proof.
  intros Hq. induction p as [|c p IH]; simpl_app; [reflexivity|].
  rewrite IH. destruct (p ++ trimEnd q)%string eqn:E; [|reflexivity].
  exfalso. apply Hq. destruct p; rewrite ?string_app_cons, ?string_app_nil_l in E;
    [exact E | discriminate].
Qed.

Lemma replaceSpaceRuns_word w : forall b s,
  w <> EmptyString -> allChars notWhiteSpace w = true ->
  replaceSpaceRuns b (w ++ s) = (w ++ replaceSpaceRuns false s)%string.
Proof.
  induction w as [|c w IH]; intros b s Hne Hw; [congruence|].
  simpl in Hw. apply andb_true_iff in Hw as [Hc Hw].
  unfold notWhiteSpace in Hc. apply negb_true_iff in Hc.
  rewrite !string_app_cons. cbn [replaceSpaceRuns]. rewrite Hc. f_equal.
  destruct w as [|d w]; [reflexivity|]. apply IH; [discriminate | exact Hw].
Qed.

Lemma replaceSpaceRuns_in_run ws s :
  allChars isWhiteSpace ws = true ->
  replaceSpaceRuns true (ws ++ s) = replaceSpaceRuns true s.
Proof.
  induction ws as [|c ws IH]; simpl_app; [reflexivity|].
  rewrite andb_true_iff. intros [Hc Hws]. rewrite Hc. now apply IH.
Qed.

Lemma replaceSpaceRuns_run ws s :
  ws <> EmptyString -> allChars isWhiteSpace ws = true ->
  replaceSpaceRuns false (ws ++ s) = String "_" (replaceSpaceRuns true s).
Proof.
  destruct ws as [|c ws]; [congruence|]. intros _ H. simpl in H.
  apply andb_true_iff in H as [Hc Hws].
  rewrite string_app_cons. cbn [replaceSpaceRuns]. rewrite Hc.
  now rewrite replaceSpaceRuns_in_run.
Qed.

Lemma normalizeMeasure_padded ws0 a ws2 w :
  toLowerCase a = w -> w <> EmptyString ->
  allChars notWhiteSpace w = true ->
  allChars isWhiteSpace ws0 = true -> allChars isWhiteSpace ws2 = true ->
  normalizeMeasure (Some (ws0 ++ a ++ ws2)%string)
  = if String.eqb w "gross_margin" || String.eqb w "gm" then Gm else Revenue.
Proof.
  intros Ha Hne Hw H0 H2. unfold normalizeMeasure. cbv beta iota.
  rewrite !toLowerCase_app, Ha, !toLowerCase_ws by assumption.
  unfold trim. rewrite trimStart_ws_app, trimStart_word by assumption.
  rewrite trimEnd_app_ws, trimEnd_id by assumption.
  assert (E : replaceSpaceRuns false w = w).
  { rewrite <- (string_app_nil_r w) at 1.
    rewrite replaceSpaceRuns_word by assumption. cbn [replaceSpaceRuns].
    apply string_app_nil_r. }
  now rewrite E.
Qed.

(** X16: [normalizeMeasure] reads the measure whatever its casing and
    spacing.  Over the strings of code units below 256, with white space
    being tab, line feed, vertical tab, form feed, carriage return, space and
    no-break space: "gross margin" written in any mix of upper and lower case,
    with any non-empty run of white space between the two words and any white
    space around them, is gm, and so are "gm" and "gross_margin" in any
    casing with white space around; a missing value is revenue. *)
Theorem X16_normalizeMeasure_reads_gross_margin :
  (forall a b ws0 ws1 ws2,
      toLowerCase a = "gross"%string -> toLowerCase b = "margin"%string ->
      allChars isWhiteSpace ws0 = true -> allChars isWhiteSpace ws1 = true ->
      allChars isWhiteSpace ws2 = true -> ws1 <> EmptyString ->
      normalizeMeasure (Some (ws0 ++ a ++ ws1 ++ b ++ ws2)%string) = Gm)
  /\ (forall a ws0 ws2,
         toLowerCase a = "gm"%string \/ toLowerCase a = "gross_margin"%string ->
         allChars isWhiteSpace ws0 = true -> allChars isWhiteSpace ws2 = true ->
         normalizeMeasure (Some (ws0 ++ a ++ ws2)%string) = Gm)
  /\ normalizeMeasure None = Revenue.
Proof.
  split; [|split; [|reflexivity]].
  - intros a b ws0 ws1 ws2 Ha Hb H0 H1 H2 Hne. unfold normalizeMeasure. cbv beta iota.
    rewrite !toLowerCase_app, Ha, Hb, !toLowerCase_ws by assumption.
    unfold trim. rewrite trimStart_ws_app by assumption.
    rewrite (trimStart_word "gross") by (reflexivity || discriminate).
    replace ("gross" ++ ws1 ++ "margin" ++ ws2)%string
      with ((("gross" ++ ws1) ++ "margin") ++ ws2)%string
      by (now rewrite !string_app_assoc).
    rewrite trimEnd_app_ws by assumption.
    rewrite trimEnd_app_keep by (vm_compute; discriminate).
    change (trimEnd "margin") with "margin"%string.
    rewrite !string_app_assoc.
    rewrite (replaceSpaceRuns_word "gross") by (reflexivity || discriminate).
    rewrite replaceSpaceRuns_run by assumption. reflexivity.
  - intros a ws0 ws2 [Ha|Ha] H0 H2.
    + now rewrite (normalizeMeasure_padded ws0 a ws2 "gm").
    + now rewrite (normalizeMeasure_padded ws0 a ws2 "gross_margin").
Qed.

(** X16 on a header cell and on a padded abbreviation. *)
Lemma X16_witness :
  normalizeMeasure (Some (" " ++ "Gross" ++ "  " ++ "MARGIN" ++ EmptyString)%string) = Gm
  /\ normalizeMeasure (Some (EmptyString ++ "GM" ++ " ")%string) = Gm.
Proof.
  split.
  - apply (proj1 X16_normalizeMeasure_reads_gross_margin "Gross"%string "MARGIN"%string
             " "%string "  "%string EmptyString);
      try (vm_compute; reflexivity). discriminate.
  - apply (proj1 (proj2 X16_normalizeMeasure_reads_gross_margin) "GM"%string
             EmptyString " "%string); try (vm_compute; reflexivity).
    left. vm_compute. reflexivity.
Defined.

(** A no-break space (U+00A0) between the two words is white space too. *)
Example normalizeMeasure_no_break_space :
  normalizeMeasure (Some ("Gross" ++ String (ascii_of_nat 160) "Margin")%string) = Gm.
Proof. vm_compute. reflexivity. Qed.

(* ===================================================================== *)
(** * Order of binary64 numbers, colours and [maxValue] *)
(* ===================================================================== *)

Lemma SFcompare_trans_Lt x y z :
  SFcompare x y = Some Lt -> SFcompare y z = Some Lt -> SFcompare x z = Some Lt.
Proof.
  destruct x as [sx|sx| |sx mx ex], y as [sy|sy| |sy my ey], z as [sz|sz| |sz mz ez];
    simpl; try discriminate;
    try (destruct sx; simpl; try discriminate);
    try (destruct sy; simpl; try discriminate);
    try (destruct sz; simpl; try discriminate);
    try reflexivity.
  all: change (Pos.compare_cont Eq) with Pos.compare.
  all: destruct (Z.compare_spec ex ey), (Z.compare_spec ey ez), (Z.compare_spec ex ez);
    subst; try lia; try discriminate; try reflexivity.
  all: destruct (Pos.compare_spec mx my), (Pos.compare_spec my mz),
         (Pos.compare_spec mx mz); subst; simpl; try lia; try discriminate;
         try reflexivity.
Qed.

Lemma SFcompare_refl_not_Lt x : SFcompare x x <> Some Lt.
Proof.
  destruct x as [s|s| |s m e]; simpl; try discriminate; destruct s; try discriminate;
    rewrite Z.compare_refl; change (Pos.compare_cont Eq) with Pos.compare;
    rewrite Pos.compare_refl; discriminate.
Qed.

Lemma SFcompare_le_trans x y z c1 c2 :
  SFcompare x y = Some c1 -> c1 <> Gt ->
  SFcompare y z = Some c2 -> c2 <> Gt ->
  exists c3, SFcompare x z = Some c3 /\ c3 <> Gt.
Proof.
  destruct x as [sx|sx| |sx mx ex], y as [sy|sy| |sy my ey], z as [sz|sz| |sz mz ez];
    simpl; try discriminate;
    try (destruct sx; simpl); try (destruct sy; simpl); try (destruct sz; simpl);
    intros [= <-] H1 [= <-] H2; try congruence; try (eexists; split; [reflexivity|]);
    try discriminate; try assumption.
  all: change (Pos.compare_cont Eq) with Pos.compare in *.
  all: destruct (Z.compare_spec ex ey), (Z.compare_spec ey ez), (Z.compare_spec ex ez);
    subst; try lia; try discriminate; try congruence.
  all: destruct (Pos.compare_spec mx my), (Pos.compare_spec my mz),
         (Pos.compare_spec mx mz); subst; simpl in *; try lia; try discriminate;
         try congruence.
Qed.

Lemma float_ltb_trans a b c :
  PrimFloat.ltb a b = true -> PrimFloat.ltb b c = true -> PrimFloat.ltb a c = true.
Proof.
  rewrite !ltb_spec. unfold SFltb. intros H1 H2.
  destruct (SFcompare (Prim2SF a) (Prim2SF b)) as [[]|] eqn:E1; try discriminate.
  destruct (SFcompare (Prim2SF b) (Prim2SF c)) as [[]|] eqn:E2; try discriminate.
  now rewrite (SFcompare_trans_Lt _ _ _ E1 E2).
Qed.

Lemma float_ltb_irrefl a : PrimFloat.ltb a a = false.
Proof.
  rewrite ltb_spec. unfold SFltb.
  pose proof (SFcompare_refl_not_Lt (Prim2SF a)) as H.
  destruct (SFcompare (Prim2SF a) (Prim2SF a)) as [[]|]; congruence.
Qed.

Lemma float_leb_trans a b c :
  PrimFloat.leb a b = true -> PrimFloat.leb b c = true -> PrimFloat.leb a c = true.
Proof.
  rewrite !leb_spec. unfold SFleb. intros H1 H2.
  destruct (SFcompare (Prim2SF a) (Prim2SF b)) as [c1|] eqn:E1; [|discriminate].
  destruct (SFcompare (Prim2SF b) (Prim2SF c)) as [c2|] eqn:E2; [|discriminate].
  assert (N1 : c1 <> Gt) by (destruct c1; congruence).
  assert (N2 : c2 <> Gt) by (destruct c2; congruence).
  destruct (SFcompare_le_trans _ _ _ _ _ E1 N1 E2 N2) as (c3 & -> & N3).
  destruct c3; congruence.
Qed.

Ltac settle_shades :=
  repeat match goal with
    | |- context [if PrimFloat.leb ?t ?x then _ else _] => destruct (PrimFloat.leb t x)
    end;
  apply Nat.leb_le; vm_compute; reflexivity.

Lemma retentionCellColor_monotone v v' :
  PrimFloat.leb v v' = true ->
  (shadeRank (retentionCellColor (Some v)) <= shadeRank (retentionCellColor (Some v')))%nat.
Proof.
  intros Hle. unfold retentionCellColor.
  destruct (PrimFloat.leb 0.9 v) eqn:T1;
    [rewrite (float_leb_trans _ v v' T1 Hle); settle_shades|].
  destruct (PrimFloat.leb 0.75 v) eqn:T2;
    [rewrite (float_leb_trans _ v v' T2 Hle); settle_shades|].
  destruct (PrimFloat.leb 0.6 v) eqn:T3;
    [rewrite (float_leb_trans _ v v' T3 Hle); settle_shades|].
  destruct (PrimFloat.leb 0.45 v) eqn:T4;
    [rewrite (float_leb_trans _ v v' T4 Hle); settle_shades|].
  destruct (PrimFloat.leb 0.3 v) eqn:T5;
    [rewrite (float_leb_trans _ v v' T5 Hle); settle_shades|].
  destruct (PrimFloat.leb 0.15 v) eqn:T6;
    [rewrite (float_leb_trans _ v v' T6 Hle); settle_shades|].
  settle_shades.
Qed.

(** X17: the colour scale never inverts.  A larger retention ratio never gets
    a lighter blue than a smaller one, and an LTV cell with a positive [max]
    is coloured by the same scale applied to [value / max], so a larger
    quotient never gets a lighter blue either; with [max <= 0] every LTV cell
    that has a value gets the lightest blue. *)
Theorem X17_colour_scale_is_monotone :
  (forall v v',
      PrimFloat.leb v v' = true ->
      (shadeRank (retentionCellColor (Some v))
       <= shadeRank (retentionCellColor (Some v')))%nat)
  /\ (forall v mx,
         PrimFloat.leb mx 0%float = false ->
         ltvCellColor (Some v) mx = retentionCellColor (Some (v / mx)%float))
  /\ (forall v v' mx,
         PrimFloat.leb mx 0%float = false ->
         PrimFloat.leb (v / mx) (v' / mx) = true ->
         (shadeRank (ltvCellColor (Some v) mx) <= shadeRank (ltvCellColor (Some v') mx))%nat)
  /\ (forall v mx,
         PrimFloat.leb mx 0%float = true -> ltvCellColor (Some v) mx = "bg-sky-50"%string).
Proof.
  assert (Hscale : forall v mx, PrimFloat.leb mx 0%float = false ->
                     ltvCellColor (Some v) mx = retentionCellColor (Some (v / mx)%float)).
  { intros v mx Hmx. unfold ltvCellColor, retentionCellColor. now rewrite Hmx. }
  split; [exact retentionCellColor_monotone|]. split; [exact Hscale|]. split.
  - intros v v' mx Hmx Hle. rewrite !Hscale by exact Hmx.
    now apply retentionCellColor_monotone.
  - intros v mx Hmx. unfold ltvCellColor. now rewrite Hmx.
Qed.

(** X17 on the ratios 0.6667 and 1 of the fallback rows, and on the values 350
    and 700 against the maximum 700. *)
Lemma X17_witness :
  (shadeRank (retentionCellColor (Some 0.6667%float))
   <= shadeRank (retentionCellColor (Some 1%float)))%nat
  /\ (shadeRank (ltvCellColor (Some 350%float) 700%float)
      <= shadeRank (ltvCellColor (Some 700%float) 700%float))%nat.
Proof.
  split.
  - apply (proj1 X17_colour_scale_is_monotone). vm_compute. reflexivity.
  - apply (proj1 (proj2 (proj2 X17_colour_scale_is_monotone))); vm_compute; reflexivity.
Defined.

(** ** maxValue *)

Lemma snd_fold_ltvStep lo rs : forall st,
  snd (fold_left (ltvStep lo) rs st)
  = fold_left maxValueStep (List.map (ltvEvent lo) rs) (snd st).
Proof.
  induction rs as [|r rs IH]; intros [mp mx]; simpl; [reflexivity|].
  rewrite IH. f_equal.
  unfold ltvStep, maxValueStep, ltvEvent; simpl.
  destruct (truthy lo); simpl.
  - destruct (LtvRow.m r >? _); [reflexivity|].
    now destruct (PrimFloat.leb (LtvRow.ltv_per_user r) 0).
  - now destruct (PrimFloat.leb (LtvRow.ltv_per_user r) 0).
Qed.

Lemma maxValue_as_events cmp rs f lo :
  maxValue (buildLtvPivot cmp rs f lo)
  = Some (fold_left maxValueStep (ltvEvents rs f lo) 0%float).
Proof.
  unfold buildLtvPivot.
  pose proof (snd_fold_ltvStep lo (List.filter (ltvFilter f lo) rs) ([], 0%float)) as H.
  destruct (fold_left (ltvStep lo) (List.filter (ltvFilter f lo) rs) ([], 0%float))
    as [byMonth mx]; simpl in *.
  now rewrite H.
Qed.

Lemma maxValueStep_fold evs : forall mx0,
  let mx := fold_left maxValueStep evs mx0 in
  (forall e m v, In e evs -> evCell e = Some (m, v) -> PrimFloat.ltb mx v = false)
  /\ (mx = mx0 \/ exists e m, In e evs /\ evCell e = Some (m, mx)).
Proof.
  induction evs as [|x evs IH] using rev_ind; intros mx0; simpl.
  - split; [intros e m v []|now left].
  - rewrite fold_left_app. cbn [fold_left].
    destruct (IH mx0) as [Hle Hin]. simpl in Hle, Hin.
    set (mx := fold_left maxValueStep evs mx0) in *.
    split.
    + intros e m v He Hc. apply in_app_or in He as [He|[<-|[]]].
      * specialize (Hle e m v He Hc). unfold maxValueStep.
        destruct (evCell x) as [[m' v']|]; [|exact Hle].
        destruct (PrimFloat.ltb mx v') eqn:L; [|exact Hle].
        destruct (PrimFloat.ltb v' v) eqn:L'; [|reflexivity].
        rewrite (float_ltb_trans _ _ _ L L') in Hle. discriminate.
      * unfold maxValueStep. rewrite Hc.
        destruct (PrimFloat.ltb mx v) eqn:L; [apply float_ltb_irrefl | exact L].
    + unfold maxValueStep. destruct (evCell x) as [[m' v']|] eqn:C.
      * destruct (PrimFloat.ltb mx v').
        -- right. exists x, m'. split; [apply in_or_app; right; now left | exact C].
        -- destruct Hin as [->|(e & m & He & Hc)]; [now left|].
           right. exists e, m. split; [apply in_or_app; now left | exact Hc].
      * destruct Hin as [->|(e & m & He & Hc)]; [now left|].
        right. exists e, m. split; [apply in_or_app; now left | exact Hc].
Qed.

(** X18: the [maxValue] of an LTV pivot is never exceeded by a value of the
    matrix: no value recorded in any row is greater than it.  It is either 0
    (nothing recorded exceeded 0) or the value of a filtered row that the loop
    did not skip. *)
Theorem X18_maxValue_bounds_the_cells :
  forall cmp rs f lo,
    exists mx,
      maxValue (buildLtvPivot cmp rs f lo) = Some mx
      /\ (forall out m v,
             In out (rows (buildLtvPivot cmp rs f lo)) -> values out !! m = Some v ->
             PrimFloat.ltb mx v = false)
      /\ (mx = 0%float
          \/ exists r, In r (List.filter (ltvFilter f lo) rs)
                       /\ LtvRow.ltv_per_user r = mx
                       /\ PrimFloat.leb mx 0%float = false
                       /\ (lo <> EmptyString ->
                           LtvRow.m r <= monthsDiff (LtvRow.cohortMonthKey r) lo)).
Proof.
  intros cmp rs f lo. eexists. split; [apply maxValue_as_events|].
  destruct (maxValueStep_fold (ltvEvents rs f lo) 0%float) as [Hle Hin].
  split.
  - intros out m v Hout Hl. apply ltv_rows_iff in Hout as (g & Hg & _ & Hv).
    rewrite Hv in Hl. destruct (groupOf_cell _ _ _ _ _ Hg Hl) as (e & He & _ & Hc).
    exact (Hle e m v He Hc).
  - destruct Hin as [->|(e & m & He & Hc)]; [now left|]. right.
    apply in_map_iff in He as (r & <- & Hr).
    apply ltvEvent_cell in Hc as (-> & Hv & Hp & Hb).
    exists r. repeat split; auto.
Qed.

(** X18 on the fallback LTV rows: the maximum is not below the cell 700. *)
Lemma X18_witness :
  exists mx,
    maxValue (buildLtvPivot String.compare FALLBACK_LTV_ROWS ltvFiltersExample "2024-12")
    = Some mx
    /\ PrimFloat.ltb mx 700%float = false.
Proof.
  destruct (X18_maxValue_bounds_the_cells String.compare FALLBACK_LTV_ROWS
              ltvFiltersExample "2024-12") as (mx & Hmx & Hle & _).
  exists mx. split; [exact Hmx|].
  apply (Hle fallbackLtvOutRow 1 700%float).
  - vm_compute. left. reflexivity.
  - vm_compute. reflexivity.
Defined.

(* ===================================================================== *)
(** * The choices of the filters *)
(* ===================================================================== *)

Lemma setAdd_In seen x y : In y (setAdd seen x) <-> In y seen \/ y = x.
Proof.
  unfold setAdd. destruct (existsb (String.eqb x) seen) eqn:E.
  - split; [now left|]. intros [H| ->]; [exact H|].
    apply existsb_exists in E as (z & Hz & Hxz). apply String.eqb_eq in Hxz. now subst.
  - rewrite in_app_iff. simpl. intuition congruence.
Qed.

Lemma setAdd_NoDup seen x : List.NoDup seen -> List.NoDup (setAdd seen x).
Proof.
  intros Hnd. unfold setAdd. destruct (existsb (String.eqb x) seen) eqn:E; [exact Hnd|].
  apply NoDup_ListNoDup. apply NoDup_ListNoDup in Hnd.
  apply NoDup_app. split; [exact Hnd|]. split; [|apply NoDup_singleton].
  intros y Hy Hy'. apply list_elem_of_In in Hy. apply list_elem_of_In in Hy'.
  destruct Hy' as [<-|[]].
  assert (existsb (String.eqb x) seen = true)
    by (apply existsb_exists; exists x; split; [exact Hy | apply String.eqb_refl]).
  congruence.
Qed.

Lemma arrayFromSet_fold xs : forall seen,
  List.NoDup seen ->
  List.NoDup (fold_left setAdd xs seen)
  /\ forall y, In y (fold_left setAdd xs seen) <-> In y seen \/ In y xs.
Proof.
  induction xs as [|x xs IH]; intros seen Hnd; simpl.
  - split; [exact Hnd | tauto].
  - destruct (IH (setAdd seen x) (setAdd_NoDup _ _ Hnd)) as [H1 H2].
    split; [exact H1|]. intros y. rewrite H2, setAdd_In. intuition congruence.
Qed.

Lemma arrayFromSet_spec xs :
  List.NoDup (arrayFromSet xs) /\ forall y, In y (arrayFromSet xs) <-> In y xs.
Proof.
  destruct (arrayFromSet_fold xs [] (List.NoDup_nil _)) as [H1 H2].
  split; [exact H1|]. intros y. rewrite H2. simpl. tauto.
Qed.

Lemma sortedInsert_perm x l : Permutation (sortedInsert x l) (x :: l).
Proof.
  induction l as [|y l IH]; simpl; [reflexivity|].
  destruct (strLt y x); [|reflexivity]. rewrite IH. apply perm_swap.
Qed.

Lemma sortStrings_perm l : Permutation (sortStrings l) l.
Proof.
  induction l as [|x l IH]; simpl; [reflexivity|].
  rewrite sortedInsert_perm. now constructor.
Qed.

Lemma sortedInsert_sorted x l :
  Sorted strNotAfter l -> Sorted strNotAfter (sortedInsert x l).
Proof.
  induction l as [|y l IH]; intros Hs; simpl.
  - repeat constructor.
  - inversion Hs as [|? ? Hs' Hhd]; subst.
    destruct (strLt y x) eqn:E.
    + apply strLt_true_iff in E.
      assert (Hyx : strNotAfter y x) by (unfold strNotAfter; congruence).
      constructor; [now apply IH|].
      destruct l as [|z l]; simpl; [now constructor|].
      destruct (strLt z x); constructor; [now inversion Hhd | exact Hyx].
    + apply strLt_false_iff in E. constructor; [exact Hs|]. constructor.
      unfold strNotAfter. rewrite String.compare_antisym.
      destruct (String.compare y x); simpl; congruence.
Qed.

Lemma sortStrings_sorted l : Sorted strNotAfter (sortStrings l).
Proof.
  induction l as [|x l IH]; simpl; [constructor | now apply sortedInsert_sorted].
Qed.

Lemma sortStrings_choices l : List.NoDup l -> ascendingChoices (sortStrings l).
Proof.
  intros Hnd. split; [apply sortStrings_sorted|].
  apply (Permutation_NoDup (l := l)); [symmetry; apply sortStrings_perm | exact Hnd].
Qed.

Lemma In_sortStrings y l : In y (sortStrings l) <-> In y l.
Proof.
  split; apply Permutation_in; [apply sortStrings_perm | symmetry; apply sortStrings_perm].
Qed.

Lemma NoDup_filter_list {A : Type} (p : A -> bool) (l : list A) :
  List.NoDup l -> List.NoDup (List.filter p l).
Proof.
  induction 1 as [|x l Hx Hnd IH]; simpl; [constructor|].
  destruct (p x); [|exact IH]. constructor; [|exact IH].
  intros H. apply filter_In in H. tauto.
Qed.

Lemma named_choices (xs : list string) :
  ascendingChoices (sortStrings (List.filter truthy (arrayFromSet xs)))
  /\ forall v, In v (sortStrings (List.filter truthy (arrayFromSet xs)))
               <-> In v xs /\ v <> EmptyString.
Proof.
  destruct (arrayFromSet_spec xs) as [Hnd Hin]. split.
  - apply sortStrings_choices. now apply NoDup_filter_list.
  - intros v. rewrite In_sortStrings, filter_In, Hin, truthy_true_iff. tauto.
Qed.

Lemma month_choices (xs : list string) :
  ascendingChoices (sortStrings (arrayFromSet xs))
  /\ forall v, In v (sortStrings (arrayFromSet xs)) <-> In v xs.
Proof.
  destruct (arrayFromSet_spec xs) as [Hnd Hin]. split.
  - now apply sortStrings_choices.
  - intros v. now rewrite In_sortStrings, Hin.
Qed.

(** X19: the choices that the retention filters offer for a segment are
    ascending in string order and free of repetitions; the months are exactly
    the cohort months of the rows of the segment, the categories (and the
    SKUs) exactly the non-empty first values of the segment's rows of the
    category (SKU) dimension. *)
Theorem X19_retention_choices :
  forall rs segment,
    let u := uniqueRetention rs segment in
    ascendingChoices (months u) /\ ascendingChoices (categories u)
    /\ ascendingChoices (skus u)
    /\ (forall k, In k (months u)
                  <-> exists r, In r rs /\ RetentionRow.segment r = segment
                                /\ RetentionRow.cohortMonthKey r = k)
    /\ (forall v, In v (categories u)
                  <-> v <> EmptyString
                      /\ exists r, In r rs /\ RetentionRow.segment r = segment
                                   /\ RetentionRow.dimension r = Category
                                   /\ RetentionRow.first_value r = v)
    /\ (forall v, In v (skus u)
                  <-> v <> EmptyString
                      /\ exists r, In r rs /\ RetentionRow.segment r = segment
                                   /\ RetentionRow.dimension r = Sku
                                   /\ RetentionRow.first_value r = v).
Proof.
  intros rs segment u. subst u. unfold uniqueRetention. cbn [months categories skus].
  assert (Hnamed : forall d v,
             In v (List.map RetentionRow.first_value
                     (List.filter (fun row => bool_decide (RetentionRow.dimension row = d))
                        (List.filter
                           (fun row => bool_decide (RetentionRow.segment row = segment))
                           rs)))
             <-> exists r, In r rs /\ RetentionRow.segment r = segment
                           /\ RetentionRow.dimension r = d
                           /\ RetentionRow.first_value r = v).
  { intros d v. rewrite in_map_iff. split.
    - intros (r & Hv & Hr). apply filter_In in Hr as [Hr Hd].
      apply filter_In in Hr as [Hr Hs]. apply bool_decide_eq_true in Hd, Hs. now exists r.
    - intros (r & Hr & Hs & Hd & Hv). exists r. split; [exact Hv|].
      apply filter_In. split; [|now apply bool_decide_eq_true].
      apply filter_In. split; [exact Hr | now apply bool_decide_eq_true]. }
  split; [apply month_choices|]. split; [apply named_choices|].
  split; [apply named_choices|]. split; [|split].
  - intros k. rewrite (proj2 (month_choices _) k), in_map_iff. split.
    + intros (r & Hk & Hr). apply filter_In in Hr as [Hr Hs].
      apply bool_decide_eq_true in Hs. now exists r.
    + intros (r & Hr & Hs & Hk). exists r. split; [exact Hk|].
      apply filter_In. split; [exact Hr | now apply bool_decide_eq_true].
  - intros v. rewrite (proj2 (named_choices _) v), Hnamed. tauto.
  - intros v. rewrite (proj2 (named_choices _) v), Hnamed. tauto.
Qed.

(** X20: the LTV filters take their choices from the gross-margin rows of the
    segment only: the months offered are exactly the cohort months of the rows
    with measure gm in the segment, ascending and without repetition, so a
    cohort that has only revenue rows is not offered. *)
Theorem X20_ltv_choices_from_gm_rows :
  forall rs segment,
    let u := uniqueLtv rs segment in
    ascendingChoices (months u) /\ ascendingChoices (categories u)
    /\ ascendingChoices (skus u)
    /\ (forall k, In k (months u)
                  <-> exists r, In r rs /\ LtvRow.measure r = Gm
                                /\ LtvRow.segment r = segment
                                /\ LtvRow.cohortMonthKey r = k).
Proof.
  intros rs segment u. subst u. unfold uniqueLtv. cbn [months categories skus].
  split; [apply month_choices|]. split; [apply named_choices|].
  split; [apply named_choices|].
  intros k. rewrite (proj2 (month_choices _) k), in_map_iff. split.
  - intros (r & Hk & Hr). apply filter_In in Hr as [Hr Hs].
    apply andb_true_iff in Hs as [Hm Hs].
    apply bool_decide_eq_true in Hm, Hs. now exists r.
  - intros (r & Hr & Hm & Hs & Hk). exists r.
    split; [exact Hk|]. apply filter_In. split; [exact Hr|].
    apply andb_true_iff. split; now apply bool_decide_eq_true.
Qed.

(* ===================================================================== *)
(** * The calendar model *)
(* ===================================================================== *)

(** The rounds that [civilFields] allows are enough: the month index it
    returns is in [0..11] and the day is a day of that month. *)
Lemma settleDay_in_calendar n : forall y mi d,
  0 <= mi <= 11 ->
  1 - 28 * Z.of_nat n <= d <= daysInMonth y mi + 28 * Z.of_nat n ->
  let '(y', mi', d') := settleDay n y mi d in
  0 <= mi' <= 11 /\ 1 <= d' <= daysInMonth y' mi'.
Proof.
  induction n as [|n IH]; intros y mi d Hmi Hd.
  - simpl. simpl in Hd. lia.
  - cbn [settleDay]. rewrite Nat2Z.inj_succ in Hd.
    pose proof (daysInMonth_ge y mi) as B0.
    pose proof (daysInMonth_ge (y - 1) 11) as B1.
    pose proof (daysInMonth_ge y (mi - 1)) as B2.
    pose proof (daysInMonth_ge (y + 1) 0) as B3.
    pose proof (daysInMonth_ge y (mi + 1)) as B4.
    destruct (d <? 1) eqn:E1.
    + apply Z.ltb_lt in E1.
      destruct (mi =? 0) eqn:E0; [apply Z.eqb_eq in E0 | apply Z.eqb_neq in E0];
        apply IH; lia.
    + apply Z.ltb_ge in E1. destruct (daysInMonth y mi <? d) eqn:E2.
      * apply Z.ltb_lt in E2.
        destruct (mi =? 11) eqn:E11; [apply Z.eqb_eq in E11 | apply Z.eqb_neq in E11];
          apply IH; lia.
      * apply Z.ltb_ge in E2. lia.
Qed.

Lemma civilFields_in_calendar year monthIndex day :
  let '(y', mi', d') := civilFields year monthIndex day in
  0 <= mi' <= 11 /\ 1 <= d' <= daysInMonth y' mi'.
Proof.
  unfold civilFields. apply settleDay_in_calendar.
  - pose proof (Z.mod_pos_bound monthIndex 12). lia.
  - rewrite Nat2Z.inj_succ, Z2Nat.id by lia.
    pose proof (daysInMonth_ge
                  ((if (0 <=? year) && (year <=? 99) then 1900 + year else year)
                   + monthIndex / 12) (monthIndex mod 12)).
    lia.
Qed.

(* ===================================================================== *)
(** * Malformed ratios *)
(* ===================================================================== *)

Lemma sign_split (t : string) :
  match t with
  | String "-" r => (true, r)
  | String "+" r => (false, r)
  | _ => (false, t)
  end
  = match t with
    | String c r =>
        if Ascii.eqb c "-" then (true, r)
        else if Ascii.eqb c "+" then (false, r) else (false, t)
    | EmptyString => (false, t)
    end.
Proof.
  destruct t as [|c r]; [reflexivity|].
  destruct c as [[] [] [] [] [] [] [] []]; reflexivity.
Qed.

Lemma point_split (rest1 : string) :
  match rest1 with
  | String "." r => spanDigits r
  | _ => (EmptyString, rest1)
  end
  = match rest1 with
    | String c r => if Ascii.eqb c "." then spanDigits r else (EmptyString, rest1)
    | EmptyString => (EmptyString, rest1)
    end.
Proof.
  destruct rest1 as [|c r]; [reflexivity|].
  destruct c as [[] [] [] [] [] [] [] []]; reflexivity.
Qed.

Lemma spanDigits_no_digit c r :
  isDigit c = false -> spanDigits (String c r) = (EmptyString, String c r).
Proof. intros H. cbn [spanDigits]. now rewrite H. Qed.

Lemma parseFloat_unsigned s :
  parseFloat s
  = match trimStart s with
    | String c r =>
        if Ascii.eqb c "-" then parseUnsigned true r
        else if Ascii.eqb c "+" then parseUnsigned false r
        else parseUnsigned false (String c r)
    | EmptyString => parseUnsigned false EmptyString
    end.
Proof.
  unfold parseFloat. rewrite sign_split.
  destruct (trimStart s) as [|c r]; [reflexivity|].
  destruct (Ascii.eqb c "-"); [reflexivity|].
  destruct (Ascii.eqb c "+"); reflexivity.
Qed.

(** Without a numeral at its head the text is not read as a finite number. *)
Lemma parseUnsigned_no_numeral neg body :
  numeralHead body = false -> isFinite (parseUnsigned neg body) = false.
Proof.
  intros H. unfold parseUnsigned.
  destruct (String.prefix "Infinity" body); [now destruct neg|].
  destruct body as [|c r]; [reflexivity|].
  cbn [numeralHead] in H. apply orb_false_iff in H as [Hc Hpoint].
  rewrite (spanDigits_no_digit c r Hc).
  pose proof (point_split (String c r)) as P. cbv beta iota zeta in P |- *. rewrite P.
  destruct (Ascii.eqb c ".") eqn:Ep; [|reflexivity].
  destruct r as [|d r']; [reflexivity|].
  simpl in Hpoint. now rewrite (spanDigits_no_digit d r' Hpoint).
Qed.

Lemma parseFloat_no_numeral s :
  beginsWithNumeral s = false -> isFinite (parseFloat s) = false.
Proof.
  unfold beginsWithNumeral. rewrite parseFloat_unsigned.
  destruct (trimStart s) as [|c r]; [reflexivity|].
  destruct (Ascii.eqb c "-") eqn:Em; cbn [orb].
  - apply parseUnsigned_no_numeral.
  - destruct (Ascii.eqb c "+"); apply parseUnsigned_no_numeral.
Qed.

Lemma parseRetention_nonNumeric val : nonNumeric val -> parseRetention val = 0%float.
Proof.
  destruct val as [x|s|]; simpl; [| |reflexivity].
  - now intros ->.
  - unfold ratioText. destruct (truthy (trim s)); simpl; [|reflexivity].
    destruct (endsWithPercent (trim s)); intros H;
      now rewrite (parseFloat_no_numeral _ H).
Qed.

(** C8, as stated, fails: a retention row whose ratio is the non-numeric text
    "n/a" is not left out of the pivot, it is recorded with the ratio 0. *)
Lemma C8_non_numeric_ratio_recorded_as_zero :
  nonNumeric (JsString "n/a")
  /\ exists out,
       In out (rows (buildRetentionPivot String.compare [malformedRatioRow]
                       retentionFiltersExample EmptyString))
       /\ cohortMonth out = "2025-01"
       /\ values out !! 1 = Some 0%float.
Proof.
  split; [vm_compute; reflexivity|].
  eexists. split; [vm_compute; left; reflexivity|].
  split; vm_compute; reflexivity.
Qed.

(** C8 (amended): [parseRetention] never fails.  It gives 0 for every
    non-numeric value: a number that is [NaN] or infinite, a value that is
    neither a number nor a string, and a string whose trimmed text, less one
    final "%", does not begin with a decimal numeral; a text that only begins
    with a numeral is read as that numeral ("12abc" gives 12, "1,5" gives 1).
    The retention builder never looks at the ratio: a row that passes the
    filter, lies inside the observation window, and is not followed by a
    filtered row of its cohort with the same offset is recorded with the
    ratio it carries, so a row that carries the 0 of a non-numeric cell is
    recorded as the ratio 0.  In the LTV pivot no value [<= 0] is ever
    recorded, so a value normalised to 0 leaves its cell absent. *)
Theorem C8_non_numeric_ratio_is_recorded_as_zero :
  (forall val, nonNumeric val -> parseRetention val = 0%float)
  /\ (parseRetention (JsString "12abc") = 12%float
      /\ parseRetention (JsString "1,5") = 1%float)
  /\ (forall cmp pre r post f lo,
         retentionFilter f r = true ->
         (lo = EmptyString
          \/ RetentionRow.m r <= monthsDiff (RetentionRow.cohortMonthKey r) lo) ->
         (forall r', In r' post -> retentionFilter f r' = true ->
                     RetentionRow.cohortMonthKey r' = RetentionRow.cohortMonthKey r ->
                     RetentionRow.m r' <> RetentionRow.m r) ->
         exists out, In out (rows (buildRetentionPivot cmp (pre ++ r :: post) f lo))
                     /\ cohortMonth out = RetentionRow.cohortMonthKey r
                     /\ values out !! RetentionRow.m r = Some (RetentionRow.retention r)
                     /\ forall raw,
                          nonNumeric raw ->
                          RetentionRow.retention r = parseRetention raw ->
                          values out !! RetentionRow.m r = Some 0%float)
  /\ (forall cmp rs f lo out m v,
         In out (rows (buildLtvPivot cmp rs f lo)) -> values out !! m = Some v ->
         PrimFloat.leb v 0%float = false).
Proof.
  split; [exact parseRetention_nonNumeric|].
  split; [split; vm_compute; reflexivity|]. split.
  - intros cmp pre r post f lo Hf Hwin Hlast.
    assert (Hc : evCell (retentionEvent lo r)
                 = Some (RetentionRow.m r, RetentionRow.retention r)).
    { unfold retentionEvent; simpl. destruct Hwin as [->|Hle]; [reflexivity|].
      destruct (truthy lo); [|reflexivity]. simpl.
      destruct (RetentionRow.m r >? _) eqn:G; [lia | reflexivity]. }
    destruct (groupOf_last_write (RetentionRow.cohortMonthKey r)
                (List.map (retentionEvent lo) (List.filter (retentionFilter f) pre))
                (retentionEvent lo r)
                (List.map (retentionEvent lo) (List.filter (retentionFilter f) post))
                (RetentionRow.m r) (RetentionRow.retention r) eq_refl Hc)
      as (g & Hg & Hl).
    { intros e' v' He' Hk Hc'. apply in_map_iff in He' as (r' & <- & Hr').
      apply filter_In in Hr' as [Hin' Hf'].
      apply retentionEvent_cell in Hc' as (Hm & _).
      apply (Hlast r' Hin' Hf' Hk). congruence. }
    exists {| cohortMonth := RetentionRow.cohortMonthKey r; cohortSize := size g;
              values := groupValues g |}.
    split; [|split; [reflexivity|split]].
    + apply retention_rows_iff. exists g. simpl. split; [|now split].
      unfold retentionEvents. rewrite List.filter_app. simpl. rewrite Hf.
      rewrite map_app. exact Hg.
    + simpl. exact Hl.
    + intros raw Hraw Hret. simpl. rewrite Hl, Hret.
      now rewrite (parseRetention_nonNumeric _ Hraw).
  - intros cmp rs f lo out m v Hin Hl.
    now destruct (ltv_cell_source _ _ _ _ _ _ _ Hin Hl) as (_ & _ & _ & _ & _ & Hp & _).
Qed.

(** C8 on a row whose ratio read "n/a", placed after a well-formed row. *)
Lemma C8_witness :
  parseRetention (JsString "n/a") = 0%float
  /\ (exists out,
         In out (rows (buildRetentionPivot String.compare
                         ([scenarioRow 0 10%float 1%float] ++ malformedRatioRow :: [])
                         retentionFiltersExample "2025-03"))
         /\ cohortMonth out = RetentionRow.cohortMonthKey malformedRatioRow
         /\ values out !! RetentionRow.m malformedRatioRow = Some 0%float)
  /\ PrimFloat.leb 700%float 0%float = false.
Proof.
  pose proof C8_non_numeric_ratio_is_recorded_as_zero as (Hparse & _ & Hkeep & Hltv).
  split; [|split].
  - apply Hparse. vm_compute. reflexivity.
  - destruct (Hkeep String.compare [scenarioRow 0 10%float 1%float] malformedRatioRow []
                retentionFiltersExample "2025-03")
      as (out & Hin & Hk & _ & Hzero).
    + vm_compute. reflexivity.
    + right. vm_compute. discriminate.
    + intros r' [].
    + exists out. split; [exact Hin|]. split; [exact Hk|].
      apply (Hzero (JsString "n/a")); vm_compute; reflexivity.
  - apply (Hltv String.compare FALLBACK_LTV_ROWS ltvFiltersExample "2024-12"
             fallbackLtvOutRow 1).
    + vm_compute. left. reflexivity.
    + vm_compute. reflexivity.
Defined.

(* ===================================================================== *)
(** * The CAC of a heat-map row *)
(* ===================================================================== *)

Lemma inheritedMember_head c r :
  isDigit c = true \/ c = "-"%char -> inheritedMember (String c r) = false.
Proof.
  destruct c as [[] [] [] [] [] [] [] []]; intros [H|H];
    try (vm_compute in H; discriminate H); try discriminate H;
    vm_compute; reflexivity.
Qed.

Lemma numberToString_head n :
  exists c r, numberToString n = String c r /\ (isDigit c = true \/ c = "-"%char).
Proof.
  destruct (Z.ltb_spec n 0) as [Hneg|Hpos].
  - unfold numberToString. apply Z.ltb_lt in Hneg. rewrite Hneg. eauto.
  - destruct (numberToString_spec n Hpos) as (Hd & Hne & _).
    destruct (numberToString n) as [|c r]; [congruence|].
    simpl in Hd. apply andb_true_iff in Hd as [Hc _]. eauto.
Qed.

Lemma parsed_key_not_inherited raw :
  inheritedMember (key (parseCohortMonthKey raw)) = false.
Proof.
  unfold parseCohortMonthKey.
  destruct (parseInt (nth 0 _ _)) as [y|]; [|reflexivity].
  destruct (parseInt (nth 1 _ _)) as [m|]; [|reflexivity].
  cbn [key]. destruct (numberToString_head y) as (c & r & -> & Hc).
  rewrite string_app_cons. now apply inheritedMember_head.
Qed.

(** The value read under the name of an inherited member is not undefined:
    the CAC of a row so named is [NaN]. *)
Example inherited_member_gives_nan_cac :
  noSpendEntry (Some spendExample) (cohortMonth rowNamedConstructor)
  /\ spendOf (Some spendExample) rowNamedConstructor = Some PrototypeMember
  /\ option_map PrimFloat.is_nan (rowCacUsd (Some spendExample) rowNamedConstructor)
     = Some true.
Proof. repeat split; vm_compute; reflexivity. Qed.

(** C5: [calculateCacUsd] is undefined exactly when the spend is undefined or
    [cohortSize <= 0], and is the converted spend divided by the cohort size
    otherwise; a heat-map row whose cohort month has no entry in the spend
    table, and is not the name of a member that plain objects inherit, reads
    an undefined spend and gets an undefined CAC and an undefined break-even
    month (so neither 0 nor NaN); no key that [parseCohortMonthKey] writes is
    such a name. *)
Theorem C5_cac_undefined_iff_and_absent_spend :
  (forall spendAed cohortSize,
      calculateCacUsd spendAed cohortSize = None
      <-> spendAed = None \/ PrimFloat.leb cohortSize 0%float = true)
  /\ (forall spend cohortSize,
         PrimFloat.leb cohortSize 0%float = false ->
         calculateCacUsd (Some spend) cohortSize = Some (aedToUsd spend / cohortSize)%float)
  /\ (forall marketingSpend row maxMonth,
         noSpendEntry marketingSpend (cohortMonth row) ->
         inheritedMember (cohortMonth row) = false ->
         spendOf marketingSpend row = None
         /\ rowCacUsd marketingSpend row = None
         /\ rowBreakEvenMonth marketingSpend row maxMonth = None
         /\ rowCacUsd marketingSpend row <> Some 0%float
         /\ rowCacUsd marketingSpend row <> Some PrimFloat.nan
         /\ rowBreakEvenMonth marketingSpend row maxMonth <> Some 0)
  /\ (forall raw, inheritedMember (key (parseCohortMonthKey raw)) = false).
Proof.
  split; [|split; [|split]].
  - intros [s|] sz; unfold calculateCacUsd.
    + destruct (PrimFloat.leb sz 0) eqn:E.
      * split; [now right | reflexivity].
      * split; [discriminate | intros [H|H]; discriminate].
    + split; [now left | reflexivity].
  - intros s sz E. unfold calculateCacUsd. now rewrite E.
  - intros ms row mx Habsent Hown.
    assert (H : spendOf ms row = None).
    { unfold spendOf, getProperty. destruct ms as [table|]; [|reflexivity].
      simpl in Habsent. now rewrite Habsent, Hown. }
    unfold rowBreakEvenMonth, rowCacUsd. rewrite H. simpl.
    repeat split; discriminate.
  - exact parsed_key_not_inherited.
Qed.

(** C5 on the spend of "2024-10" with three customers, and on a cohort that
    the spend table does not list. *)
Lemma C5_witness :
  calculateCacUsd (Some 3034%float) 3%float = Some (aedToUsd 3034 / 3)%float
  /\ rowCacUsd (Some spendExample) rowWithoutSpend = None
  /\ rowBreakEvenMonth (Some spendExample) rowWithoutSpend 2 = None.
Proof.
  pose proof C5_cac_undefined_iff_and_absent_spend as (_ & Hdiv & Habsent & _).
  split.
  - apply Hdiv. vm_compute. reflexivity.
  - destruct (Habsent (Some spendExample) rowWithoutSpend 2) as (_ & H1 & H2 & _).
    + vm_compute. reflexivity.
    + vm_compute. reflexivity.
    + split; assumption.
Defined.
